(** * A shallow embedding of the crawl engine of the web archiver

    The development follows [scraper.py] (class [WebScraper]) and
    [scraping_service/utils.py] (classes [URLFilter] and [RobotsChecker]).
    Python text is [string]; dictionaries and sets are stdpp's [gmap] and
    [gset]; code that can raise lives in the error monad [Exc]; the asyncio
    tasks are a step relation whose steps are the code between two
    suspension points.  The progress bar, the calls of [logger] and the
    lines appended to [web_archiver.log] are not modelled: what is proved
    of a method holds of the calls in which writing the log does not
    fail. *)

From Stdlib Require Import ZArith List Ascii String Bool Lia.
From stdpp Require Import base gmap sets list strings.

Open Scope string_scope.

(** ** Python text operations *)

Module Py.

(** [s.startswith(p)] *)
Definition startswith (s p : string) : bool := String.prefix p s.

(** [sub in s] *)
Fixpoint contains (sub s : string) : bool :=
  if String.prefix sub s then true
  else match s with
       | EmptyString => false
       | String _ t => contains sub t
       end.

(** [s.split(c)] for a separator of one character *)
Fixpoint split_on (c : ascii) (s : string) : list string :=
  match s with
  | EmptyString => [EmptyString]
  | String a t =>
      if Ascii.eqb a c then EmptyString :: split_on c t
      else match split_on c t with
           | h :: r => String a h :: r
           | [] => [String a EmptyString]
           end
  end.

(** [sep.join(l)] *)
Fixpoint join (sep : string) (l : list string) : string :=
  match l with
  | [] => EmptyString
  | [x] => x
  | x :: r => x ++ sep ++ join sep r
  end.

(** The characters [str.strip()] removes, within ASCII. *)
Definition is_space (a : ascii) : bool :=
  let n := nat_of_ascii a in
  ((9 <=? n) && (n <=? 13) || (28 <=? n) && (n <=? 32))%nat.

Fixpoint lstrip (s : string) : string :=
  match s with
  | String a t => if is_space a then lstrip t else s
  | EmptyString => EmptyString
  end.

Fixpoint rstrip (s : string) : string :=
  match s with
  | EmptyString => EmptyString
  | String a t =>
      match rstrip t with
      | EmptyString => if is_space a then EmptyString else String a EmptyString
      | t' => String a t'
      end
  end.

Definition strip (s : string) : string := rstrip (lstrip s).

Definition lower_ascii (a : ascii) : ascii :=
  let n := nat_of_ascii a in
  if ((65 <=? n) && (n <=? 90))%nat then ascii_of_nat (n + 32) else a.

(** [s.lower()] on ASCII text *)
Fixpoint lower (s : string) : string :=
  match s with
  | EmptyString => EmptyString
  | String a t => String (lower_ascii a) (lower t)
  end.

Fixpoint drop (n : nat) (s : string) : string :=
  match n, s with
  | S k, String _ t => drop k t
  | _, _ => s
  end.

(** [s.replace(old, new)]: the occurrences of [old] are taken from the
    left and do not overlap.  [skip] counts the characters of an occurrence
    that are still to be passed over.  ([old] is never empty here.) *)
Fixpoint replace_from (skip : nat) (old new s : string) : string :=
  match s with
  | EmptyString => EmptyString
  | String a t =>
      match skip with
      | S k => replace_from k old new t
      | O =>
          if String.prefix old s
          then new ++ replace_from (String.length old - 1) old new t
          else String a (replace_from 0 old new t)
      end
  end.

Definition replace (s old new : string) : string := replace_from 0 old new s.

(** [c in s] for a character *)
Fixpoint has_char (c : ascii) (s : string) : bool :=
  match s with
  | EmptyString => false
  | String a t => Ascii.eqb a c || has_char c t
  end.

(** The last element of [s.split(c)], that is [s[s.rfind(c)+1:]]. *)
Definition after_last (c : ascii) (s : string) : string :=
  List.last (split_on c s) EmptyString.

(** [os.path.splitext(p)[1]] of [posixpath]: the text from the last dot
    of the last path component, provided a character other than a dot
    comes before that dot in the component; otherwise empty. *)
Definition splitext_ext (p : string) : string :=
  let base := after_last "/" p in
  let parts := split_on "." base in
  let stem := removelast parts in
  if existsb (fun x => negb (String.eqb x EmptyString)) stem
  then String "." (List.last parts EmptyString)
  else EmptyString.

End Py.

(** ** [hashlib.md5(s.encode()).hexdigest()]

    RFC 1321 on the bytes of the text; 32-bit words are [Z] reduced
    modulo [2^32] after every addition and rotation. *)

Module MD5.

Local Open Scope Z_scope.

Definition w32 (x : Z) : Z := x mod 2 ^ 32.

Definition rotl (x c : Z) : Z :=
  w32 (Z.lor (Z.shiftl x c) (Z.shiftr x (32 - c))).

Definition not32 (x : Z) : Z := Z.lxor x 0xffffffff.

Definition K : list Z :=
  [ 0xd76aa478; 0xe8c7b756; 0x242070db; 0xc1bdceee;
    0xf57c0faf; 0x4787c62a; 0xa8304613; 0xfd469501;
    0x698098d8; 0x8b44f7af; 0xffff5bb1; 0x895cd7be;
    0x6b901122; 0xfd987193; 0xa679438e; 0x49b40821;
    0xf61e2562; 0xc040b340; 0x265e5a51; 0xe9b6c7aa;
    0xd62f105d; 0x02441453; 0xd8a1e681; 0xe7d3fbc8;
    0x21e1cde6; 0xc33707d6; 0xf4d50d87; 0x455a14ed;
    0xa9e3e905; 0xfcefa3f8; 0x676f02d9; 0x8d2a4c8a;
    0xfffa3942; 0x8771f681; 0x6d9d6122; 0xfde5380c;
    0xa4beea44; 0x4bdecfa9; 0xf6bb4b60; 0xbebfbc70;
    0x289b7ec6; 0xeaa127fa; 0xd4ef3085; 0x04881d05;
    0xd9d4d039; 0xe6db99e5; 0x1fa27cf8; 0xc4ac5665;
    0xf4292244; 0x432aff97; 0xab9423a7; 0xfc93a039;
    0x655b59c3; 0x8f0ccc92; 0xffeff47d; 0x85845dd1;
    0x6fa87e4f; 0xfe2ce6e0; 0xa3014314; 0x4e0811a1;
    0xf7537e82; 0xbd3af235; 0x2ad7d2bb; 0xeb86d391 ].

Definition shifts : list Z :=
  [ 7; 12; 17; 22; 7; 12; 17; 22; 7; 12; 17; 22; 7; 12; 17; 22;
    5; 9; 14; 20; 5; 9; 14; 20; 5; 9; 14; 20; 5; 9; 14; 20;
    4; 11; 16; 23; 4; 11; 16; 23; 4; 11; 16; 23; 4; 11; 16; 23;
    6; 10; 15; 21; 6; 10; 15; 21; 6; 10; 15; 21; 6; 10; 15; 21 ].

Definition bytes_of (s : string) : list Z :=
  List.map (fun a => Z.of_nat (nat_of_ascii a)) (list_ascii_of_string s).

(** Little-endian bytes of a word, [n] of them. *)
Fixpoint le_bytes (n : nat) (x : Z) : list Z :=
  match n with
  | O => []
  | S k => (x mod 256) :: le_bytes k (x / 256)
  end.

Fixpoint le_word (bs : list Z) : Z :=
  match bs with
  | [] => 0
  | b :: r => b + 256 * le_word r
  end.

Definition pad (msg : list Z) : list Z :=
  let len := Z.of_nat (List.length msg) in
  let zeros := Z.to_nat ((55 - len) mod 64) in
  msg ++ [0x80] ++ List.repeat 0 zeros ++ le_bytes 8 ((8 * len) mod 2 ^ 64).

Fixpoint words (n : nat) (bs : list Z) : list Z :=
  match n with
  | O => []
  | S k => le_word (firstn 4 bs) :: words k (skipn 4 bs)
  end.

Record regs := Regs { rA : Z; rB : Z; rC : Z; rD : Z }.

Definition round (M : list Z) (r : regs) (i : nat) : regs :=
  let '(Regs A B C D) := r in
  let iz := Z.of_nat i in
  let '(F, g) :=
    if iz <? 16 then (Z.lor (Z.land B C) (Z.land (not32 B) D), iz)
    else if iz <? 32 then (Z.lor (Z.land D B) (Z.land (not32 D) C), (5 * iz + 1) mod 16)
    else if iz <? 48 then (Z.lxor (Z.lxor B C) D, (3 * iz + 5) mod 16)
    else (Z.lxor C (Z.lor B (not32 D)), (7 * iz) mod 16) in
  let F' := w32 (F + A + nth i K 0 + nth (Z.to_nat g) M 0) in
  Regs D (w32 (B + rotl F' (nth i shifts 0))) B C.

Definition block (r : regs) (chunk : list Z) : regs :=
  let M := words 16 chunk in
  let r' := fold_left (round M) (seq 0 64) r in
  Regs (w32 (rA r + rA r')) (w32 (rB r + rB r'))
       (w32 (rC r + rC r')) (w32 (rD r + rD r')).

Fixpoint blocks (n : nat) (r : regs) (bs : list Z) : regs :=
  match n with
  | O => r
  | S k => blocks k (block r (firstn 64 bs)) (skipn 64 bs)
  end.

Definition hex_digit (n : Z) : ascii :=
  if n <? 10 then ascii_of_nat (Z.to_nat (48 + n))
  else ascii_of_nat (Z.to_nat (87 + n)).

Fixpoint hex_of_bytes (bs : list Z) : string :=
  match bs with
  | [] => EmptyString
  | b :: r => String (hex_digit (b / 16)) (String (hex_digit (b mod 16)) (hex_of_bytes r))
  end.

Definition hexdigest (s : string) : string :=
  let p := pad (bytes_of s) in
  let r := blocks (List.length p / 64) (Regs 0x67452301 0xefcdab89 0x98badcfe 0x10325476) p in
  hex_of_bytes (le_bytes 4 (rA r) ++ le_bytes 4 (rB r) ++ le_bytes 4 (rC r) ++ le_bytes 4 (rD r)).

End MD5.

(** ** Exceptions *)

(** The subclasses of [Exception] the code can meet.  [TimeoutError] is
    [asyncio.TimeoutError], which the code catches on its own. *)
Inductive exn : Type :=
  | ValueError
  | TimeoutError
  | ClientError
  | OSError
  | KeyError.

Inductive Exc (A : Type) : Type :=
  | Ret (a : A)
  | Raise (e : exn).

Arguments Ret {A} a.
Arguments Raise {A} e.

Definition bind {A B : Type} (c : Exc A) (k : A -> Exc B) : Exc B :=
  match c with
  | Ret a => k a
  | Raise e => Raise e
  end.

(** [try: c  except Exception as e: h e] *)
Definition try_except {A : Type} (c : Exc A) (h : exn -> Exc A) : Exc A :=
  match c with
  | Ret a => Ret a
  | Raise e => h e
  end.

#[global] Instance Exc_ret : MRet Exc := @Ret.
#[global] Instance Exc_bind : MBind Exc := fun A B k c => bind c k.

(** ** The library functions the code calls *)

(** The six fields of [urllib.parse.ParseResult]. *)
Record ParseResult : Type := mkParse {
  scheme : string;
  netloc : string;
  path : string;
  params : string;
  query : string;
  fragment : string
}.

(** [urllib.parse] is not code of this repository: the embedding is
    parametric in it.  [urlparse] and [urljoin] raise [ValueError] on some
    inputs (an unbalanced bracket in the host, for one). *)
Class PyLib : Type := {
  urlparse : string -> Exc ParseResult;
  urljoin : string -> string -> Exc string;
  parse_qs : string -> Exc (gmap string (list string));
  (** [content.decode('utf-8', errors='ignore')] *)
  decode_utf8_ignore : string -> string
}.

(** ** [URLFilter] *)

Module URLFilter.

(** A pattern of [EXCLUDE_PATTERNS]: all are literal text but the last,
    [#$]. *)
Inductive pattern : Type :=
  | Literal (s : string)
  | HashAtEnd.

Definition EXCLUDE_PATTERNS : list pattern :=
  [ Literal "/login"; Literal "/signin"; Literal "/signup";
    Literal "/register"; Literal "/logout"; Literal "mailto:";
    Literal "tel:"; Literal "javascript:"; HashAtEnd ].

Definition DOWNLOAD_EXTENSIONS : list string :=
  [ ".pdf"; ".zip"; ".exe"; ".dmg"; ".msi";
    ".tar.gz"; ".rar"; ".doc"; ".docx"; ".xls"; ".xlsx" ].

Definition newline : string := String (ascii_of_nat 10) EmptyString.

Fixpoint endswith (s suffix : string) : bool :=
  if String.eqb s suffix then true
  else match s with
       | EmptyString => false
       | String _ t => endswith t suffix
       end.

(** [re.search(pattern, url, re.IGNORECASE)] as a truth value, for the
    patterns of [EXCLUDE_PATTERNS]; [$] matches at the end of the text and
    before a newline that ends it. *)
Definition re_search (p : pattern) (url : string) : bool :=
  match p with
  | Literal s => Py.contains (Py.lower s) (Py.lower url)
  | HashAtEnd => endswith url "#" || endswith url ("#" ++ newline)
  end.

Definition exclude_params : list string :=
  [ "download"; "login"; "logout"; "signin"; "signup" ].

Definition in_list (x : string) (l : list string) : bool :=
  existsb (String.eqb x) l.

Section WithLib.
Context `{PyLib}.

(** The body of the [try] of [should_scrape]. *)
Definition should_scrape_body (url base_domain : string) : Exc bool :=
  parsed ← urlparse url;
  base_parsed ← urlparse base_domain;
  if negb (String.eqb (netloc parsed) (netloc base_parsed)) then Ret false
  else
    let path := Py.lower (path parsed) in
    let ext := Py.splitext_ext path in
    if in_list ext DOWNLOAD_EXTENSIONS then Ret false
    else if existsb (fun p => re_search p url) EXCLUDE_PATTERNS then Ret false
    else
      query_params ← parse_qs (query parsed);
      if existsb (fun param => bool_decide (is_Some (query_params !! param)))
                 exclude_params
      then Ret false
      else Ret true.

(** [should_scrape]: the body under [except Exception], whose handler logs
    and returns [False]. *)
Definition should_scrape (url base_domain : string) : Exc bool :=
  try_except (should_scrape_body url base_domain) (fun _ => Ret false).

End WithLib.

(** [get_url_hash] *)
Definition get_url_hash (url : string) : string := MD5.hexdigest url.

End URLFilter.

(** ** The pattern of [rewrite_css_urls]

    [re.findall] with a pattern of the shape [OPEN Q? (G+) Q? CLOSE], where
    [OPEN] and [CLOSE] are literal text, [Q] is a single or a double quote
    and [G] is any character but a quote or a closing parenthesis: the
    group is greedy and gives characters back until the rest of the pattern
    matches; matches are taken from the left and do not overlap; the result
    lists the text of the group of each match. *)

Module CssPattern.

Definition dquote : string := String (ascii_of_nat 34) EmptyString.
Definition squote : string := "'".

Definition is_quote (a : ascii) : bool :=
  Ascii.eqb a "'" || Ascii.eqb a (ascii_of_nat 34).

(** The class [G] of the group. *)
Definition in_group (a : ascii) : bool :=
  negb (is_quote a || Ascii.eqb a ")").

(** A text that the group can match: not empty, every character in the
    class. *)
Fixpoint all_in_group (s : string) : bool :=
  match s with
  | EmptyString => true
  | String a t => in_group a && all_in_group t
  end.

Definition is_group (s : string) : bool :=
  negb (String.eqb s EmptyString) && all_in_group s.

(** [Q? CLOSE] at the head of [t]: the number of characters matched. *)
Definition tail_match (closer t : string) : option nat :=
  match t with
  | String q t' =>
      if is_quote q && String.prefix closer t' then Some (S (String.length closer))
      else if String.prefix closer t then Some (String.length closer)
      else None
  | EmptyString =>
      if String.prefix closer t then Some (String.length closer) else None
  end.

(** [(G+) Q? CLOSE] at the head of [s], longest group first: the group and
    the number of characters matched after it. *)
Fixpoint group_match (closer s : string) : option (string * nat) :=
  match s with
  | EmptyString => None
  | String a t =>
      if in_group a then
        match group_match closer t with
        | Some (g, n) => Some (String a g, n)
        | None =>
            match tail_match closer t with
            | Some n => Some (String a EmptyString, n)
            | None => None
            end
        end
      else None
  end.

(** The whole pattern at the head of [s]: the group and the length of the
    match. *)
Definition match_here (opener closer s : string) : option (string * nat) :=
  if String.prefix opener s then
    let r := Py.drop (String.length opener) s in
    let '(q, r') :=
      match r with
      | String a t => if is_quote a then (1, t) else (0, r)
      | EmptyString => (0, r)
      end in
    match group_match closer r' with
    | Some (g, n) => Some (g, String.length opener + q + String.length g + n)
    | None => None
    end
  else None.

Fixpoint findall_from (skip : nat) (opener closer s : string) : list string :=
  match s with
  | EmptyString => []
  | String _ t =>
      match skip with
      | S k => findall_from k opener closer t
      | O =>
          match match_here opener closer s with
          | Some (g, len) => g :: findall_from (len - 1) opener closer t
          | None => findall_from 0 opener closer t
          end
      end
  end.

Definition findall (opener closer s : string) : list string :=
  findall_from 0 opener closer s.

(** The literal text of [url_pattern] before the first character class
    and after the last one, as it stands in the source. *)
Definition url_pattern_open : string := "urlKATEX_INLINE_OPEN".
Definition url_pattern_close : string := "KATEX_INLINE_CLOSE".

End CssPattern.

(** ** The shared state of a run *)

(** The header sets of the three kinds of request, and the session of its
    own that [RobotsChecker.can_fetch] opens. *)
Inductive profile : Type :=
  | PageHeaders
  | AssetHeaders
  | MinimalHeaders
  | RobotsSession.

#[global] Instance profile_eq_dec : EqDecision profile.
Proof. solve_decision. Defined.

Record response : Type := mkResponse {
  status : Z;
  body : string;
  content_type : string;
  cookies : list (string * string)
}.

(** An entry of [scraped_data]; the time stamp is left out. *)
Record PageRecord : Type := mkPage {
  pr_url : string;
  pr_content_type : string;
  pr_filepath : option string;
  pr_depth : Z;
  pr_size : nat;
  pr_domain : string
}.

(** [ScraperStats], without its clock. *)
Record ScraperStats : Type := mkStats {
  st_pages_scraped : Z;
  st_pages_failed : Z;
  st_bytes_downloaded : Z;
  st_domain_counts : gmap string Z
}.

(** The arguments of [WebScraper.__init__] that the engine reads. *)
Record Config : Type := mkConfig {
  start_url : string;
  output_dir : string;
  max_workers : nat;
  max_depth : Z;
  max_pages : Z;
  pages_per_domain : Z;
  respect_robots : bool;
  skip_assets : bool
}.

(** [RobotFileParser] is a library class: its parser and its verdict are
    parameters. *)
Class RobotLib : Type := {
  robot_rules : Type;
  robots_parse : string -> robot_rules;
  robots_can_fetch : robot_rules -> string -> string -> bool
}.

(** An element of the parsed document, as the code sees it: its tag, its
    attributes and, for [style] elements, its [string]. *)
Record element : Type := mkElement {
  tag : string;
  attrs : list (string * string);
  text : option string
}.

(** [BeautifulSoup(html, 'lxml')] gives the elements in document order
    (the order of [find_all]); [str(soup)] writes them back. *)
Class SoupLib : Type := {
  bs_parse : string -> Exc (list element);
  bs_str : list element -> string
}.

(** ** Elements of a parsed document *)

Module Soup.

(** [element.get(name)] *)
Definition get_attr (e : element) (name : string) : option string :=
  snd <$> List.find (fun kv => String.eqb (fst kv) name) (attrs e).

(** [element.get(name)] where the code tests its truth: an attribute that
    is present and not empty. *)
Definition get_nonempty (e : element) (name : string) : option string :=
  match get_attr e name with
  | Some v => if String.eqb v "" then None else Some v
  | None => None
  end.

(** [element[name]], read where the attribute is known to be present. *)
Definition attr_value (e : element) (name : string) : string :=
  default "" (get_attr e name).

Fixpoint set_assoc (name v : string) (l : list (string * string))
    : list (string * string) :=
  match l with
  | [] => [(name, v)]
  | (k, x) :: r =>
      if String.eqb k name then (k, v) :: r else (k, x) :: set_assoc name v r
  end.

(** [element[name] = v] *)
Definition set_attr (e : element) (name v : string) : element :=
  mkElement (tag e) (set_assoc name v (attrs e)) (text e).

Definition set_text (e : element) (v : string) : element :=
  mkElement (tag e) (attrs e) (Some v).

(** The positions, in document order, of the elements that satisfy [p]:
    [soup.find_all(...)]. *)
Fixpoint find_from (i : nat) (p : element -> bool) (soup : list element)
    : list nat :=
  match soup with
  | [] => []
  | e :: r => if p e then i :: find_from (S i) p r else find_from (S i) p r
  end.

Definition find_all (tags : list string) (soup : list element) : list nat :=
  find_from 0 (fun e => URLFilter.in_list (tag e) tags) soup.

(** The words of a text: the value of [rel], which the parser holds as the
    list of its words. *)
Fixpoint words_from (cur s : string) : list string :=
  match s with
  | EmptyString => if String.eqb cur "" then [] else [cur]
  | String a t =>
      if Py.is_space a
      then if String.eqb cur "" then words_from "" t else cur :: words_from "" t
      else words_from (cur ++ String a EmptyString) t
  end.

Definition rel_words (e : element) : list string :=
  match get_attr e "rel" with
  | Some v => words_from "" v
  | None => []
  end.

(** [soup[i]] after an update of the element at [i]. *)
Definition update (soup : list element) (i : nat) (f : element -> element)
    : list element :=
  match soup !! i with
  | Some e => <[i := f e]> soup
  | None => soup
  end.

End Soup.

(** [f"{parsed.scheme}://{parsed.netloc}"]: the key of the cache of
    [RobotsChecker]. *)
Definition origin_of (p : ParseResult) : string :=
  scheme p ++ "://" ++ netloc p.

Section Engine.
Context `{PyLib} `{RobotLib} `{SoupLib}.
Variable cfg : Config.

(** The mutable fields of a [WebScraper], with the cache of its
    [RobotsChecker]. *)
Record Scraper : Type := mkScraper {
  visited_urls : gset string;
  scraped_data : gmap string PageRecord;
  asset_map : gmap string string;
  failed_assets : gset string;
  queue : list (string * Z);
  robots_cache : gmap string robot_rules;
  stats : ScraperStats;
  domain_counts : gmap string Z;
  domain_cookies : gmap string (list (string * string));
  pages_scraped_count : Z;
  should_stop : bool
}.

Definition init_scraper : Scraper :=
  {| visited_urls := ∅; scraped_data := ∅; asset_map := ∅;
     failed_assets := ∅; queue := []; robots_cache := ∅;
     stats := mkStats 0 0 0 ∅; domain_counts := ∅; domain_cookies := ∅;
     pages_scraped_count := 0; should_stop := false |}.

Definition set_visited_urls (v : gset string) (s : Scraper) : Scraper :=
  mkScraper v (scraped_data s) (asset_map s) (failed_assets s) (queue s)
    (robots_cache s) (stats s) (domain_counts s) (domain_cookies s)
    (pages_scraped_count s) (should_stop s).
Definition set_scraped_data (v : gmap string PageRecord) (s : Scraper) : Scraper :=
  mkScraper (visited_urls s) v (asset_map s) (failed_assets s) (queue s)
    (robots_cache s) (stats s) (domain_counts s) (domain_cookies s)
    (pages_scraped_count s) (should_stop s).
Definition set_asset_map (v : gmap string string) (s : Scraper) : Scraper :=
  mkScraper (visited_urls s) (scraped_data s) v (failed_assets s) (queue s)
    (robots_cache s) (stats s) (domain_counts s) (domain_cookies s)
    (pages_scraped_count s) (should_stop s).
Definition set_failed_assets (v : gset string) (s : Scraper) : Scraper :=
  mkScraper (visited_urls s) (scraped_data s) (asset_map s) v (queue s)
    (robots_cache s) (stats s) (domain_counts s) (domain_cookies s)
    (pages_scraped_count s) (should_stop s).
Definition set_queue (v : list (string * Z)) (s : Scraper) : Scraper :=
  mkScraper (visited_urls s) (scraped_data s) (asset_map s) (failed_assets s) v
    (robots_cache s) (stats s) (domain_counts s) (domain_cookies s)
    (pages_scraped_count s) (should_stop s).
Definition set_robots_cache (v : gmap string robot_rules) (s : Scraper) : Scraper :=
  mkScraper (visited_urls s) (scraped_data s) (asset_map s) (failed_assets s) (queue s)
    v (stats s) (domain_counts s) (domain_cookies s)
    (pages_scraped_count s) (should_stop s).
Definition set_stats (v : ScraperStats) (s : Scraper) : Scraper :=
  mkScraper (visited_urls s) (scraped_data s) (asset_map s) (failed_assets s) (queue s)
    (robots_cache s) v (domain_counts s) (domain_cookies s)
    (pages_scraped_count s) (should_stop s).
Definition set_domain_counts (v : gmap string Z) (s : Scraper) : Scraper :=
  mkScraper (visited_urls s) (scraped_data s) (asset_map s) (failed_assets s) (queue s)
    (robots_cache s) (stats s) v (domain_cookies s)
    (pages_scraped_count s) (should_stop s).
Definition set_domain_cookies (v : gmap string (list (string * string))) (s : Scraper) : Scraper :=
  mkScraper (visited_urls s) (scraped_data s) (asset_map s) (failed_assets s) (queue s)
    (robots_cache s) (stats s) (domain_counts s) v
    (pages_scraped_count s) (should_stop s).
Definition set_pages_scraped_count (v : Z) (s : Scraper) : Scraper :=
  mkScraper (visited_urls s) (scraped_data s) (asset_map s) (failed_assets s) (queue s)
    (robots_cache s) (stats s) (domain_counts s) (domain_cookies s)
    v (should_stop s).
Definition set_should_stop (v : bool) (s : Scraper) : Scraper :=
  mkScraper (visited_urls s) (scraped_data s) (asset_map s) (failed_assets s) (queue s)
    (robots_cache s) (stats s) (domain_counts s) (domain_cookies s)
    (pages_scraped_count s) v.

(** ** Coroutines

    A coroutine runs on the shared state up to its next suspension point,
    where it hands the state back and waits for an answer: the response to
    a GET ([session.get] with the reads of the body that follow it) or the
    outcome of writing a file ([aiofiles]).  Both can raise.  Between two
    suspension points no other task runs, as in asyncio. *)
Inductive Step (A : Type) : Type :=
  | Done (r : Exc A) (s : Scraper)
  | Get (p : profile) (url : string) (s : Scraper)
        (k : Exc response -> Scraper -> Step A)
  | WriteFile (path content : string) (s : Scraper)
        (k : Exc unit -> Scraper -> Step A).

Arguments Done {A} r s.
Arguments Get {A} p url s k.
Arguments WriteFile {A} path content s k.

Definition Task (A : Type) : Type := Scraper -> Step A.

Fixpoint step_bind {A B : Type} (t : Step A) (f : A -> Task B) : Step B :=
  match t with
  | Done (Ret a) s => f a s
  | Done (Raise e) s => Done (Raise e) s
  | Get p url s k => Get p url s (fun r s' => step_bind (k r s') f)
  | WriteFile pa c s k => WriteFile pa c s (fun r s' => step_bind (k r s') f)
  end.

Fixpoint step_catch {A : Type} (t : Step A) (h : exn -> Task A) : Step A :=
  match t with
  | Done (Ret a) s => Done (Ret a) s
  | Done (Raise e) s => h e s
  | Get p url s k => Get p url s (fun r s' => step_catch (k r s') h)
  | WriteFile pa c s k => WriteFile pa c s (fun r s' => step_catch (k r s') h)
  end.

Definition task_ret {A : Type} (a : A) : Task A := fun s => Done (Ret a) s.
Definition task_bind {A B : Type} (m : Task A) (f : A -> Task B) : Task B :=
  fun s => step_bind (m s) f.
(** [try: m  except Exception as e: h e] *)
Definition task_try {A : Type} (m : Task A) (h : exn -> Task A) : Task A :=
  fun s => step_catch (m s) h.
Definition task_raise {A : Type} (e : exn) : Task A := fun s => Done (Raise e) s.
(** A call of code that cannot suspend. *)
Definition lift {A : Type} (c : Exc A) : Task A := fun s => Done c s.
Definition read {A : Type} (f : Scraper -> A) : Task A := fun s => Done (Ret (f s)) s.
Definition modify (f : Scraper -> Scraper) : Task unit := fun s => Done (Ret tt) (f s).
(** [async with session.get(url, ...) as response] and the read of its body *)
Definition await_get (p : profile) (url : string) : Task response :=
  fun s => Get p url s (fun r s' => Done r s').
(** [async with aiofiles.open(path, ...) as f: await f.write(content)] *)
Definition await_write (path content : string) : Task unit :=
  fun s => WriteFile path content s (fun r s' => Done r s').

#[local] Instance Task_ret : MRet Task := @task_ret.
#[local] Instance Task_bind : MBind Task := fun A B f m => task_bind m f.

(** ** [WebScraper.get_asset_local_path] *)

Definition get_asset_local_path (url asset_type : string) : Exc string :=
  let url_hash := MD5.hexdigest url in
  parsed ← urlparse url;
  let parsed_path := path parsed in
  (* ext = os.path.splitext(parsed_path)[1] or '.bin' *)
  let ext := Py.splitext_ext parsed_path in
  let ext := if String.eqb ext "" then ".bin" else ext in
  let ext := if Py.contains "?" ext then hd "" (Py.split_on "?" ext) else ext in
  let ext :=
    if String.eqb ext "" || (10 <? String.length ext)%nat then
      if String.eqb asset_type "image" then ".jpg"
      else if String.eqb asset_type "css" then ".css"
      else if String.eqb asset_type "js" then ".js"
      else ".bin"
    else ext in
  let subdir :=
    if URLFilter.in_list asset_type ["image"; "img"] then "images"
    else if String.eqb asset_type "css" then "css"
    else if URLFilter.in_list asset_type ["js"; "javascript"] then "js"
    else if String.eqb asset_type "font" then "fonts"
    else if URLFilter.in_list asset_type ["video"; "audio"; "media"] then "media"
    else "assets" in
  Ret (subdir ++ "/" ++ url_hash ++ ext).

(** ** [WebScraper.download_asset]

    [apply_rate_limit] and the semaphore only delay the request; they are
    merged with the GET they precede, and the cookies sent with it are not
    part of the request as modelled. *)

(** [url.split('#')[0]]: the URL without its fragment. *)
Definition clean_of (url : string) : string := hd "" (Py.split_on "#" url).

(** A request made on behalf of an asset, to the URL [clean]. *)
Definition asset_request (clean : string) (x : profile * string) : Prop :=
  snd x = clean /\ (fst x = AssetHeaders \/ fst x = MinimalHeaders).

(** [self.failed_assets.add(url); return None] *)
Definition fail_asset (url : string) : Task (option string) :=
  modify (fun s => set_failed_assets ({[url]} ∪ failed_assets s) s);;
  mret None.

(** The branch of a 200 answer: the file is written, as text for [css] and
    [js] (as bytes when that raises) and as bytes otherwise, and the
    mapping is stored under the URL the caller gave. *)
Definition store_asset (url clean_url asset_type content : string)
    (as_text : bool) : Task (option string) :=
  local_path ← lift (get_asset_local_path clean_url asset_type);
  let full_path := output_dir cfg ++ "/" ++ local_path in
  (if as_text
   then task_try (await_write full_path (decode_utf8_ignore content))
                 (fun _ => await_write full_path content)
   else await_write full_path content);;
  modify (fun s => set_asset_map (<[url := local_path]> (asset_map s)) s);;
  mret (Some local_path).

Definition download_asset (url asset_type referer : string) : Task (option string) :=
  task_try
    (am ← read asset_map;
     match am !! url with
     | Some local_path => mret (Some local_path)
     | None =>
         fa ← read failed_assets;
         if bool_decide (url ∈ fa) then mret None
         else
           let clean_url := clean_of url in
           parsed ← lift (urlparse clean_url);
           let domain := netloc parsed in
           task_try
             (resp ← await_get AssetHeaders clean_url;
              if (status resp =? 200)%Z then
                store_asset url clean_url asset_type (body resp)
                  (URLFilter.in_list asset_type ["css"; "js"])
              else if (status resp =? 403)%Z then
                retry_response ← await_get MinimalHeaders clean_url;
                if (status retry_response =? 200)%Z then
                  store_asset url clean_url asset_type (body retry_response) false
                else fail_asset url
              else fail_asset url)
             (fun e => match e with
                       | TimeoutError => fail_asset url
                       | _ => task_raise e
                       end)
     end)
    (fun _ => fail_asset url).

(** ** [WebScraper.rewrite_css_urls] *)

(** [for x in l: acc = body(acc, x)] *)
Fixpoint for_each {A S : Type} (l : list A) (body : S -> A -> Task S) (acc : S)
    : Task S :=
  match l with
  | [] => mret acc
  | x :: r => acc' ← body acc x; for_each r body acc'
  end.

Definition css_asset_type (url : string) : string :=
  if Py.contains ".woff" url || Py.contains ".ttf" url
     || Py.contains ".eot" url || Py.contains ".otf" url
  then "font" else "image".

(** A reference in CSS text: [url(], the quote [q] if any, the URL, the
    quote again, [)]. *)
Definition css_token (q url : string) : string :=
  "url(" ++ q ++ url ++ q ++ ")".

(** The quote of the reference written for one read with the quote [q]:
    none for none, a double quote for either quote. *)
Definition quote_written (q : string) : string :=
  if String.eqb q "" then "" else CssPattern.dquote.

(** The three replacements made for a reference that was downloaded. *)
Definition css_substitute (css_content url relative_path : string) : string :=
  let css_content :=
    Py.replace css_content ("url(" ++ url ++ ")") ("url(" ++ relative_path ++ ")") in
  let css_content :=
    Py.replace css_content
      ("url(" ++ CssPattern.dquote ++ url ++ CssPattern.dquote ++ ")")
      ("url(" ++ CssPattern.dquote ++ relative_path ++ CssPattern.dquote ++ ")") in
  Py.replace css_content
    ("url(" ++ CssPattern.squote ++ url ++ CssPattern.squote ++ ")")
    ("url(" ++ CssPattern.dquote ++ relative_path ++ CssPattern.dquote ++ ")").

(** The body of the loop over the references found. *)
Definition rewrite_css_url (base_url css_content url : string) : Task string :=
  if Py.startswith url "data:" then mret css_content
  else
    absolute_url ← lift (urljoin base_url url);
    local_path ← download_asset absolute_url (css_asset_type url) base_url;
    match local_path with
    | Some local_path => mret (css_substitute css_content url ("../" ++ local_path))
    | None => mret css_content
    end.

Definition rewrite_css_urls (css_content base_url : string) : Task string :=
  let urls :=
    CssPattern.findall CssPattern.url_pattern_open CssPattern.url_pattern_close
      css_content in
  for_each urls (rewrite_css_url base_url) css_content.

(** ** [WebScraper.rewrite_html_urls] *)

(** An entry of [asset_tasks]; the element is held by its position. *)
Record asset_task : Type := mkTask {
  at_element : nat;
  at_attr : string;
  at_original : string;
  at_absolute : string;
  at_type : string
}.

(** [for x in l: tasks += body(x)], where [body] can raise. *)
Fixpoint gather {A B : Type} (l : list A) (body : A -> Exc (list B))
    : Exc (list B) :=
  match l with
  | [] => Ret []
  | x :: r => ys ← body x; zs ← gather r body; Ret (ys ++ zs)%list
  end.

(** The URL tokens of a [srcset] value: the text before the first space of
    each candidate, the empty ones dropped. *)
Definition srcset_urls (value : string) : list string :=
  List.filter (fun u => negb (String.eqb u ""))
    (List.map (fun part => hd "" (Py.split_on " " (Py.strip part)))
              (Py.split_on "," value)).

Definition image_attrs : list string :=
  [ "src"; "srcset"; "data-src"; "data-srcset"; "data-lazy-src" ].

Definition task_for (base_url : string) (i : nat) (attr asset_type url : string)
    : Exc (list asset_task) :=
  if Py.startswith url "data:" then Ret []
  else absolute_url ← urljoin base_url url;
       Ret [mkTask i attr url absolute_url asset_type].

Definition image_tasks (soup : list element) (base_url : string)
    : Exc (list asset_task) :=
  gather (Soup.find_all ["img"; "source"; "picture"] soup) (fun i =>
    match soup !! i with
    | None => Ret []
    | Some img =>
        gather image_attrs (fun attr =>
          match Soup.get_nonempty img attr with
          | None => Ret []
          | Some value =>
              let urls :=
                if Py.contains "srcset" attr then srcset_urls value else [value] in
              gather urls (fun url =>
                if String.eqb url "" then Ret []
                else task_for base_url i attr "image" url)
          end)
    end).

(** The loops over [link], [script] and the media elements: one attribute,
    read where [wanted] holds. *)
Definition simple_tasks (soup : list element) (base_url : string)
    (tags : list string) (wanted : element -> bool) (attr asset_type : string)
    : Exc (list asset_task) :=
  gather (Soup.find_all tags soup) (fun i =>
    match soup !! i with
    | None => Ret []
    | Some e =>
        if wanted e then
          match Soup.get_nonempty e attr with
          | Some url => task_for base_url i attr asset_type url
          | None => Ret []
          end
        else Ret []
    end).

Definition collect_asset_tasks (soup : list element) (base_url : string)
    : Exc (list asset_task) :=
  images ← image_tasks soup base_url;
  css ← simple_tasks soup base_url ["link"]
          (fun e => URLFilter.in_list "stylesheet" (Soup.rel_words e)) "href" "css";
  js ← simple_tasks soup base_url ["script"] (fun _ => true) "src" "js";
  fonts ← simple_tasks soup base_url ["link"]
          (fun e => existsb (Py.contains "font") (Soup.rel_words e)) "href" "font";
  media ← simple_tasks soup base_url ["video"; "audio"; "source"]
          (fun _ => true) "src" "media";
  Ret (images ++ css ++ js ++ fonts ++ media)%list.

(** The new value of a [srcset] attribute when [original_url] was
    downloaded to [relative_path]. *)
Definition srcset_candidate (original_url relative_path part : string)
    : string :=
  let part_items := Py.split_on " " (Py.strip part) in
  let part_items :=
    match part_items with
    | first :: rest =>
        if String.eqb first original_url then relative_path :: rest
        else part_items
    | [] => part_items
    end in
  Py.join " " part_items.

Definition srcset_replace (value original_url relative_path : string) : string :=
  Py.join ", "
    (List.map (srcset_candidate original_url relative_path)
              (Py.split_on "," value)).

Definition is_absolute_ref (url : string) : bool :=
  Py.startswith url "http://" || Py.startswith url "https://"
  || Py.startswith url "//".

(** The body of the loop that downloads the assets and updates the
    attributes. *)
Definition apply_asset_task (base_url : string) (soup : list element)
    (t : asset_task) : Task (list element) :=
  local_path ← download_asset (at_absolute t) (at_type t) base_url;
  match local_path with
  | Some local_path =>
      let relative_path := "../" ++ local_path in
      if Py.contains "srcset" (at_attr t) then
        mret (Soup.update soup (at_element t) (fun element =>
          Soup.set_attr element (at_attr t)
            (srcset_replace (Soup.attr_value element (at_attr t))
                            (at_original t) relative_path)))
      else
        mret (Soup.update soup (at_element t) (fun element =>
          Soup.set_attr element (at_attr t) relative_path))
  | None =>
      if negb (is_absolute_ref (at_original t)) then
        mret (Soup.update soup (at_element t) (fun element =>
          Soup.set_attr element (at_attr t) (at_absolute t)))
      else mret soup
  end.

Definition is_page_link (href : string) : bool :=
  negb (Py.startswith href "#" || Py.startswith href "javascript:"
        || Py.startswith href "mailto:" || Py.startswith href "tel:").

(** The body of the loop over the anchors. *)
Definition rewrite_anchor (base_url : string) (soup : list element) (i : nat)
    : Task (list element) :=
  match soup !! i with
  | None => mret soup
  | Some a =>
      let href := Soup.attr_value a "href" in
      if is_page_link href then
        absolute_url ← lift (urljoin base_url href);
        visited ← read visited_urls;
        if bool_decide (absolute_url ∈ visited) then
          mret (Soup.update soup i (fun a =>
            Soup.set_attr a "href" (URLFilter.get_url_hash absolute_url ++ ".html")))
        else
          mret (Soup.update soup i (fun a => Soup.set_attr a "href" absolute_url))
      else mret soup
  end.

Definition rewrite_style_tag (base_url : string) (soup : list element) (i : nat)
    : Task (list element) :=
  match soup !! i with
  | Some style =>
      match text style with
      | Some css =>
          if String.eqb css "" then mret soup
          else css' ← rewrite_css_urls css base_url;
               mret (Soup.update soup i (fun e => Soup.set_text e css'))
      | None => mret soup
      end
  | None => mret soup
  end.

Definition rewrite_style_attr (base_url : string) (soup : list element) (i : nat)
    : Task (list element) :=
  match soup !! i with
  | Some element =>
      css' ← rewrite_css_urls (Soup.attr_value element "style") base_url;
      mret (Soup.update soup i (fun e => Soup.set_attr e "style" css'))
  | None => mret soup
  end.

Definition rewrite_html_urls (html base_url : string) : Task string :=
  soup ← lift (bs_parse html);
  asset_tasks ← lift (collect_asset_tasks soup base_url);
  soup ← for_each (Soup.find_all ["style"] soup) (rewrite_style_tag base_url) soup;
  soup ← for_each
           (Soup.find_from 0 (fun e => bool_decide (is_Some (Soup.get_attr e "style"))) soup)
           (rewrite_style_attr base_url) soup;
  soup ← (if skip_assets cfg then mret soup
          else for_each asset_tasks (apply_asset_task base_url) soup);
  soup ← for_each
           (Soup.find_from 0
              (fun e => String.eqb (tag e) "a"
                        && bool_decide (is_Some (Soup.get_attr e "href"))) soup)
           (rewrite_anchor base_url) soup;
  mret (bs_str soup).

(** ** [RobotsChecker.can_fetch]

    The cache is filled only where the code reaches
    [self.robots_cache[base_url] = rp]; the two [return True] of the
    fetch leave before it. *)
Definition can_fetch (url user_agent : string) : Task bool :=
  task_try
    (parsed ← lift (urlparse url);
     let base_url := origin_of parsed in
     cache ← read robots_cache;
     cached ←
       (if bool_decide (is_Some (cache !! base_url)) then mret true
        else
          let robots_url := base_url ++ "/robots.txt" in
          rp ← task_try
                 (response ← await_get RobotsSession robots_url;
                  if (status response =? 200)%Z
                  then mret (Some (robots_parse (body response)))
                  else mret None)
                 (fun _ => mret None);
          match rp with
          | Some rp =>
              modify (fun s => set_robots_cache (<[base_url := rp]> (robots_cache s)) s);;
              mret true
          | None => mret false
          end);
     if cached : bool then
       cache ← read robots_cache;
       match cache !! base_url with
       | Some rp => mret (robots_can_fetch rp user_agent url)
       | None => task_raise KeyError
       end
     else mret true)
    (fun _ => mret true).

(** ** [WebScraper.fetch_page] *)

(** [self.stats.add_failed()] *)
Definition add_failed : Task unit :=
  modify (fun s =>
    let st := stats s in
    set_stats (mkStats (st_pages_scraped st) (st_pages_failed st + 1)
                       (st_bytes_downloaded st) (st_domain_counts st)) s).

Definition fetch_page (url : string)
    : Task (option (string * string * list (string * string))) :=
  task_try
    (allowed ← (if respect_robots cfg then can_fetch url "WebArchiver/1.0"
                else mret true);
     if negb allowed then mret None
     else
       parsed ← lift (urlparse url);
       let domain := netloc parsed in
       response ← await_get PageHeaders url;
       if (status response =? 200)%Z then
         (match cookies response with
          | [] => mret tt
          | c => modify (fun s =>
                   set_domain_cookies (<[domain := c]> (domain_cookies s)) s)
          end);;
         mret (Some (body response, content_type response, cookies response))
       else mret None)
    (fun _ => add_failed;; mret None).

(** ** [WebScraper.check_limits]

    [stop_lock] is never held across a suspension point, so taking it
    never suspends and the method runs in one piece. *)
Definition check_limits (url : string) : Task bool :=
  s ← read id;
  if (max_pages cfg <=? pages_scraped_count s)%Z then
    (if negb (should_stop s) then modify (set_should_stop true) else mret tt);;
    mret false
  else
    parsed ← lift (urlparse url);
    let domain := netloc parsed in
    let domain_count := default 0%Z (domain_counts s !! domain) in
    if (pages_per_domain cfg <=? domain_count)%Z then mret false
    else mret true.

(** ** [WebScraper.extract_urls] *)

(** [self.base_domain], computed by [__init__] from the start URL. *)
Definition base_domain : string :=
  match urlparse (start_url cfg) with
  | Ret p => scheme p ++ "://" ++ netloc p
  | Raise _ => ""
  end.

Definition set_add (x : string) (l : list string) : list string :=
  if URLFilter.in_list x l then l else (l ++ [x])%list.

(** The loop over the [a] and [area] elements; an exception ends it with
    the URLs found so far.  The set [urls] is held as a list without
    repetition. *)
Fixpoint extract_loop (base_url : string) (tags : list element)
    (urls : list string) : list string :=
  match tags with
  | [] => urls
  | t :: r =>
      match Soup.get_nonempty t "href" with
      | Some url =>
          match urljoin base_url url with
          | Ret absolute_url =>
              match URLFilter.should_scrape absolute_url base_domain with
              | Ret true => extract_loop base_url r (set_add absolute_url urls)
              | Ret false => extract_loop base_url r urls
              | Raise _ => urls
              end
          | Raise _ => urls
          end
      | None => extract_loop base_url r urls
      end
  end.

Definition extract_urls (html base_url : string) : list string :=
  match bs_parse html with
  | Ret soup =>
      extract_loop base_url
        (List.filter (fun e => URLFilter.in_list (tag e) ["a"; "area"]) soup) []
  | Raise _ => []
  end.

(** ** [WebScraper.save_page_content] *)

Definition page_filepath (url content_type : string) : string :=
  let url_hash := URLFilter.get_url_hash url in
  if Py.contains "html" content_type || Py.contains "text" content_type then
    output_dir cfg ++ "/html/" ++ url_hash ++ ".html"
  else
    let ext := if Py.contains "json" content_type then ".json"
               else if Py.contains "xml" content_type then ".xml"
               else ".txt" in
    output_dir cfg ++ "/html/" ++ url_hash ++ ext.

Definition save_page_content (url content content_type : string)
    : Task (option string) :=
  task_try
    (let filepath := page_filepath url content_type in
     await_write filepath content;;
     mret (Some filepath))
    (fun _ => mret None).

(** ** [WebScraper.process_url] *)

(** [self.stats.add_page(url, size)] *)
Definition add_page (url : string) (size : nat) : Task unit :=
  parsed ← lift (urlparse url);
  let domain := netloc parsed in
  modify (fun s =>
    let st := stats s in
    set_stats (mkStats (st_pages_scraped st + 1) (st_pages_failed st)
                 (st_bytes_downloaded st + Z.of_nat size)
                 (<[domain := (default 0 (st_domain_counts st !! domain) + 1)%Z]>
                    (st_domain_counts st))) s).

(** The block under [stop_lock] that counts the page. *)
Definition count_page (s : Scraper) : Scraper :=
  let s := set_pages_scraped_count (pages_scraped_count s + 1) s in
  if (max_pages cfg <=? pages_scraped_count s)%Z then set_should_stop true s
  else s.

(** [await self.queue.put(...)] on a queue without bound does not
    suspend. *)
Definition enqueue_new (depth : Z) (_ : unit) (new_url : string) : Task unit :=
  s ← read id;
  if negb (bool_decide (new_url ∈ visited_urls s)) && negb (should_stop s) then
    modify (fun s => set_queue (queue s ++ [(new_url, (depth + 1)%Z)])%list s)
  else mret tt.

Definition process_url (url : string) (depth : Z) : Task unit :=
  stop ← read should_stop;
  if stop : bool then mret tt
  else
    visited ← read visited_urls;
    if bool_decide (url ∈ visited) || (max_depth cfg <? depth)%Z then mret tt
    else
      within ← check_limits url;
      if negb within then mret tt
      else
        modify (fun s => set_visited_urls ({[url]} ∪ visited_urls s) s);;
        result ← fetch_page url;
        match result with
        | None => mret tt
        | Some (content, content_type, cookies) =>
            modify count_page;;
            parsed ← lift (urlparse url);
            let domain := netloc parsed in
            modify (fun s =>
              set_domain_counts
                (<[domain := (default 0 (domain_counts s !! domain) + 1)%Z]>
                   (domain_counts s)) s);;
            (match cookies with
             | [] => mret tt
             | c => modify (fun s =>
                      set_domain_cookies (<[domain := c]> (domain_cookies s)) s)
             end);;
            add_page url (String.length content);;
            content ← (if Py.contains "html" content_type
                       then rewrite_html_urls content url
                       else mret content);
            filepath ← save_page_content url content content_type;
            modify (fun s =>
              set_scraped_data
                (<[url := mkPage url content_type filepath depth
                            (String.length content) domain]>
                   (scraped_data s)) s);;
            stop ← read should_stop;
            if Py.contains "html" content_type && negb stop then
              for_each (extract_urls content url) (enqueue_new depth) tt
            else mret tt
        end.

(** ** The world outside the process *)

(** The requests issued so far, in order, and the files on disk. *)
Record World : Type := mkWorld {
  http_log : list (profile * string);
  disk : gmap string string
}.

Definition log_request (w : World) (p : profile) (url : string) : World :=
  mkWorld (http_log w ++ [(p, url)])%list (disk w).

(** A write that returned leaves the file; one that raised leaves the disk
    as it was. *)
Definition record_write (w : World) (path content : string) (r : Exc unit)
    : World :=
  match r with
  | Ret _ => mkWorld (http_log w) (<[path := content]> (disk w))
  | Raise _ => w
  end.

(** The state a coroutine hands back when it first suspends or ends, and
    whether it suspends. *)
Definition handed_back {A : Type} (t : Step A) : Scraper :=
  match t with
  | Done _ s => s
  | Get _ _ s _ => s
  | WriteFile _ _ s _ => s
  end.

Definition suspended {A : Type} (t : Step A) : bool :=
  match t with
  | Done _ _ => false
  | _ => true
  end.

(** *** One task at a time *)

(** What the servers answer, given the requests made before, and whether a
    write succeeds, given the disk. *)
Record Env : Type := mkEnv {
  env_get : list (profile * string) -> profile -> string -> Exc response;
  env_write : gmap string string -> string -> string -> Exc unit
}.

(** A coroutine run to its end with nothing else running: the state it
    handed back at a suspension point is the state it finds again. *)
Fixpoint run {A : Type} (env : Env) (t : Step A) (w : World)
    : Exc A * Scraper * World :=
  match t with
  | Done r s => (r, s, w)
  | Get p url s k =>
      run env (k (env_get env (http_log w) p url) s) (log_request w p url)
  | WriteFile pa c s k =>
      let r := env_write env (disk w) pa c in
      run env (k r s) (record_write w pa c r)
  end.

(** *** The workers of [run]

    A worker is between two items of the queue, or suspended inside
    [process_url]. *)
Inductive worker : Type :=
  | Idle
  | Waiting (t : Step unit).

Record Sys : Type := mkSys {
  shared : Scraper;
  world : World;
  workers : list worker
}.

(** Worker [i] has run up to [t]: the state becomes the shared one, a GET
    is issued where [t] waits for one, and after [process_url] the worker
    is back at the head of its loop (an exception is logged there). *)
Definition settle (sys : Sys) (i : nat) (t : Step unit) : Sys :=
  match t with
  | Done _ s => mkSys s (world sys) (<[i := Idle]> (workers sys))
  | Get p url s _ =>
      mkSys s (log_request (world sys) p url) (<[i := Waiting t]> (workers sys))
  | WriteFile _ _ s _ =>
      mkSys s (world sys) (<[i := Waiting t]> (workers sys))
  end.

Inductive sys_step (sys : Sys) : Sys -> Prop :=
  (** [queue.get()] and the call of [process_url], up to its first
      suspension point *)
  | step_take i url depth q :
      workers sys !! i = Some Idle ->
      should_stop (shared sys) = false ->
      queue (shared sys) = (url, depth) :: q ->
      sys_step sys
        (settle sys i (process_url url depth (set_queue q (shared sys))))
  (** the monitor, or a worker that finds the signal set, drops an item *)
  | step_drop url depth q :
      should_stop (shared sys) = true ->
      queue (shared sys) = (url, depth) :: q ->
      sys_step sys (mkSys (set_queue q (shared sys)) (world sys) (workers sys))
  (** a GET is answered, or raises *)
  | step_response i p url s0 k r :
      workers sys !! i = Some (Waiting (Get p url s0 k)) ->
      sys_step sys (settle sys i (k r (shared sys)))
  (** a write returns, or raises *)
  | step_written i pa c s0 k r :
      workers sys !! i = Some (Waiting (WriteFile pa c s0 k)) ->
      sys_step
        sys
        (settle (mkSys (shared sys) (record_write (world sys) pa c r) (workers sys))
                i (k r (shared sys))).

Definition init_sys : Sys :=
  mkSys (set_queue [(start_url cfg, 0%Z)] init_scraper)
        (mkWorld [] ∅)
        (List.repeat Idle (max_workers cfg)).

Inductive reachable : Sys -> Prop :=
  | reach_init : reachable init_sys
  | reach_step sys sys' : reachable sys -> sys_step sys sys' -> reachable sys'.

(** *** Schedules

    The steps as a function: an action names the worker that moves and
    gives the answer of the outside, where there is one. *)
Inductive action : Type :=
  | Take (i : nat)
  | Drop
  | Respond (i : nat) (r : Exc response)
  | Written (i : nat) (r : Exc unit).

Definition perform (sys : Sys) (a : action) : option Sys :=
  match a with
  | Take i =>
      match workers sys !! i, should_stop (shared sys), queue (shared sys) with
      | Some Idle, false, (url, depth) :: q =>
          Some (settle sys i (process_url url depth (set_queue q (shared sys))))
      | _, _, _ => None
      end
  | Drop =>
      match should_stop (shared sys), queue (shared sys) with
      | true, _ :: q =>
          Some (mkSys (set_queue q (shared sys)) (world sys) (workers sys))
      | _, _ => None
      end
  | Respond i r =>
      match workers sys !! i with
      | Some (Waiting (Get _ _ _ k)) => Some (settle sys i (k r (shared sys)))
      | _ => None
      end
  | Written i r =>
      match workers sys !! i with
      | Some (Waiting (WriteFile pa c _ k)) =>
          Some (settle
                  (mkSys (shared sys) (record_write (world sys) pa c r) (workers sys))
                  i (k r (shared sys)))
      | _ => None
      end
  end.

Fixpoint perform_all (sys : Sys) (l : list action) : option Sys :=
  match l with
  | [] => Some sys
  | a :: r =>
      match perform sys a with
      | Some sys' => perform_all sys' r
      | None => None
      end
  end.

(** The number of GETs issued for [url] with the headers [p]. *)
Definition count_requests (w : World) (p : profile) (url : string) : nat :=
  List.length
    (List.filter
       (fun r => bool_decide (fst r = p) && String.eqb (snd r) url)
       (http_log w)).

(** A single worker, as [worker] runs when [max_workers] is 1: items are
    taken from the queue while the signal is not set, each processed to
    its end. *)
Fixpoint crawl (fuel : nat) (env : Env) (s : Scraper) (w : World)
    : Scraper * World :=
  match fuel with
  | O => (s, w)
  | S n =>
      if should_stop s then (s, w)
      else match queue s with
           | [] => (s, w)
           | (url, depth) :: q =>
               let '(_, s', w') :=
                 run env (process_url url depth (set_queue q s)) w in
               crawl n env s' w'
           end
  end.

End Engine.

Arguments Done {_ A} r s.
Arguments Get {_ A} p url s k.
Arguments WriteFile {_ A} path content s k.

#[global] Existing Instances Task_ret Task_bind.

(** ** Invariants of the workers

    [wpI I t w Q]: the coroutine [t], started in the world [w], hands back
    a state that satisfies [I] at every suspension point and ends in [Q],
    when every state and world it is resumed in satisfy [I].  The other
    workers may do anything that keeps [I]. *)

Section Invariant.
Context `{RobotLib}.
Variable I : Scraper -> World -> Prop.

Fixpoint wpI {A : Type} (t : Step A) (w : World)
    (Q : Exc A -> Scraper -> World -> Prop) : Prop :=
  match t with
  | Done r s => Q r s w
  | Get p url s k =>
      I s (log_request w p url)
      /\ forall r s' w', I s' w' -> wpI (k r s') w' Q
  | WriteFile pa c s k =>
      I s w
      /\ forall r s' w', I s' w' -> wpI (k r s') (record_write w' pa c r) Q
  end.

(** A task that keeps [I]. *)
Definition keeps {A : Type} (m : Task A) : Prop :=
  forall s w, I s w -> wpI (m s) w (fun _ s' w' => I s' w').

(** What is known of a worker that waits. *)
Definition waiting_ok (wk : worker) : Prop :=
  match wk with
  | Idle => True
  | Waiting (Done _ _) => True
  | Waiting (Get _ _ _ k) =>
      forall r s' w', I s' w' -> wpI (k r s') w' (fun _ s w => I s w)
  | Waiting (WriteFile pa c _ k) =>
      forall r s' w', I s' w' ->
        wpI (k r s') (record_write w' pa c r) (fun _ s w => I s w)
  end.

Definition sys_ok (sys : Sys) : Prop :=
  I (shared sys) (world sys) /\ Forall waiting_ok (workers sys).

End Invariant.

(** ** Who may still request a page

    [quiet t]: the task [t] requests no page, whatever it is answered.
    [owes u t]: [t] requests at most one page, the page [u], and is quiet
    after that request.  [above V t]: [t] hands the shared state back with
    [visited_urls] above [V], and above what it is resumed with each time
    it waits. *)

Section Ownership.
Context `{RobotLib}.

Fixpoint quiet {A : Type} (t : Step A) : Prop :=
  match t with
  | Done _ _ => True
  | Get p _ _ k => p <> PageHeaders /\ forall r s', quiet (k r s')
  | WriteFile _ _ _ k => forall r s', quiet (k r s')
  end.

Fixpoint owes {A : Type} (u : string) (t : Step A) : Prop :=
  match t with
  | Done _ _ => True
  | Get p url _ k =>
      (p = PageHeaders -> url = u /\ forall r s', quiet (k r s'))
      /\ (p <> PageHeaders -> forall r s', owes u (k r s'))
  | WriteFile _ _ _ k => forall r s', owes u (k r s')
  end.

Definition quietT {A : Type} (m : Task A) : Prop := forall s, quiet (m s).
Definition owesT {A : Type} (u : string) (m : Task A) : Prop :=
  forall s, owes u (m s).

Fixpoint above {A : Type} (V : gset string) (t : Step A) : Prop :=
  V ⊆ visited_urls (handed_back t)
  /\ match t with
     | Done _ _ => True
     | Get _ _ _ k => forall r s', above (visited_urls s') (k r s')
     | WriteFile _ _ _ k => forall r s', above (visited_urls s') (k r s')
     end.

Definition aboveT {A : Type} (m : Task A) : Prop :=
  forall s, above (visited_urls s) (m s).

(** The URLs of the page requests of a log, in order. *)
Definition page_urls (l : list (profile * string)) : list string :=
  omap (fun x => if decide (fst x = PageHeaders) then Some (snd x) else None) l.

(** What a worker may still request: the page it owns, if it owns one. *)
Definition obl (o : option string) (t : Step unit) : Prop :=
  match o with
  | Some u => owes u t
  | None => quiet t
  end.

Definition cont_ok (o : option string) (wk : worker) : Prop :=
  match wk with
  | Idle => o = None
  | Waiting (Done _ _) => o = None
  | Waiting (Get p _ _ k) =>
      (forall r s', above (visited_urls s') (k r s'))
      /\ if decide (p = PageHeaders)
         then o = None /\ forall r s', quiet (k r s')
         else forall r s', obl o (k r s')
  | Waiting (WriteFile _ _ _ k) =>
      (forall r s', above (visited_urls s') (k r s'))
      /\ forall r s', obl o (k r s')
  end.

Definition once_inv (sys : Sys) : Prop :=
  exists owners : list (option string),
    Forall2 cont_ok owners (workers sys)
    /\ NoDup (page_urls (http_log (world sys)) ++ omap id owners)%list
    /\ forall u, u ∈ (page_urls (http_log (world sys)) ++ omap id owners)%list ->
                 u ∈ visited_urls (shared sys).

End Ownership.

(** Every record of [scraped_data] that names a file names one that is on
    disk. *)
Definition paths_exist `{RobotLib} (s : Scraper) (w : World) : Prop :=
  forall u rec p,
    scraped_data s !! u = Some rec ->
    pr_filepath rec = Some p ->
    is_Some (disk w !! p).

(** ** A model of the library, to run the code on given inputs

    [urlsplit] and [urlparse] follow CPython's [urllib.parse] on ASCII
    text: leading control characters and spaces are dropped, tabs and line
    breaks removed, then the scheme, the network location (up to the first
    slash, question mark or hash), the fragment, the query and the
    parameters of the last path segment are split off.  A bracket without
    its partner in the network location raises [ValueError]. *)

Module UrlLib.

Definition is_c0_or_space (a : ascii) : bool := (nat_of_ascii a <=? 32)%nat.

Fixpoint lstrip_c0 (s : string) : string :=
  match s with
  | String a t => if is_c0_or_space a then lstrip_c0 t else s
  | EmptyString => EmptyString
  end.

Fixpoint remove_unsafe (s : string) : string :=
  match s with
  | EmptyString => EmptyString
  | String a t =>
      let n := nat_of_ascii a in
      if ((n =? 9) || (n =? 10) || (n =? 13))%nat then remove_unsafe t
      else String a (remove_unsafe t)
  end.

(** [s.split(c, 1)] when [c] occurs in [s] *)
Fixpoint split_first (c : ascii) (s : string) : option (string * string) :=
  match s with
  | EmptyString => None
  | String a t =>
      if Ascii.eqb a c then Some (EmptyString, t)
      else match split_first c t with
           | Some (l, r) => Some (String a l, r)
           | None => None
           end
  end.

Definition is_alpha (a : ascii) : bool :=
  let n := nat_of_ascii a in
  ((65 <=? n) && (n <=? 90) || (97 <=? n) && (n <=? 122))%nat.

Definition is_scheme_char (a : ascii) : bool :=
  let n := nat_of_ascii a in
  is_alpha a || ((48 <=? n) && (n <=? 57))%nat
  || Ascii.eqb a "+" || Ascii.eqb a "-" || Ascii.eqb a ".".

Fixpoint all_chars (p : ascii -> bool) (s : string) : bool :=
  match s with
  | EmptyString => true
  | String a t => p a && all_chars p t
  end.

Definition split_scheme (url : string) : string * string :=
  match split_first ":" url with
  | Some (String a pre, post) =>
      if is_alpha a && all_chars is_scheme_char pre
      then (Py.lower (String a pre), post)
      else (EmptyString, url)
  | _ => (EmptyString, url)
  end.

(** The text up to the first of [/], [?] and [#], and the rest. *)
Fixpoint split_netloc (s : string) : string * string :=
  match s with
  | EmptyString => (EmptyString, EmptyString)
  | String a t =>
      if Ascii.eqb a "/" || Ascii.eqb a "?" || Ascii.eqb a "#"
      then (EmptyString, s)
      else let '(n, r) := split_netloc t in (String a n, r)
  end.

Definition cut (c : ascii) (s : string) : string * string :=
  match split_first c s with
  | Some (l, r) => (l, r)
  | None => (s, EmptyString)
  end.

Definition uses_params : list string :=
  [ ""; "ftp"; "hdl"; "prospero"; "http"; "imap"; "https"; "shttp";
    "rtsp"; "rtspu"; "sip"; "sips"; "mms"; "sftp"; "tel" ].

(** The last [/] of [s] and what precedes it, and what follows it. *)
Definition split_last_slash (s : string) : string * string :=
  let parts := Py.split_on "/" s in
  match parts with
  | [_] => (EmptyString, s)
  | _ => (Py.join "/" (removelast parts) ++ "/", List.last parts EmptyString)
  end.

Definition urlparse (url : string) : Exc ParseResult :=
  let url := remove_unsafe (lstrip_c0 url) in
  let '(sch, url) := split_scheme url in
  let '(net, url) :=
    if String.prefix "//" url then split_netloc (Py.drop 2 url)
    else (EmptyString, url) in
  if xorb (Py.contains "[" net) (Py.contains "]" net) then Raise ValueError
  else
    let '(url, frag) := cut "#" url in
    let '(url, qry) := cut "?" url in
    let '(pth, prm) :=
      if URLFilter.in_list sch uses_params then
        let '(dir, base) := split_last_slash url in
        match split_first ";" base with
        | Some (b, p) => (dir ++ b, p)
        | None => (url, EmptyString)
        end
      else (url, EmptyString) in
    Ret (mkParse sch net pth prm qry frag).

(** [urljoin] for an absolute URL, a reference that begins with [//] or
    [/], an empty reference, and a relative path without dot segments
    (these would have to be resolved). *)
Definition urljoin (base url : string) : Exc string :=
  if String.eqb url "" then Ret base
  else
    match urlparse base, urlparse url with
    | Ret b, Ret u =>
        if negb (String.eqb (scheme u) "") then Ret url
        else if String.prefix "//" url then Ret (scheme b ++ ":" ++ url)
        else if String.prefix "/" url then
          Ret (scheme b ++ "://" ++ netloc b ++ url)
        else
          let '(dir, _) := split_last_slash (path b) in
          let dir := if String.eqb dir "" then "/" else dir in
          Ret (scheme b ++ "://" ++ netloc b ++ dir ++ url)
    | Raise e, _ => Raise e
    | _, Raise e => Raise e
    end.

(** [parse_qs] on keys and values without escapes: the fields are split
    at [&]; a field without [=] or with nothing after it is dropped. *)
Definition parse_qs (qs : string) : Exc (gmap string (list string)) :=
  Ret (fold_left
         (fun (m : gmap string (list string)) field =>
            match split_first "=" field with
            | Some (name, value) =>
                if String.eqb value "" then m
                else <[name := (default [] (m !! name) ++ [value])%list]> m
            | None => m
            end)
         (Py.split_on "&" qs) ∅).

Definition lib : PyLib :=
  Build_PyLib urlparse urljoin parse_qs (fun s => s).

End UrlLib.

(** Documents of a plain shape, a sequence of [<tag k='v' ...>text</tag>],
    written and read back: enough of a parser to run the code on the
    pages of the scenarios. *)

Module MiniSoup.

Fixpoint take_until (stop : ascii -> bool) (s : string) : string * string :=
  match s with
  | EmptyString => (EmptyString, EmptyString)
  | String a t =>
      if stop a then (EmptyString, s)
      else let '(l, r) := take_until stop t in (String a l, r)
  end.

Definition write_attr (kv : string * string) : string :=
  " " ++ fst kv ++ "='" ++ snd kv ++ "'".

Definition write_element (e : element) : string :=
  "<" ++ tag e ++ String.concat "" (List.map write_attr (attrs e)) ++ ">"
  ++ default "" (text e) ++ "</" ++ tag e ++ ">".

Definition write (soup : list element) : string :=
  String.concat "" (List.map write_element soup).

(** The attributes up to the [>] that closes the tag, and the rest. *)
Fixpoint read_attrs (fuel : nat) (s : string) : list (string * string) * string :=
  match fuel with
  | O => ([], s)
  | S n =>
      match Py.lstrip s with
      | EmptyString => ([], EmptyString)
      | String a t =>
          if Ascii.eqb a ">" then ([], t)
          else
            let '(name, r) := take_until (Ascii.eqb "=") (String a t) in
            let '(value, r) := take_until (Ascii.eqb "'") (Py.drop 2 r) in
            let '(more, r) := read_attrs n (Py.drop 1 r) in
            ((name, value) :: more, r)
      end
  end.

Fixpoint read (fuel : nat) (s : string) : list element :=
  match fuel with
  | O => []
  | S n =>
      match s with
      | String "<" t =>
          let '(name, r) :=
            take_until (fun a => Py.is_space a || Ascii.eqb a ">") t in
          let '(ats, r) := read_attrs (String.length r) r in
          let '(txt, r) := take_until (Ascii.eqb "<") r in
          let '(_, r) := take_until (Ascii.eqb ">") r in
          mkElement name ats (if String.eqb txt "" then None else Some txt)
          :: read n (Py.drop 1 r)
      | _ => []
      end
  end.

Definition lib : SoupLib :=
  Build_SoupLib (fun html => Ret (read (String.length html) html)) write.

End MiniSoup.

(** A robots file held as the paths of its [Disallow] lines, which bind
    every agent: a URL may be fetched when its path begins with none of
    them. *)

Module MiniRobots.

Definition newline : ascii := ascii_of_nat 10.

Definition parse (content : string) : list string :=
  List.filter (fun p => negb (String.eqb p ""))
    (List.map (fun line =>
       if String.prefix "Disallow:" line
       then Py.strip (Py.drop 9 line) else "")
     (Py.split_on newline content)).

Definition can_fetch (rules : list string) (agent url : string) : bool :=
  match UrlLib.urlparse url with
  | Ret p =>
      let pth := if String.eqb (path p) "" then "/" else path p in
      negb (existsb (fun r => String.prefix r pth) rules)
  | Raise _ => true
  end.

Definition lib : RobotLib := Build_RobotLib (list string) parse can_fetch.

End MiniRobots.

(** ** Scenarios *)

(** A site [http://h] and what it serves; writes succeed unless said
    otherwise. *)
Module Site.

Definition ok (content ctype : string) : Exc response :=
  Ret (mkResponse 200 content ctype []).

Definition not_found : Exc response := Ret (mkResponse 404 "" "" []).

Definition writes_ok : gmap string string -> string -> string -> Exc unit :=
  fun _ _ _ => Ret tt.

Definition no_world : World := mkWorld [] ∅.

(** One worker, the limits of the defaults. *)
Definition cfg : Config :=
  mkConfig "http://h/a" "out" 1 3 100 50 true false.

(** No [robots.txt]: the server answers 404 to every request. *)
Definition env_404 : Env := mkEnv (fun _ _ _ => not_found) writes_ok.

(** A [robots.txt] that closes [/private]. *)
Definition robots_txt : string :=
  "User-agent: *" ++ String MiniRobots.newline "Disallow: /private".

(** Every asset is served. *)
Definition env_assets : Env :=
  mkEnv (fun _ p _ =>
           match p with
           | AssetHeaders => ok "bytes" "image/png"
           | _ => not_found
           end) writes_ok.

Definition env_robots : Env :=
  mkEnv (fun _ p _ =>
           match p with
           | RobotsSession => ok robots_txt "text/plain"
           | _ => not_found
           end) writes_ok.

(** Scenario S6: the seed links to [/private], which [robots.txt]
    closes. *)
Definition private_html : string := "<a href='/private'>x</a>".

Definition env_private : Env :=
  mkEnv (fun _ p url =>
           match p with
           | RobotsSession => ok robots_txt "text/plain"
           | PageHeaders =>
               if String.eqb url "http://h/a" then ok private_html "text/html"
               else not_found
           | _ => not_found
           end) writes_ok.

(** A page with an image in two resolutions; the server has only the
    second. *)
Definition srcset_html : string := "<img srcset='a.png 1x, b.png 2x'></img>".

Definition env_srcset : Env :=
  mkEnv (fun _ p url =>
           match p with
           | AssetHeaders =>
               if String.eqb url "http://h/b.png" then ok "bytes" "image/png"
               else not_found
           | _ => not_found
           end) writes_ok.

(** The same page where the server has both images. *)
Definition env_srcset_both : Env :=
  mkEnv (fun _ p url =>
           match p with
           | AssetHeaders => ok "bytes" "image/png"
           | _ => not_found
           end) writes_ok.

(** A page of plain text that cannot be written to disk. *)
Definition env_disk_full : Env :=
  mkEnv (fun _ p _ =>
           match p with
           | PageHeaders => ok "hello" "text/plain"
           | _ => not_found
           end)
        (fun _ _ _ => Raise OSError).

(** One worker stores the seed page. *)
Definition schedule_seed : list action :=
  [ Take 0; Respond 0 (ok private_html "text/html"); Written 0 (Ret tt) ].

(** A seed page with links to [/b] and [/c]. *)
Definition seed_html : string := "<a href='/b'>b</a><a href='/c'>c</a>".

(** A page that shows the logo of the site. *)
Definition logo_html : string := "<img src='/logo.png'></img>".

(** A page that shows the logo of the site; the logo can be written to
    disk, the files of the pages cannot. *)
Definition env_html_unwritten : Env :=
  mkEnv (fun _ p _ =>
           match p with
           | PageHeaders => ok logo_html "text/html"
           | AssetHeaders => ok "bytes" "image/png"
           | _ => not_found
           end)
        (fun _ path _ =>
           if Py.contains "/html/" path then Raise OSError else Ret tt).

(** Two workers and a cap of two pages; robots are not asked. *)
Definition cfg_cap : Config :=
  mkConfig "http://h/a" "out" 2 3 2 50 false false.

(** The cap is passed: both workers are let in at one page stored, and
    both count their page. *)
Definition schedule_cap : list action :=
  [ Take 0; Respond 0 (ok seed_html "text/html"); Written 0 (Ret tt);
    Take 0; Take 1;
    Respond 0 (ok "b" "text/plain"); Respond 1 (ok "c" "text/plain");
    Written 0 (Ret tt); Written 1 (Ret tt) ].

(** Two workers, no cap in reach. *)
Definition cfg_two : Config :=
  mkConfig "http://h/a" "out" 2 3 100 50 false false.

(** Both workers reach the logo before either has its answer. *)
Definition schedule_logo : list action :=
  [ Take 0; Respond 0 (ok seed_html "text/html"); Written 0 (Ret tt);
    Take 0; Take 1;
    Respond 0 (ok logo_html "text/html"); Respond 1 (ok logo_html "text/html") ].

End Site.

(** ** More of [URLFilter], and the directories of a run *)

Definition IMAGE_EXTENSIONS : list string :=
  [ ".jpg"; ".jpeg"; ".png"; ".gif"; ".webp";
    ".svg"; ".ico"; ".bmp"; ".avif"; ".webm" ].

(** [URLFilter.is_asset_url]; it has no [try] of its own. *)
Definition is_asset_url `{PyLib} (url : string) : Exc (option string) :=
  parsed ← urlparse url;
  let path := Py.lower (path parsed) in
  let ext := Py.splitext_ext path in
  if URLFilter.in_list ext IMAGE_EXTENSIONS then Ret (Some "image")
  else if String.eqb ext ".css" then Ret (Some "css")
  else if URLFilter.in_list ext [".js"; ".mjs"] then Ret (Some "js")
  else if URLFilter.in_list ext [".woff"; ".woff2"; ".ttf"; ".eot"; ".otf"]
  then Ret (Some "font")
  else if URLFilter.in_list ext [".mp4"; ".webm"; ".ogg"; ".mp3"; ".wav"]
  then Ret (Some "media")
  else Ret None.

(** The directories that [WebScraper.__init__] creates. *)
Definition init_directories (cfg : Config) : list string :=
  [ output_dir cfg;
    output_dir cfg ++ "/html";
    output_dir cfg ++ "/assets";
    output_dir cfg ++ "/css";
    output_dir cfg ++ "/js";
    output_dir cfg ++ "/images";
    output_dir cfg ++ "/fonts";
    output_dir cfg ++ "/media" ].

Definition is_hex_digit (a : ascii) : bool :=
  Py.has_char a "0123456789abcdef".

Fixpoint all_hex (s : string) : bool :=
  match s with
  | EmptyString => true
  | String a t => is_hex_digit a && all_hex t
  end.

(** ** Properties of the shared state that every reachable state has *)

(** A task that keeps [I] and whose result tells [Q]. *)
Definition ensures `{RobotLib} (I : Scraper -> World -> Prop) {A : Type}
    (m : Task A) (Q : A -> Scraper -> World -> Prop) : Prop :=
  forall s w, I s w ->
    wpI I (m s) w (fun r s' w' =>
                     match r with
                     | Ret a => Q a s' w'
                     | Raise _ => I s' w'
                     end).

Section Stated.
Context `{PyLib} `{RobotLib} `{SoupLib}.
Variable cfg : Config.

(** The state after lines 562 to 575 of [process_url], which run in one
    piece: the page is counted, for its domain too, its cookies are kept
    and the statistics updated. *)
Definition count_fetched (p : ParseResult) (content : string)
    (cookies : list (string * string)) (s : Scraper) : Scraper :=
  let s := count_page cfg s in
  let s :=
    set_domain_counts
      (<[netloc p := (default 0 (domain_counts s !! netloc p) + 1)%Z]>
         (domain_counts s)) s in
  let s :=
    match cookies with
    | [] => s
    | c => set_domain_cookies (<[netloc p := c]> (domain_cookies s)) s
    end in
  let st := stats s in
  set_stats (mkStats (st_pages_scraped st + 1) (st_pages_failed st)
               (st_bytes_downloaded st + Z.of_nat (String.length content))
               (<[netloc p := (default 0 (st_domain_counts st !! netloc p) + 1)%Z]>
                  (st_domain_counts st))) s.

(** [process_url] from there on: the page is rewritten, saved and
    recorded, and its links are queued. *)
Definition store_fetched (url : string) (depth : Z) (p : ParseResult)
    (content content_type : string) : Task unit :=
  content ← (if Py.contains "html" content_type
             then rewrite_html_urls cfg content url
             else mret content);
  filepath ← save_page_content cfg url content content_type;
  modify (fun s =>
    set_scraped_data
      (<[url := mkPage url content_type filepath depth
                  (String.length content) (netloc p)]>
         (scraped_data s)) s);;
  stop ← read should_stop;
  if Py.contains "html" content_type && negb stop then
    for_each (extract_urls cfg content url) (enqueue_new depth) tt
  else mret tt.

(** The signal and the counter agree: the signal is set only at the cap,
    and, where the cap is positive, always at the cap. *)
Definition stop_agrees (s : Scraper) (w : World) : Prop :=
  (should_stop s = true -> (max_pages cfg <= pages_scraped_count s)%Z)
  /\ ((0 < max_pages cfg)%Z -> (max_pages cfg <= pages_scraped_count s)%Z ->
      should_stop s = true).

(** The two counts of the pages agree, and the two tables of the pages of
    each domain. *)
Definition counters_agree (s : Scraper) (w : World) : Prop :=
  pages_scraped_count s = st_pages_scraped (stats s)
  /\ domain_counts s = st_domain_counts (stats s).

(** Every entry of [asset_map] names a file that is on disk. *)
Definition assets_exist (s : Scraper) (w : World) : Prop :=
  forall u lp,
    asset_map s !! u = Some lp ->
    is_Some (disk w !! (output_dir cfg ++ "/" ++ lp)).

(** What a record of [scraped_data] holds, given its key. *)
Definition record_ok (u : string) (rec : PageRecord) : Prop :=
  pr_url rec = u
  /\ (0 <= pr_depth rec <= max_depth cfg)%Z
  /\ (pr_filepath rec = None
      \/ pr_filepath rec = Some (page_filepath cfg u (pr_content_type rec)))
  /\ exists p, urlparse u = Ret p /\ pr_domain rec = netloc p.

Definition records_ok (s : Scraper) (w : World) : Prop :=
  Forall (fun item : string * Z => (0 <= snd item)%Z) (queue s)
  /\ forall u rec, scraped_data s !! u = Some rec -> record_ok u rec.

End Stated.

(** ** Invariants with a part for each worker

    What a worker has done since its last look at the shared state is not
    in the shared state: that it has passed [check_limits] and not yet
    counted its page, say.  Each worker is given a note of type [G]; the
    property [J] speaks of the shared state, the world and the notes of
    all workers, in any order.  [wpG J t w f Q]: the coroutine [t], with
    the notes [f] of the other workers, hands back at every suspension
    point a state that has [J] with some note of its own, and carries on
    from any state that has [J] with that note, whatever the others'; it
    ends in [Q]. *)

Section Ghost.
Context `{RobotLib} {G : Type}.
Variable J : Scraper -> World -> list G -> Prop.

Fixpoint wpG {A : Type} (t : Step A) (w : World) (f : list G)
    (Q : Exc A -> Scraper -> World -> list G -> Prop) : Prop :=
  match t with
  | Done r s => Q r s w f
  | Get p url s k =>
      exists g, J s (log_request w p url) (g :: f)
        /\ forall r s' w' f', J s' w' (g :: f') -> wpG (k r s') w' f' Q
  | WriteFile pa c s k =>
      exists g, J s w (g :: f)
        /\ forall r s' w' f', J s' w' (g :: f') ->
             wpG (k r s') (record_write w' pa c r) f' Q
  end.

(** A task that keeps [J] and the note [g] of its worker. *)
Definition keepsG (g : G) {A : Type} (m : Task A) : Prop :=
  forall s w f, J s w (g :: f) ->
    wpG (m s) w f (fun _ s' w' f' => J s' w' (g :: f')).

(** What is known of a worker with the note [g]; between two items the
    note is [idle]. *)
Definition waiting_okG (idle g : G) (wk : worker) : Prop :=
  match wk with
  | Idle => g = idle
  | Waiting (Done _ _) => g = idle
  | Waiting (Get _ _ _ k) =>
      forall r s' w' f', J s' w' (g :: f') ->
        wpG (k r s') w' f' (fun _ s w f => J s w (idle :: f))
  | Waiting (WriteFile pa c _ k) =>
      forall r s' w' f', J s' w' (g :: f') ->
        wpG (k r s') (record_write w' pa c r) f' (fun _ s w f => J s w (idle :: f))
  end.

Definition sys_okG (idle : G) (sys : Sys) : Prop :=
  exists gs : list G,
    J (shared sys) (world sys) gs
    /\ Forall2 (waiting_okG idle) gs (workers sys).

End Ghost.

(** The number of notes that have [P]. *)
Fixpoint tally {G : Type} (P : G -> bool) (gs : list G) : Z :=
  match gs with
  | [] => 0
  | g :: r => (if P g then 1 else 0) + tally P r
  end.

Section Credits.
Context `{PyLib} `{RobotLib} `{SoupLib}.
Variable cfg : Config.

(** The note of a worker is [true] from the moment [check_limits] has let
    it pass to the moment it counts its page or gives up.  The pages
    counted and the pages that may still be counted are at most
    [max_pages - 1] and one for each worker. *)
Definition cap_credit (s : Scraper) (w : World) (gs : list bool) : Prop :=
  length gs = max_workers cfg
  /\ (pages_scraped_count s + tally id gs
      <= max_pages cfg - 1 + Z.of_nat (max_workers cfg))%Z.

End Credits.

(** How far a worker is with the page it has been let in for. *)
Inductive progress : Type :=
  | Between
  | Marked
  | Counted.

Definition is_marked (g : progress) : bool :=
  match g with Marked => true | _ => false end.
Definition is_counted (g : progress) : bool :=
  match g with Counted => true | _ => false end.

Section Credits2.
Context `{PyLib} `{RobotLib} `{SoupLib}.
Variable cfg : Config.

(** The same for the pages of a domain: the note of a worker is the
    domain it has been let in for. *)
Definition domain_credit (s : Scraper) (w : World) (gs : list (option string))
    : Prop :=
  length gs = max_workers cfg
  /\ forall d,
       (default 0 (domain_counts s !! d)
        + tally (fun g => bool_decide (g = Some d)) gs
        <= pages_per_domain cfg - 1 + Z.of_nat (max_workers cfg))%Z.

(** A worker is [Marked] from the moment it has put its URL in
    [visited_urls] to the moment it counts the page, and [Counted] from
    there to the moment it records the page. *)
Definition pages_in_step (s : Scraper) (w : World) (gs : list progress) : Prop :=
  (Z.of_nat (size (scraped_data s)) + tally is_counted gs
   <= pages_scraped_count s)%Z
  /\ (pages_scraped_count s + tally is_marked gs
      <= Z.of_nat (size (visited_urls s)))%Z.

(** The note of a worker is the page it has requested and not yet
    recorded. *)
Definition requested (s : Scraper) (w : World) (gs : list (option string))
    : Prop :=
  forall u, Some u ∈ gs \/ is_Some (scraped_data s !! u) ->
            (PageHeaders, u) ∈ http_log w.

End Credits2.

Section OnSite.
Context `{PyLib} `{RobotLib} `{SoupLib}.
Variable cfg : Config.

(** The start URL, and the URLs that [should_scrape] accepts against
    [base_domain]. *)
Definition on_site (u : string) : Prop :=
  u = start_url cfg \/ URLFilter.should_scrape u (base_domain cfg) = Ret true.

(** An item of the queue: the start URL at depth 0, or a link found on a
    page. *)
Definition item_ok (item : string * Z) : Prop :=
  (fst item = start_url cfg /\ snd item = 0%Z)
  \/ (URLFilter.should_scrape (fst item) (base_domain cfg) = Ret true
      /\ (1 <= snd item <= max_depth cfg + 1)%Z).

Definition stays_on_site (s : Scraper) (w : World) : Prop :=
  Forall item_ok (queue s)
  /\ (forall u, u ∈ visited_urls s -> on_site u)
  /\ (forall u, is_Some (scraped_data s !! u) -> on_site u)
  /\ (forall u, (PageHeaders, u) ∈ http_log w -> on_site u).

End OnSite.

(** ** What the shared state never loses *)

Section Growth.
Context `{RobotLib}.

(** From [s] to [s'] no URL has left [visited_urls] or [failed_assets],
    no key has left [asset_map], [scraped_data] or the cache of
    [robots.txt], no counter has gone down and the signal has not been
    taken back. *)
Definition grows_to (s s' : Scraper) : Prop :=
  visited_urls s ⊆ visited_urls s'
  /\ failed_assets s ⊆ failed_assets s'
  /\ dom (asset_map s) ⊆ dom (asset_map s')
  /\ dom (scraped_data s) ⊆ dom (scraped_data s')
  /\ dom (robots_cache s) ⊆ dom (robots_cache s')
  /\ (pages_scraped_count s <= pages_scraped_count s')%Z
  /\ (forall d, (default 0 (domain_counts s !! d)
                 <= default 0 (domain_counts s' !! d))%Z)
  /\ (st_pages_failed (stats s) <= st_pages_failed (stats s'))%Z
  /\ (should_stop s = true -> should_stop s' = true).

(** [growing s0 t]: the coroutine [t] hands back a state grown from [s0],
    and each time it is resumed, a state grown from the one it is resumed
    with. *)
Fixpoint growing {A : Type} (s0 : Scraper) (t : Step A) : Prop :=
  grows_to s0 (handed_back t)
  /\ match t with
     | Done _ _ => True
     | Get _ _ _ k => forall r s', growing s' (k r s')
     | WriteFile _ _ _ k => forall r s', growing s' (k r s')
     end.

Definition growingT {A : Type} (m : Task A) : Prop :=
  forall s, growing s (m s).

Definition worker_growing (wk : worker) : Prop :=
  match wk with
  | Idle => True
  | Waiting (Done _ _) => True
  | Waiting (Get _ _ _ k) => forall r s', growing s' (k r s')
  | Waiting (WriteFile _ _ _ k) => forall r s', growing s' (k r s')
  end.

End Growth.

(** ** How a coroutine ends *)

(** [ends_in Q t]: whatever the answers to its requests and its writes,
    and whatever the state it finds each time it is resumed, the
    coroutine [t] ends with a result and a state that have [Q]. *)
Fixpoint ends_in `{RobotLib} {A : Type} (Q : Exc A -> Scraper -> Prop)
    (t : Step A) : Prop :=
  match t with
  | Done r s => Q r s
  | Get _ _ _ k => forall r s', ends_in Q (k r s')
  | WriteFile _ _ _ k => forall r s', ends_in Q (k r s')
  end.

Section AssetEntries.
Context `{PyLib} `{RobotLib} `{SoupLib}.
Variable cfg : Config.

(** Every entry of [asset_map] is the path computed from its URL without
    the fragment, for some type of asset. *)
Definition asset_paths_computed (s : Scraper) (w : World) : Prop :=
  forall u lp,
    asset_map s !! u = Some lp ->
    exists asset_type, get_asset_local_path (clean_of u) asset_type = Ret lp.

(** What [download_asset] answers for [url] is what the state it leaves
    holds for [url]. *)
Definition asset_answer (url : string) (r : Exc (option string)) (s : Scraper)
    : Prop :=
  match r with
  | Ret (Some local_path) => asset_map s !! url = Some local_path
  | Ret None => url ∈ failed_assets s
  | Raise _ => False
  end.

(** The answer agrees with the state, or there is an exception on its
    way to a handler. *)
Definition answer_or_raise (url : string) (r : Exc (option string))
    (s : Scraper) : Prop :=
  match r with
  | Raise _ => True
  | _ => asset_answer url r s
  end.

(** An entry of [asset_tasks] as the loops of [rewrite_html_urls] make
    them. *)
Definition task_ok (soup : list element) (base_url : string) (t : asset_task)
    : Prop :=
  at_original t <> ""
  /\ Py.startswith (at_original t) "data:" = false
  /\ urljoin base_url (at_original t) = Ret (at_absolute t)
  /\ In (at_type t) ["image"; "css"; "js"; "font"; "media"]
  /\ exists e, soup !! at_element t = Some e
               /\ Soup.get_nonempty e (at_attr t) <> None.

End AssetEntries.

(** ** The pages of the domains *)

(** [sum(domain_counts.values())] *)
Definition sum_counts (m : gmap string Z) : Z :=
  map_fold (fun _ v acc => (v + acc)%Z) 0%Z m.

(** The counts of the domains add up to the count of the pages, and no
    domain is listed without a page. *)
Definition domains_add_up `{RobotLib} (s : Scraper) (w : World) : Prop :=
  pages_scraped_count s = sum_counts (domain_counts s)
  /\ forall d n, domain_counts s !! d = Some n -> (1 <= n)%Z.

(** ** Where a download goes *)

(** Every request of the coroutine [t], wherever it is resumed, is a
    request for an asset at the URL [clean]. *)
Fixpoint requests_only `{RobotLib} {A : Type} (clean : string) (t : Step A)
    : Prop :=
  match t with
  | Done _ _ => True
  | Get p url _ k =>
      asset_request clean (p, url) /\ forall r s', requests_only clean (k r s')
  | WriteFile _ _ _ k => forall r s', requests_only clean (k r s')
  end.

Section Fetches.
Context `{PyLib} `{RobotLib}.
Variable cfg : Config.



End Fetches.

(** ** What a coroutine changes by itself *)

Section OwnSteps.
Context `{RobotLib}.
Variable R : Scraper -> Scraper -> Prop.

(** [own_steps R s0 t]: the state that the coroutine [t] hands back is
    related by [R] to the state [s0] it started in, and each time it is
    resumed, with whatever state, the state it hands back next is related
    to the one it was resumed with. *)
Fixpoint own_steps {A : Type} (s0 : Scraper) (t : Step A) : Prop :=
  R s0 (handed_back t)
  /\ match t with
     | Done _ _ => True
     | Get _ _ _ k => forall r s', own_steps s' (k r s')
     | WriteFile _ _ _ k => forall r s', own_steps s' (k r s')
     end.

Definition own_stepsT {A : Type} (m : Task A) : Prop :=
  forall s, own_steps s (m s).

End OwnSteps.

(** The counts of the pages, the statistics and the records of [s'] are
    those of [s]. *)
Definition same_pages `{RobotLib} (s s' : Scraper) : Prop :=
  pages_scraped_count s' = pages_scraped_count s
  /\ stats s' = stats s
  /\ scraped_data s' = scraped_data s.

(** The state monad of the coroutines, unfolded one layer. *)
Ltac task_step :=
  unfold mbind, mret, Task_bind, Task_ret, task_bind, task_ret, task_try,
         task_raise, lift, read, modify, await_get, await_write in *;
  cbn [step_bind step_catch run fst snd] in *.

(** * Properties *)

(** ** Sample values of the text operations and of the digest *)

Example splitext_ext_hidden : Py.splitext_ext "/a/.bashrc" = "".
Proof. reflexivity. Qed.
Example replace_overlap : Py.replace "aaaa" "aa" "b" = "bb".
Proof. reflexivity. Qed.
Example strip_ex : Py.strip "  a b  " = "a b".
Proof. reflexivity. Qed.
Example md5_abc : MD5.hexdigest "abc" = "900150983cd24fb0d6963f7d28e17f72".
Proof. vm_compute. reflexivity. Qed.

Example splitext_ext_tar : Py.splitext_ext "/a/b.c/x.tar.gz" = ".gz".
Proof. reflexivity. Qed.

Example splitext_ext_dir_dot : Py.splitext_ext "/a.b/style" = "".
Proof. reflexivity. Qed.

Example split_on_ex : Py.split_on "," "a 1x,, b" = ["a 1x"; ""; " b"].
Proof. reflexivity. Qed.

Example md5_empty : MD5.hexdigest "" = "d41d8cd98f00b204e9800998ecf8427e".
Proof. vm_compute. reflexivity. Qed.

Example md5_long :
  MD5.hexdigest "12345678901234567890123456789012345678901234567890123456789012345678901234567890"
  = "57edf4a22be3c955ac49da2e2107b67a".
Proof. vm_compute. reflexivity. Qed.

(** ** [URLFilter.should_scrape] never raises *)

Section ShouldScrape.
Context `{PyLib}.

(** C10: [should_scrape] returns a truth value on every URL and every
    base domain, never an exception, and [False] whenever the parsing or
    the filtering inside it raised. *)
Theorem should_scrape_total (url base_domain : string) :
  (exists b : bool, URLFilter.should_scrape url base_domain = Ret b) /\
  (forall e : exn,
      URLFilter.should_scrape_body url base_domain = Raise e ->
      URLFilter.should_scrape url base_domain = Ret false).
Proof.
  unfold URLFilter.should_scrape.
  destruct (URLFilter.should_scrape_body url base_domain) as [b | e] eqn:Hbody;
    simpl.
  - split; [exists b; reflexivity | intros e He; discriminate He].
  - split; [exists false; reflexivity | reflexivity].
Qed.

(** What the body answers when nothing raises: the host must be that of
    the base, and the three filters must all let the URL through. *)
Lemma should_scrape_other_host (url base_domain : string) (p b : ParseResult) :
  urlparse url = Ret p ->
  urlparse base_domain = Ret b ->
  netloc p <> netloc b ->
  URLFilter.should_scrape url base_domain = Ret false.
Proof.
  intros Hp Hb Hne.
  unfold URLFilter.should_scrape, URLFilter.should_scrape_body.
  rewrite Hp; simpl. rewrite Hb; simpl.
  destruct (String.eqb_spec (netloc p) (netloc b)) as [Heq | _];
    [contradiction | reflexivity].
Qed.

End ShouldScrape.

(** An unbalanced bracket makes [urlparse] raise inside the body. *)
Lemma should_scrape_total_witness :
  @URLFilter.should_scrape_body UrlLib.lib "http://[h/x" "http://h"
    = Raise ValueError
  /\ @URLFilter.should_scrape UrlLib.lib "http://[h/x" "http://h" = Ret false.
Proof.
  split.
  - reflexivity.
  - apply (proj2 (@should_scrape_total UrlLib.lib "http://[h/x" "http://h")
                 ValueError).
    reflexivity.
Defined.

(** ** [get_asset_local_path] *)

Section AssetPath.
Context `{PyLib}.

(** A path without extension gets [.bin] before the test that would pick
    the default of the asset type, so that test sees [.bin] and keeps it. *)
Lemma asset_path_no_extension (url asset_type : string) (p : ParseResult) :
  urlparse url = Ret p ->
  Py.splitext_ext (path p) = "" ->
  exists subdir : string,
    get_asset_local_path url asset_type
    = Ret (subdir ++ "/" ++ MD5.hexdigest url ++ ".bin").
Proof.
  intros Hp Hext. unfold get_asset_local_path.
  rewrite Hp; simpl. rewrite Hext; simpl.
  eexists; reflexivity.
Qed.

(** An extension of at most ten characters, the dot counted, is kept. *)
Lemma asset_path_keeps_extension (url asset_type : string) (p : ParseResult) :
  urlparse url = Ret p ->
  Py.splitext_ext (path p) <> "" ->
  Py.contains "?" (Py.splitext_ext (path p)) = false ->
  (String.length (Py.splitext_ext (path p)) <= 10)%nat ->
  exists subdir : string,
    get_asset_local_path url asset_type
    = Ret (subdir ++ "/" ++ MD5.hexdigest url ++ Py.splitext_ext (path p)).
Proof.
  intros Hp Hne Hq Hlen. unfold get_asset_local_path.
  rewrite Hp; simpl.
  destruct (String.eqb_spec (Py.splitext_ext (path p)) "") as [He | _];
    [contradiction |].
  rewrite Hq.
  destruct (String.eqb_spec (Py.splitext_ext (path p)) "") as [He | _];
    [contradiction |].
  simpl.
  destruct (Nat.ltb_spec 10 (String.length (Py.splitext_ext (path p))));
    [lia |].
  eexists; reflexivity.
Qed.

End AssetPath.

(** C7: a [css] asset whose URL path has no extension is stored with the
    extension [.bin], not [.css]. *)
Theorem css_without_extension_gets_bin :
  @get_asset_local_path UrlLib.lib "http://h/style" "css"
  = Ret "css/4ee504719884a7d3d8e71d3439b851ad.bin".
Proof. vm_compute. reflexivity. Qed.

(** The default of the type is reached only by an extension of more than
    ten characters. *)
Example css_long_extension_gets_css :
  @get_asset_local_path UrlLib.lib "http://h/a.verylongextension" "css"
  = Ret "css/d974ed6af1ffc068f8cf8b61a04b6fb4.css".
Proof. vm_compute. reflexivity. Qed.

(** ** The cache of [RobotsChecker] *)

Section Robots.
Context `{PyLib} `{RobotLib}.

Lemma can_fetch_cached (s : Scraper) (url agent : string) (p : ParseResult)
    (rp : robot_rules) :
  urlparse url = Ret p ->
  robots_cache s !! origin_of p = Some rp ->
  can_fetch url agent s = Done (Ret (robots_can_fetch rp agent url)) s.
Proof.
  intros Hp Hc. unfold can_fetch, origin_of in *.
  task_step. rewrite Hp. task_step. rewrite Hc. cbn. rewrite Hc. reflexivity.
Qed.

Lemma can_fetch_miss (env : Env) (w : World) (s : Scraper)
    (url agent : string) (p : ParseResult) :
  urlparse url = Ret p ->
  robots_cache s !! origin_of p = None ->
  run env (can_fetch url agent s) w =
  match env_get env (http_log w) RobotsSession (origin_of p ++ "/robots.txt") with
  | Ret resp =>
      if (status resp =? 200)%Z then
        (Ret (robots_can_fetch (robots_parse (body resp)) agent url),
         set_robots_cache
           (<[origin_of p := robots_parse (body resp)]> (robots_cache s)) s,
         log_request w RobotsSession (origin_of p ++ "/robots.txt"))
      else (Ret true, s, log_request w RobotsSession (origin_of p ++ "/robots.txt"))
  | Raise _ =>
      (Ret true, s, log_request w RobotsSession (origin_of p ++ "/robots.txt"))
  end.
Proof.
  intros Hp Hc. unfold can_fetch, origin_of in *.
  task_step. rewrite Hp. task_step. rewrite Hc. cbn.
  destruct (env_get env (http_log w) RobotsSession _) as [resp | e]; cbn.
  - destruct (status resp =? 200)%Z; cbn.
    + rewrite lookup_insert_eq. reflexivity.
    + reflexivity.
  - reflexivity.
Qed.

(** C5, as the code has it: a query for an origin in the cache is answered
    from the cache with no request; a query for an origin not in the cache
    fetches [robots.txt] once, and only an answer with status 200 puts the
    parsed rules in the cache; any other status and any error is answered
    [True] and leaves the cache as it was. *)
Theorem can_fetch_caches_status_200 (env : Env) (w : World) (s : Scraper)
    (url agent : string) (p : ParseResult) :
  urlparse url = Ret p ->
  match robots_cache s !! origin_of p with
  | Some rp =>
      can_fetch url agent s = Done (Ret (robots_can_fetch rp agent url)) s
  | None =>
      run env (can_fetch url agent s) w =
      match env_get env (http_log w) RobotsSession (origin_of p ++ "/robots.txt") with
      | Ret resp =>
          if (status resp =? 200)%Z then
            (Ret (robots_can_fetch (robots_parse (body resp)) agent url),
             set_robots_cache
               (<[origin_of p := robots_parse (body resp)]> (robots_cache s)) s,
             log_request w RobotsSession (origin_of p ++ "/robots.txt"))
          else
            (Ret true, s,
             log_request w RobotsSession (origin_of p ++ "/robots.txt"))
      | Raise _ =>
          (Ret true, s, log_request w RobotsSession (origin_of p ++ "/robots.txt"))
      end
  end.
Proof.
  intros Hp.
  destruct (robots_cache s !! origin_of p) as [rp |] eqn:Hc.
  - exact (can_fetch_cached s url agent p rp Hp Hc).
  - exact (can_fetch_miss env w s url agent p Hp Hc).
Qed.

(** After an answer with status 200, every later query for the origin is
    answered without a request, whatever the URL and the agent. *)
Lemma can_fetch_second_query (env : Env) (w : World) (s : Scraper)
    (url agent url' agent' : string) (p p' : ParseResult) (resp : response) :
  urlparse url = Ret p ->
  urlparse url' = Ret p' ->
  origin_of p' = origin_of p ->
  robots_cache s !! origin_of p = None ->
  env_get env (http_log w) RobotsSession (origin_of p ++ "/robots.txt") = Ret resp ->
  status resp = 200%Z ->
  exists b : bool,
    can_fetch url' agent' (snd (fst (run env (can_fetch url agent s) w)))
    = Done (Ret b) (snd (fst (run env (can_fetch url agent s) w))).
Proof.
  intros Hp Hp' Ho Hc Hget H200.
  rewrite (can_fetch_miss env w s url agent p Hp Hc), Hget, H200. cbn.
  eexists. apply (can_fetch_cached _ url' agent' p').
  - exact Hp'.
  - rewrite Ho. cbn. apply lookup_insert_eq.
Qed.

End Robots.

Lemma can_fetch_caches_status_200_witness :
  @urlparse UrlLib.lib "http://h/private"
    = Ret (mkParse "http" "h" "/private" "" "" "")
  /\ @run MiniRobots.lib _ Site.env_robots
       (@can_fetch UrlLib.lib MiniRobots.lib "http://h/private" "WebArchiver/1.0"
          init_scraper)
       Site.no_world
     = (Ret false,
        set_robots_cache (<["http://h" := ["/private"]]> ∅) init_scraper,
        mkWorld [(RobotsSession, "http://h/robots.txt")] ∅).
Proof.
  split.
  - reflexivity.
  - exact (@can_fetch_caches_status_200 UrlLib.lib MiniRobots.lib
             Site.env_robots Site.no_world init_scraper
             "http://h/private" "WebArchiver/1.0"
             (mkParse "http" "h" "/private" "" "" "") eq_refl).
Defined.

(** C5 as stated fails: after a 404 for [robots.txt] nothing is in the
    cache, and the next query for the same origin fetches the file
    again. *)
Lemma can_fetch_404_fetches_again :
  let first :=
    @run MiniRobots.lib _ Site.env_404
      (@can_fetch UrlLib.lib MiniRobots.lib "http://h/a" "WebArchiver/1.0"
         init_scraper)
      Site.no_world in
  let second :=
    @run MiniRobots.lib _ Site.env_404
      (@can_fetch UrlLib.lib MiniRobots.lib "http://h/b" "WebArchiver/1.0"
         (snd (fst first)))
      (snd first) in
  robots_cache (snd (fst first)) !! "http://h" = None
  /\ fst (fst second) = Ret true
  /\ http_log (snd second)
     = [(RobotsSession, "http://h/robots.txt");
        (RobotsSession, "http://h/robots.txt")].
Proof. vm_compute. repeat split; reflexivity. Qed.

(** ** Fragments of asset URLs *)

Section Assets.
Context `{PyLib} `{RobotLib}.
Variable cfg : Config.




End Assets.


(** ** Schedules are runs of the workers *)

Section Schedules.
Context `{PyLib} `{RobotLib} `{SoupLib}.
Variable cfg : Config.

Lemma perform_sound (sys sys' : Sys) (a : action) :
  perform cfg sys a = Some sys' -> sys_step cfg sys sys'.
Proof.
  destruct a as [i | | i r | i r]; cbn.
  - destruct (workers sys !! i) as [[| t] |] eqn:Hw; try discriminate.
    destruct (should_stop (shared sys)) eqn:Hs; try discriminate.
    destruct (queue (shared sys)) as [| [url depth] q] eqn:Hq; try discriminate.
    intros [= <-]. eapply step_take; eassumption.
  - destruct (should_stop (shared sys)) eqn:Hs; try discriminate.
    destruct (queue (shared sys)) as [| [url depth] q] eqn:Hq; try discriminate.
    intros [= <-]. eapply step_drop; eassumption.
  - destruct (workers sys !! i) as [[| [r0 s0 | p url s0 k | pa c s0 k]] |] eqn:Hw;
      try discriminate.
    intros [= <-]. eapply step_response; eassumption.
  - destruct (workers sys !! i) as [[| [r0 s0 | p url s0 k | pa c s0 k]] |] eqn:Hw;
      try discriminate.
    intros [= <-]. eapply step_written; eassumption.
Qed.

Lemma perform_all_reachable (l : list action) (sys sys' : Sys) :
  reachable cfg sys -> perform_all cfg sys l = Some sys' -> reachable cfg sys'.
Proof.
  revert sys. induction l as [| a l IH]; intros sys Hr; cbn.
  - intros [= <-]. exact Hr.
  - destruct (perform cfg sys a) as [sys1 |] eqn:Ha; [| discriminate].
    intros Hl. apply (IH sys1); [| exact Hl].
    eapply reach_step; [exact Hr | exact (perform_sound sys sys1 a Ha)].
Qed.

End Schedules.

(** ** One fetch for a URL *)

Section Once.
Context `{PyLib} `{RobotLib} `{SoupLib}.
Variable cfg : Config.

Lemma process_url_visited (s : Scraper) (url : string) (depth : Z) :
  url ∈ visited_urls s -> process_url cfg url depth s = Done (Ret tt) s.
Proof.
  intros Hv. unfold process_url. task_step.
  destruct (should_stop s); [reflexivity |].
  rewrite bool_decide_eq_true_2 by exact Hv. reflexivity.
Qed.

(** Whatever [process_url] waits for first, the robots file or the page,
    the URL is in [visited_urls] by then: the test and the insertion are
    in one piece. *)
Lemma process_url_marks_before_suspending (s : Scraper) (url : string)
    (depth : Z) :
  suspended (process_url cfg url depth s) = true ->
  url ∈ visited_urls (handed_back (process_url cfg url depth s)).
Proof.
  unfold process_url, check_limits, fetch_page, can_fetch. task_step.
  destruct (should_stop s) eqn:Hstop; cbn; [discriminate |].
  destruct (bool_decide (url ∈ visited_urls s) || (max_depth cfg <? depth)%Z);
    cbn; [discriminate |].
  task_step.
  destruct (max_pages cfg <=? pages_scraped_count s)%Z; task_step.
  { rewrite Hstop. cbn. discriminate. }
  destruct (urlparse url) as [p | e]; task_step; [| discriminate].
  destruct (pages_per_domain cfg <=? default 0%Z (domain_counts s !! netloc p))%Z;
    task_step; [discriminate |].
  destruct (respect_robots cfg); task_step; cbn.
  - destruct (bool_decide (is_Some (robots_cache s !! origin_of p)));
      task_step; cbn.
    + destruct (robots_cache s !! origin_of p) as [rp |]; task_step; cbn.
      * destruct (robots_can_fetch rp "WebArchiver/1.0" url); cbn;
          [intros _; apply elem_of_union_l, elem_of_singleton; reflexivity
          | discriminate].
      * intros _. apply elem_of_union_l, elem_of_singleton; reflexivity.
    + intros _. apply elem_of_union_l, elem_of_singleton; reflexivity.
  - intros _. apply elem_of_union_l, elem_of_singleton; reflexivity.
Qed.


End Once.

(** ** At most one request for a page, with any number of workers *)

Section Trees.
Context `{RobotLib}.

Lemma quiet_owes {A : Type} (u : string) (t : Step A) : quiet t -> owes u t.
Proof.
  induction t as [r s | p url s k IH | pa c s k IH]; cbn; [auto | |].
  - intros [Hp Hk]. split; [intros Hq; contradiction |].
    intros _ r s'. apply IH, Hk.
  - intros Hk r s'. apply IH, Hk.
Qed.

Lemma quiet_bind {A B : Type} (t : Step A) (f : A -> Task B) :
  quiet t -> (forall a s, quiet (f a s)) -> quiet (step_bind t f).
Proof.
  intros Ht Hf. induction t as [r s | p url s k IH | pa c s k IH]; cbn in *.
  - destruct r; [apply Hf | exact Logic.I].
  - destruct Ht as [Hp Hk]. split; [exact Hp |]. intros r s'. apply IH, Hk.
  - intros r s'. apply IH, Ht.
Qed.

Lemma quiet_catch {A : Type} (t : Step A) (h : exn -> Task A) :
  quiet t -> (forall e s, quiet (h e s)) -> quiet (step_catch t h).
Proof.
  intros Ht Hh. induction t as [r s | p url s k IH | pa c s k IH]; cbn in *.
  - destruct r; [exact Logic.I | apply Hh].
  - destruct Ht as [Hp Hk]. split; [exact Hp |]. intros r s'. apply IH, Hk.
  - intros r s'. apply IH, Ht.
Qed.

(** The page request, if any, is in [t]. *)
Lemma owes_bind_l {A B : Type} (u : string) (t : Step A) (f : A -> Task B) :
  owes u t -> (forall a s, quiet (f a s)) -> owes u (step_bind t f).
Proof.
  intros Ht Hf. induction t as [r s | p url s k IH | pa c s k IH]; cbn in *.
  - destruct r; [apply quiet_owes, Hf | exact Logic.I].
  - destruct Ht as [Hp Hn]. split.
    + intros ->. destruct (Hp eq_refl) as [-> Hk]. split; [reflexivity |].
      intros r s'. apply quiet_bind; [apply Hk | exact Hf].
    + intros Hne r s'. apply IH, Hn, Hne.
  - intros r s'. apply IH, Ht.
Qed.

(** The page request, if any, comes after [t]. *)
Lemma owes_bind_r {A B : Type} (u : string) (t : Step A) (f : A -> Task B) :
  quiet t -> (forall a s, owes u (f a s)) -> owes u (step_bind t f).
Proof.
  intros Ht Hf. induction t as [r s | p url s k IH | pa c s k IH]; cbn in *.
  - destruct r; [apply Hf | exact Logic.I].
  - destruct Ht as [Hp Hk]. split; [intros Hq; contradiction |].
    intros _ r s'. apply IH, Hk.
  - intros r s'. apply IH, Ht.
Qed.

Lemma owes_catch {A : Type} (u : string) (t : Step A) (h : exn -> Task A) :
  owes u t -> (forall e s, quiet (h e s)) -> owes u (step_catch t h).
Proof.
  intros Ht Hh. induction t as [r s | p url s k IH | pa c s k IH]; cbn in *.
  - destruct r; [exact Logic.I | apply quiet_owes, Hh].
  - destruct Ht as [Hp Hn]. split.
    + intros ->. destruct (Hp eq_refl) as [-> Hk]. split; [reflexivity |].
      intros r s'. apply quiet_catch; [apply Hk | exact Hh].
    + intros Hne r s'. apply IH, Hn, Hne.
  - intros r s'. apply IH, Ht.
Qed.

Lemma quietT_ret {A : Type} (a : A) : quietT (mret a).
Proof. intros s. exact Logic.I. Qed.
Lemma quietT_raise {A : Type} (e : exn) : quietT (@task_raise _ A e).
Proof. intros s. exact Logic.I. Qed.
Lemma quietT_lift {A : Type} (c : Exc A) : quietT (lift c).
Proof. intros s. exact Logic.I. Qed.
Lemma quietT_read {A : Type} (f : Scraper -> A) : quietT (read f).
Proof. intros s. exact Logic.I. Qed.
Lemma quietT_modify (f : Scraper -> Scraper) : quietT (modify f).
Proof. intros s. exact Logic.I. Qed.
Lemma quietT_get (p : profile) (url : string) :
  p <> PageHeaders -> quietT (await_get p url).
Proof. intros Hp s. cbn. split; [exact Hp | intros; exact Logic.I]. Qed.
Lemma quietT_write (pa c : string) : quietT (await_write pa c).
Proof. intros s. cbn. intros; exact Logic.I. Qed.
Lemma quietT_bind {A B : Type} (m : Task A) (f : A -> Task B) :
  quietT m -> (forall a, quietT (f a)) -> quietT (m ≫= f).
Proof. intros Hm Hf s. apply quiet_bind; [apply Hm | intros a s'; apply Hf]. Qed.
Lemma quietT_try {A : Type} (m : Task A) (h : exn -> Task A) :
  quietT m -> (forall e, quietT (h e)) -> quietT (task_try m h).
Proof. intros Hm Hh s. apply quiet_catch; [apply Hm | intros e s'; apply Hh]. Qed.
Lemma quietT_for_each {A S : Type} (l : list A) (body : S -> A -> Task S) (acc : S) :
  (forall acc x, quietT (body acc x)) -> quietT (for_each l body acc).
Proof.
  intros Hb. revert acc. induction l as [| x r IH]; intros acc; cbn [for_each].
  - apply quietT_ret.
  - apply quietT_bind; [apply Hb | intros acc'; apply IH].
Qed.

Lemma owesT_quiet {A : Type} (u : string) (m : Task A) : quietT m -> owesT u m.
Proof. intros Hm s. apply quiet_owes, Hm. Qed.
Lemma owesT_get_page (u : string) : owesT u (await_get PageHeaders u).
Proof.
  intros s. cbn. split; [intros _; split; [reflexivity | intros; exact Logic.I] |].
  intros Hne. contradiction.
Qed.
Lemma owesT_bind_l {A B : Type} (u : string) (m : Task A) (f : A -> Task B) :
  owesT u m -> (forall a, quietT (f a)) -> owesT u (m ≫= f).
Proof. intros Hm Hf s. apply owes_bind_l; [apply Hm | intros a s'; apply Hf]. Qed.
Lemma owesT_bind_r {A B : Type} (u : string) (m : Task A) (f : A -> Task B) :
  quietT m -> (forall a, owesT u (f a)) -> owesT u (m ≫= f).
Proof. intros Hm Hf s. apply owes_bind_r; [apply Hm | intros a s'; apply Hf]. Qed.
Lemma owesT_try {A : Type} (u : string) (m : Task A) (h : exn -> Task A) :
  owesT u m -> (forall e, quietT (h e)) -> owesT u (task_try m h).
Proof. intros Hm Hh s. apply owes_catch; [apply Hm | intros e s'; apply Hh]. Qed.

End Trees.

Ltac quiet_step :=
  lazymatch goal with
  | |- quietT (mbind _ _) => apply quietT_bind; [| intros ?]
  | |- quietT (task_try _ _) => apply quietT_try; [| intros ?]
  | |- quietT (mret _) => apply quietT_ret
  | |- quietT (task_raise _) => apply quietT_raise
  | |- quietT (lift _) => apply quietT_lift
  | |- quietT (read _) => apply quietT_read
  | |- quietT (await_get _ _) => apply quietT_get; discriminate
  | |- quietT (await_write _ _) => apply quietT_write
  | |- quietT (modify _) => apply quietT_modify
  | |- quietT (for_each _ _ _) => apply quietT_for_each; intros ? ?
  | |- quietT (if ?b then _ else _) => destruct b
  | |- quietT (match ?x with _ => _ end) => destruct x
  | |- quietT (let _ := _ in _) => cbv zeta
  end.

Section Functions.
Context `{PyLib} `{RobotLib} `{SoupLib}.
Variable cfg : Config.

Lemma quietT_download_asset url asset_type referer :
  quietT (download_asset cfg url asset_type referer).
Proof. unfold download_asset, store_asset, fail_asset. repeat quiet_step. Qed.

Lemma quietT_rewrite_css_urls css base_url :
  quietT (rewrite_css_urls cfg css base_url).
Proof.
  unfold rewrite_css_urls. apply quietT_for_each. intros acc url.
  unfold rewrite_css_url. repeat quiet_step. apply quietT_download_asset.
Qed.

Lemma quietT_rewrite_html_urls html base_url :
  quietT (rewrite_html_urls cfg html base_url).
Proof.
  unfold rewrite_html_urls, rewrite_style_tag, rewrite_style_attr,
    apply_asset_task, rewrite_anchor.
  repeat first
    [quiet_step | apply quietT_rewrite_css_urls | apply quietT_download_asset].
Qed.

Lemma quietT_can_fetch url agent : quietT (can_fetch url agent).
Proof. unfold can_fetch. repeat quiet_step. Qed.

Lemma quietT_check_limits url : quietT (check_limits cfg url).
Proof. unfold check_limits. repeat quiet_step. Qed.

Lemma quietT_save_page_content url content ct :
  quietT (save_page_content cfg url content ct).
Proof. unfold save_page_content. repeat quiet_step. Qed.

Lemma owesT_fetch_page url : owesT url (fetch_page cfg url).
Proof.
  unfold fetch_page, add_failed.
  apply owesT_try; [| intros e; repeat quiet_step].
  apply owesT_bind_r.
  { destruct (respect_robots cfg); [apply quietT_can_fetch | apply quietT_ret]. }
  intros allowed. destruct (negb allowed); [apply owesT_quiet, quietT_ret |].
  apply owesT_bind_r; [apply quietT_lift |]. intros parsed. cbv zeta.
  apply owesT_bind_l; [apply owesT_get_page |].
  intros response. repeat quiet_step.
Qed.

Lemma owesT_process_url url depth : owesT url (process_url cfg url depth).
Proof.
  unfold process_url.
  apply owesT_bind_r; [apply quietT_read |]. intros stop.
  destruct stop; [apply owesT_quiet, quietT_ret |].
  apply owesT_bind_r; [apply quietT_read |]. intros visited.
  destruct (_ || _); [apply owesT_quiet, quietT_ret |].
  apply owesT_bind_r; [apply quietT_check_limits |]. intros within.
  destruct (negb within); [apply owesT_quiet, quietT_ret |].
  apply owesT_bind_r; [apply quietT_modify |]. intros _.
  apply owesT_bind_l; [apply owesT_fetch_page |]. intros result.
  unfold add_page, enqueue_new.
  repeat first
    [ quiet_step
    | apply quietT_rewrite_html_urls
    | apply quietT_save_page_content ].
Qed.
End Functions.

Section Above.
Context `{RobotLib}.

Lemma above_weaken {A : Type} (V V' : gset string) (t : Step A) :
  V ⊆ V' -> above V' t -> above V t.
Proof.
  intros HV. destruct t; cbn; intros [Hs Hk]; (split; [set_solver | exact Hk]).
Qed.

Lemma above_sub {A : Type} (V : gset string) (t : Step A) :
  above V t -> V ⊆ visited_urls (handed_back t).
Proof. destruct t; intros [Hs _]; exact Hs. Qed.

Lemma above_bind {A B : Type} (V : gset string) (t : Step A) (f : A -> Task B) :
  above V t -> (forall a s, above (visited_urls s) (f a s)) ->
  above V (step_bind t f).
Proof.
  intros Ht Hf. revert V Ht.
  induction t as [r s | p url s k IH | pa c s k IH]; intros V; cbn.
  - intros [Hs _]. destruct r as [a | e].
    + apply (above_weaken V (visited_urls s)); [exact Hs | apply Hf].
    + cbn. split; [exact Hs | exact Logic.I].
  - intros [Hs Hk]. split; [exact Hs |]. intros r s'. apply IH, Hk.
  - intros [Hs Hk]. split; [exact Hs |]. intros r s'. apply IH, Hk.
Qed.

Lemma above_catch {A : Type} (V : gset string) (t : Step A) (h : exn -> Task A) :
  above V t -> (forall e s, above (visited_urls s) (h e s)) ->
  above V (step_catch t h).
Proof.
  intros Ht Hh. revert V Ht.
  induction t as [r s | p url s k IH | pa c s k IH]; intros V; cbn.
  - intros [Hs _]. destruct r as [a | e].
    + cbn. split; [exact Hs | exact Logic.I].
    + apply (above_weaken V (visited_urls s)); [exact Hs | apply Hh].
  - intros [Hs Hk]. split; [exact Hs |]. intros r s'. apply IH, Hk.
  - intros [Hs Hk]. split; [exact Hs |]. intros r s'. apply IH, Hk.
Qed.

Lemma aboveT_ret {A : Type} (a : A) : aboveT (mret a).
Proof. intros s. cbn. split; [reflexivity | exact Logic.I]. Qed.
Lemma aboveT_raise {A : Type} (e : exn) : aboveT (@task_raise _ A e).
Proof. intros s. cbn. split; [reflexivity | exact Logic.I]. Qed.
Lemma aboveT_lift {A : Type} (c : Exc A) : aboveT (lift c).
Proof. intros s. cbn. split; [reflexivity | exact Logic.I]. Qed.
Lemma aboveT_read {A : Type} (f : Scraper -> A) : aboveT (read f).
Proof. intros s. cbn. split; [reflexivity | exact Logic.I]. Qed.
Lemma aboveT_modify (f : Scraper -> Scraper) :
  (forall s, visited_urls s ⊆ visited_urls (f s)) -> aboveT (modify f).
Proof. intros Hf s. cbn. split; [apply Hf | exact Logic.I]. Qed.
Lemma aboveT_get (p : profile) (url : string) : aboveT (await_get p url).
Proof.
  intros s. cbn. split; [reflexivity |]. intros r s'. cbn.
  split; [reflexivity | exact Logic.I].
Qed.
Lemma aboveT_write (pa c : string) : aboveT (await_write pa c).
Proof.
  intros s. cbn. split; [reflexivity |]. intros r s'. cbn.
  split; [reflexivity | exact Logic.I].
Qed.
Lemma aboveT_bind {A B : Type} (m : Task A) (f : A -> Task B) :
  aboveT m -> (forall a, aboveT (f a)) -> aboveT (m ≫= f).
Proof. intros Hm Hf s. apply above_bind; [apply Hm | intros a s'; apply Hf]. Qed.
Lemma aboveT_try {A : Type} (m : Task A) (h : exn -> Task A) :
  aboveT m -> (forall e, aboveT (h e)) -> aboveT (task_try m h).
Proof. intros Hm Hh s. apply above_catch; [apply Hm | intros e s'; apply Hh]. Qed.
Lemma aboveT_for_each {A S : Type} (l : list A) (body : S -> A -> Task S) (acc : S) :
  (forall acc x, aboveT (body acc x)) -> aboveT (for_each l body acc).
Proof.
  intros Hb. revert acc. induction l as [| x r IH]; intros acc; cbn [for_each].
  - apply aboveT_ret.
  - apply aboveT_bind; [apply Hb | intros acc'; apply IH].
Qed.

End Above.

Ltac above_step :=
  lazymatch goal with
  | |- aboveT (mbind _ _) => apply aboveT_bind; [| intros ?]
  | |- aboveT (task_try _ _) => apply aboveT_try; [| intros ?]
  | |- aboveT (mret _) => apply aboveT_ret
  | |- aboveT (task_raise _) => apply aboveT_raise
  | |- aboveT (lift _) => apply aboveT_lift
  | |- aboveT (read _) => apply aboveT_read
  | |- aboveT (await_get _ _) => apply aboveT_get
  | |- aboveT (await_write _ _) => apply aboveT_write
  | |- aboveT (modify _) =>
      apply aboveT_modify; intros ?; cbn; first [reflexivity | set_solver]
  | |- aboveT (for_each _ _ _) => apply aboveT_for_each; intros ? ?
  | |- aboveT (if ?b then _ else _) => destruct b
  | |- aboveT (match ?x with _ => _ end) => destruct x
  | |- aboveT (let _ := _ in _) => cbv zeta
  end.

Section AboveFunctions.
Context `{PyLib} `{RobotLib} `{SoupLib}.
Variable cfg : Config.

Lemma aboveT_download_asset url asset_type referer :
  aboveT (download_asset cfg url asset_type referer).
Proof. unfold download_asset, store_asset, fail_asset. repeat above_step. Qed.

Lemma aboveT_rewrite_css_urls css base_url :
  aboveT (rewrite_css_urls cfg css base_url).
Proof.
  unfold rewrite_css_urls. apply aboveT_for_each. intros acc url.
  unfold rewrite_css_url. repeat above_step. apply aboveT_download_asset.
Qed.

Lemma aboveT_rewrite_html_urls html base_url :
  aboveT (rewrite_html_urls cfg html base_url).
Proof.
  unfold rewrite_html_urls, rewrite_style_tag, rewrite_style_attr,
    apply_asset_task, rewrite_anchor.
  repeat first
    [above_step | apply aboveT_rewrite_css_urls | apply aboveT_download_asset].
Qed.

Lemma aboveT_count_page : aboveT (modify (count_page cfg)).
Proof.
  apply aboveT_modify. intros s. unfold count_page.
  destruct (_ <=? _)%Z; reflexivity.
Qed.

Lemma aboveT_process_url url depth : aboveT (process_url cfg url depth).
Proof.
  unfold process_url, check_limits, fetch_page, can_fetch, add_failed,
    add_page, enqueue_new, save_page_content.
  repeat first
    [ apply aboveT_count_page
    | above_step
    | apply aboveT_rewrite_html_urls ].
Qed.
End AboveFunctions.

Lemma page_urls_log (l : list (profile * string)) (p : profile) (url : string) :
  page_urls (l ++ [(p, url)])
  = (page_urls l ++ if decide (p = PageHeaders) then [url] else [])%list.
Proof.
  unfold page_urls. rewrite omap_app. cbn.
  destruct (decide (p = PageHeaders)); reflexivity.
Qed.

Lemma owned_insert (owners : list (option string)) (i : nat) (o : option string) :
  (i < length owners)%nat ->
  omap id (<[i := o]> owners)
  ≡ₚ (option_list o ++ omap id (<[i := None]> owners))%list.
Proof.
  revert i. induction owners as [| x owners IH]; intros i Hi; cbn in Hi; [lia |].
  destruct i as [| i]; cbn.
  - destruct o; reflexivity.
  - destruct x as [u |]; cbn.
    + rewrite (IH i) by lia. apply Permutation_middle.
    + apply IH. lia.
Qed.

Lemma count_requests_NoDup (w : World) (u : string) :
  NoDup (page_urls (http_log w)) ->
  (count_requests w PageHeaders u <= 1)%nat.
Proof.
  unfold count_requests. generalize (http_log w) as l.
  assert (Hnone : forall l, u ∉ page_urls l ->
            List.filter (fun r => bool_decide (fst r = PageHeaders)
                                  && String.eqb (snd r) u) l = []).
  { induction l as [| [p v] l IH]; [reflexivity |]. cbn.
    destruct (decide (p = PageHeaders)) as [-> | Hne]; cbn.
    - intros Hn. apply not_elem_of_cons in Hn as [Hv Hn].
      destruct (String.eqb_spec v u) as [-> | _]; [contradiction |].
      apply IH, Hn.
    - rewrite bool_decide_eq_false_2 by exact Hne. cbn. apply IH. }
  induction l as [| [p v] l IH]; cbn; [intros _; apply Nat.le_0_1 |].
  destruct (decide (p = PageHeaders)) as [-> | Hne]; cbn.
  - intros Hnd. apply NoDup_cons in Hnd as [Hv Hnd].
    destruct (String.eqb_spec v u) as [-> | _]; cbn.
    + rewrite (Hnone l Hv), bool_decide_eq_true_2 by reflexivity. cbn.
      apply le_n.
    + apply IH, Hnd.
  - rewrite bool_decide_eq_false_2 by exact Hne. cbn. apply IH.
Qed.

Section System.
Context `{PyLib} `{RobotLib} `{SoupLib}.
Variable cfg : Config.

(** A worker that moves to [t] keeps the invariant, when [t] owes what
    the worker owns and the pages owned and requested stay distinct. *)
Lemma settle_once (sys : Sys) (i : nat) (t : Step unit)
    (owners : list (option string)) (o : option string) :
  Forall2 cont_ok owners (workers sys) ->
  (i < length owners)%nat ->
  NoDup (page_urls (http_log (world sys)) ++ omap id (<[i := o]> owners))%list ->
  (forall u, u ∈ (page_urls (http_log (world sys))
                  ++ omap id (<[i := None]> owners))%list ->
             u ∈ visited_urls (shared sys)) ->
  (forall u, o = Some u -> suspended t = true -> u ∈ visited_urls (handed_back t)) ->
  obl o t ->
  above (visited_urls (shared sys)) t ->
  once_inv (settle sys i t).
Proof.
  intros Hw Hi Hnd Hvis Ho Hobl Habove.
  pose proof (owned_insert owners i o Hi) as Hperm.
  rewrite Hperm in Hnd.
  assert (Hgrow : visited_urls (shared sys) ⊆ visited_urls (handed_back t))
    by (destruct t; exact (proj1 Habove)).
  destruct t as [r s | p url s k | pa c s k]; cbn [settle].
  - (* the task ended *)
    exists (<[i := None]> owners). cbn. split; [| split].
    + apply Forall2_insert; [exact Hw | reflexivity].
    + apply NoDup_app in Hnd as (Hn1 & Hn2 & Hn3).
      apply NoDup_app in Hn3 as (_ & _ & Hn3).
      apply NoDup_app. split; [exact Hn1 | split; [| exact Hn3]].
      intros x Hx Hx'. apply (Hn2 x Hx). apply elem_of_app. right. exact Hx'.
    + intros u Hu. apply Hgrow, Hvis, Hu.
  - destruct (decide (p = PageHeaders)) as [-> | Hne].
    + (* the page is requested *)
      destruct o as [u |]; cbn in Hobl; [| destruct Hobl as [Hq _]; contradiction].
      destruct Hobl as [Hpage _]. destruct (Hpage eq_refl) as [-> Hk].
      exists (<[i := None]> owners). cbn. split; [| split].
      * apply Forall2_insert; [exact Hw |]. cbn.
        split; [exact (proj2 Habove) |]. split; [reflexivity | exact Hk].
      * rewrite page_urls_log. cbn. rewrite <- app_assoc. exact Hnd.
      * rewrite page_urls_log. cbn. rewrite <- app_assoc. intros x Hx.
        apply elem_of_app in Hx as [Hx | Hx].
        { apply Hgrow, Hvis, elem_of_app. left. exact Hx. }
        apply elem_of_cons in Hx as [-> | Hx].
        { apply (Ho u eq_refl eq_refl). }
        apply Hgrow, Hvis, elem_of_app. right. exact Hx.
    + (* another request *)
      exists (<[i := o]> owners). cbn. split; [| split].
      * apply Forall2_insert; [exact Hw |]. cbn.
        split; [exact (proj2 Habove) |].
        rewrite decide_False by exact Hne.
        destruct o as [u |]; cbn in Hobl |- *.
        { exact (proj2 Hobl Hne). }
        { exact (proj2 Hobl). }
      * rewrite page_urls_log, decide_False by exact Hne.
        rewrite app_nil_r, Hperm. exact Hnd.
      * rewrite page_urls_log, decide_False by exact Hne.
        rewrite app_nil_r. intros x Hx. rewrite Hperm in Hx.
        apply elem_of_app in Hx as [Hx | Hx].
        { apply Hgrow, Hvis, elem_of_app. left. exact Hx. }
        apply elem_of_app in Hx as [Hx | Hx].
        { destruct o as [u |]; cbn in Hx; [| inversion Hx].
          apply list_elem_of_singleton in Hx as ->.
          apply (Ho u eq_refl eq_refl). }
        apply Hgrow, Hvis, elem_of_app. right. exact Hx.
  - (* a write *)
    exists (<[i := o]> owners). cbn. split; [| split].
    + apply Forall2_insert; [exact Hw |]. cbn.
      split; [exact (proj2 Habove) |].
      destruct o as [u |]; cbn in Hobl |- *; exact Hobl.
    + rewrite Hperm. exact Hnd.
    + intros x Hx. rewrite Hperm in Hx.
      apply elem_of_app in Hx as [Hx | Hx].
      { apply Hgrow, Hvis, elem_of_app. left. exact Hx. }
      apply elem_of_app in Hx as [Hx | Hx].
      { destruct o as [u |]; cbn in Hx; [| inversion Hx].
        apply list_elem_of_singleton in Hx as ->.
        apply (Ho u eq_refl eq_refl). }
      apply Hgrow, Hvis, elem_of_app. right. exact Hx.
Qed.

Lemma owned_repeat_None (n : nat) : omap id (repeat (@None string) n) = [].
Proof. induction n as [| n IH]; [reflexivity | exact IH]. Qed.

Lemma http_log_record_write (w : World) (pa c : string) (r : Exc unit) :
  http_log (record_write w pa c r) = http_log w.
Proof. destruct r; reflexivity. Qed.

(** A worker that carries on from a suspension point. *)
Lemma resume_once (sys : Sys) (w' : World) (i : nat) (t : Step unit)
    (owners : list (option string)) (o : option string) :
  http_log w' = http_log (world sys) ->
  Forall2 cont_ok owners (workers sys) ->
  owners !! i = Some o ->
  NoDup (page_urls (http_log (world sys)) ++ omap id owners)%list ->
  (forall u, u ∈ (page_urls (http_log (world sys)) ++ omap id owners)%list ->
             u ∈ visited_urls (shared sys)) ->
  obl o t ->
  above (visited_urls (shared sys)) t ->
  once_inv (settle (mkSys (shared sys) w' (workers sys)) i t).
Proof.
  intros Hlog Hw Hoi Hnd Hvis Hobl Habove.
  assert (Hi : (i < length owners)%nat) by (eapply lookup_lt_Some; exact Hoi).
  assert (Hsame : <[i := o]> owners = owners) by (apply list_insert_id; exact Hoi).
  pose proof (owned_insert owners i o Hi) as Hperm. rewrite Hsame in Hperm.
  apply (settle_once (mkSys (shared sys) w' (workers sys)) i t owners o);
    cbn; rewrite ?Hlog, ?Hsame; try assumption.
  - intros u Hu. apply Hvis. rewrite Hperm.
    apply elem_of_app in Hu as [Hu | Hu]; apply elem_of_app; [left; exact Hu |].
    right. apply elem_of_app. right. exact Hu.
  - intros u -> _. apply (above_sub _ t Habove).
    apply Hvis. apply elem_of_app. right.
    apply (list_elem_of_omap id owners u). exists (Some u).
    split; [| reflexivity]. apply list_elem_of_lookup. exists i. exact Hoi.
Qed.

(** The invariant holds in every state the workers can reach: the page
    requests of the log and the pages the workers own are distinct, and
    all are in [visited_urls]. *)
Theorem page_requested_once (sys : Sys) :
  reachable cfg sys -> once_inv sys.
Proof.
  induction 1 as [| sys sys' Hr IH Hstep].
  - exists (repeat None (max_workers cfg)). cbn.
    rewrite owned_repeat_None. split; [| split].
    + induction (max_workers cfg) as [| n IHn]; cbn; constructor;
        [reflexivity | exact IHn].
    + constructor.
    + intros u Hu. inversion Hu.
  - destruct IH as (owners & Hw & Hnd & Hvis).
    destruct Hstep as [i url depth q Hwk Hstop Hq | url depth q Hstop Hq
                      | i p url s0 k r Hwk | i pa c s0 k r Hwk].
    + (* an item is taken *)
      destruct (Forall2_lookup_r _ _ _ _ _ Hw Hwk) as (o & Hoi & Hc).
      cbn in Hc. subst o.
      assert (Hi : (i < length owners)%nat) by (eapply lookup_lt_Some; exact Hoi).
      assert (Hsame : <[i := None]> owners = owners)
        by (apply list_insert_id; exact Hoi).
      destruct (decide (url ∈ visited_urls (shared sys))) as [Hin | Hnin].
      * rewrite (process_url_visited cfg (set_queue q (shared sys)) url depth Hin).
        apply (settle_once sys i _ owners None); cbn; rewrite ?Hsame;
          try assumption; try exact Logic.I.
        { intros u Hu. discriminate. }
        { split; [reflexivity | exact Logic.I]. }
      * apply (settle_once sys i _ owners (Some url)); cbn; rewrite ?Hsame;
          try assumption.
        { rewrite (owned_insert owners i (Some url) Hi), Hsame. cbn.
          apply NoDup_app in Hnd as (Hn1 & Hn2 & Hn3).
          apply NoDup_app. split; [exact Hn1 | split].
          - intros x Hx Hx'. apply elem_of_cons in Hx' as [-> | Hx'].
            + apply Hnin, Hvis, elem_of_app. left. exact Hx.
            + exact (Hn2 x Hx Hx').
          - apply NoDup_cons. split; [| exact Hn3].
            intros Hx. apply Hnin, Hvis, elem_of_app. right. exact Hx. }
        { intros u [= <-] Hs.
          exact (process_url_marks_before_suspending cfg
                   (set_queue q (shared sys)) url depth Hs). }
        { apply owesT_process_url. }
        { exact (aboveT_process_url cfg url depth (set_queue q (shared sys))). }
    + (* an item is dropped *)
      exists owners. cbn. split; [exact Hw | split; [exact Hnd | exact Hvis]].
    + (* a response *)
      destruct (Forall2_lookup_r _ _ _ _ _ Hw Hwk) as (o & Hoi & Hc).
      cbn in Hc. destruct Hc as [Habove Hc].
      replace sys with (mkSys (shared sys) (world sys) (workers sys))
        at 1 by (destruct sys; reflexivity).
      apply (resume_once sys (world sys) i _ owners o); try assumption;
        [reflexivity | | apply Habove].
      destruct (decide (p = PageHeaders)).
      * destruct Hc as [-> Hq]. apply Hq.
      * apply Hc.
    + (* a write *)
      destruct (Forall2_lookup_r _ _ _ _ _ Hw Hwk) as (o & Hoi & Hc).
      cbn in Hc. destruct Hc as [Habove Hc].
      apply (resume_once sys _ i _ owners o); try assumption;
        [apply http_log_record_write | apply Hc | apply Habove].
Qed.

(** No page URL has two requests in the log of a reachable state. *)
Corollary page_requests_at_most_one (sys : Sys) (u : string) :
  reachable cfg sys -> (count_requests (world sys) PageHeaders u <= 1)%nat.
Proof.
  intros Hr. destruct (page_requested_once sys Hr) as (owners & _ & Hnd & _).
  apply count_requests_NoDup. apply NoDup_app in Hnd as [Hnd _]. exact Hnd.
Qed.

End System.

Section OnceTheorem.
Context `{PyLib} `{RobotLib} `{SoupLib}.
Variable cfg : Config.


End OnceTheorem.



(** ** The cap on the pages *)

(** C1: with two workers and a cap of two pages, both workers pass
    [check_limits] while one page is counted, both fetch, and both count
    their page: three pages are counted and stored. *)
Theorem page_cap_passed_by_two_workers :
  exists sys : Sys,
    @reachable UrlLib.lib MiniRobots.lib MiniSoup.lib Site.cfg_cap sys
    /\ max_pages Site.cfg_cap = 2%Z
    /\ pages_scraped_count (shared sys) = 3%Z
    /\ size (scraped_data (shared sys)) = 3%nat.
Proof.
  assert (Hc :
    match @perform_all UrlLib.lib MiniRobots.lib MiniSoup.lib Site.cfg_cap
            (init_sys Site.cfg_cap) Site.schedule_cap with
    | Some sys => max_pages Site.cfg_cap = 2%Z
                  /\ pages_scraped_count (shared sys) = 3%Z
                  /\ size (scraped_data (shared sys)) = 3%nat
    | None => False
    end) by (vm_compute; repeat split; reflexivity).
  destruct (@perform_all UrlLib.lib MiniRobots.lib MiniSoup.lib Site.cfg_cap
              (init_sys Site.cfg_cap) Site.schedule_cap) as [sys |] eqn:E;
    [| contradiction].
  exists sys. split; [| exact Hc].
  eapply perform_all_reachable; [apply reach_init | exact E].
Qed.

(** The count and the signal are set in one piece: the increment that
    reaches the cap sets [should_stop]. *)
Lemma count_page_sets_signal (cfg : Config) `{RobotLib} (s : Scraper) :
  (max_pages cfg <= pages_scraped_count s + 1)%Z ->
  should_stop (count_page cfg s) = true
  /\ pages_scraped_count (count_page cfg s) = (pages_scraped_count s + 1)%Z.
Proof.
  intros Hle. unfold count_page. cbn.
  destruct (Z.leb_spec (max_pages cfg) (pages_scraped_count s + 1)); [| lia].
  split; reflexivity.
Qed.

(** ** Scenario S6: a link that robots.txt closes *)

Section RobotsDeny.
Context `{PyLib} `{RobotLib} `{SoupLib}.
Variable cfg : Config.

(** A URL that passes the admission and that the cached rules close is
    added to [visited_urls] and nothing else happens: no request, no
    record, no count. *)
Lemma process_url_robots_denied (s : Scraper) (url : string) (depth : Z)
    (p : ParseResult) (rp : robot_rules) :
  should_stop s = false ->
  url ∉ visited_urls s ->
  (depth <= max_depth cfg)%Z ->
  (pages_scraped_count s < max_pages cfg)%Z ->
  urlparse url = Ret p ->
  (default 0 (domain_counts s !! netloc p) < pages_per_domain cfg)%Z ->
  respect_robots cfg = true ->
  robots_cache s !! origin_of p = Some rp ->
  robots_can_fetch rp "WebArchiver/1.0" url = false ->
  process_url cfg url depth s
  = Done (Ret tt) (set_visited_urls ({[url]} ∪ visited_urls s) s).
Proof.
  intros Hstop Hv Hd Hc Hp Hdc Hr Hrc Hdeny.
  unfold process_url, check_limits, fetch_page, can_fetch. task_step.
  rewrite Hstop. rewrite bool_decide_eq_false_2 by exact Hv.
  destruct (Z.ltb_spec (max_depth cfg) depth); [lia |]. cbn. task_step.
  destruct (Z.leb_spec (max_pages cfg) (pages_scraped_count s)); [lia |].
  task_step. rewrite Hp. task_step.
  destruct (Z.leb_spec (pages_per_domain cfg)
              (default 0%Z (domain_counts s !! netloc p))); [lia |].
  task_step. rewrite Hr. task_step. cbn.
  rewrite Hrc. cbn. rewrite Hrc. cbn. rewrite Hdeny. reflexivity.
Qed.

(** An anchor whose target is not in [visited_urls] gets the absolute
    URL. *)
Lemma rewrite_anchor_not_visited (s : Scraper) (soup : list element)
    (i : nat) (a : element) (base_url absolute_url : string) :
  soup !! i = Some a ->
  is_page_link (Soup.attr_value a "href") = true ->
  urljoin base_url (Soup.attr_value a "href") = Ret absolute_url ->
  absolute_url ∉ visited_urls s ->
  rewrite_anchor base_url soup i s
  = Done (Ret (<[i := Soup.set_attr a "href" absolute_url]> soup)) s.
Proof.
  intros Hi Hl Hj Hv. unfold rewrite_anchor. rewrite Hi, Hl.
  task_step. rewrite Hj. task_step.
  rewrite bool_decide_eq_false_2 by exact Hv.
  unfold Soup.update. rewrite Hi. reflexivity.
Qed.

End RobotsDeny.

(** C9: in scenario S6 the crawl ends with [/private] in [visited_urls]
    and without a record, no request for the page was made, and the page
    stored for the seed links to the absolute URL of [/private]. *)
Theorem robots_denied_link_scenario :
  let out :=
    @crawl UrlLib.lib MiniRobots.lib MiniSoup.lib Site.cfg 10 Site.env_private
      (shared (init_sys Site.cfg)) Site.no_world in
  queue (fst out) = []
  /\ scraped_data (fst out) !! "http://h/private" = None
  /\ "http://h/private" ∈ visited_urls (fst out)
  /\ count_requests (snd out) PageHeaders "http://h/private" = 0%nat
  /\ (pr_filepath <$> scraped_data (fst out) !! "http://h/a")
     = Some (Some "out/html/2ce7276502725c281e6d5ae4e55aed55.html")
  /\ disk (snd out) !! "out/html/2ce7276502725c281e6d5ae4e55aed55.html"
     = Some "<a href='http://h/private'>x</a>".
Proof.
  intros out.
  split; [vm_compute; reflexivity |].
  split; [vm_compute; reflexivity |].
  split; [apply (bool_decide_unpack _); vm_compute; exact I |].
  split; [vm_compute; reflexivity |].
  split; vm_compute; reflexivity.
Qed.

(** ** [srcset] *)

Lemma join_cons (sep x y : string) (l : list string) :
  Py.join sep (x :: y :: l) = x ++ sep ++ Py.join sep (y :: l).
Proof. reflexivity. Qed.

Lemma split_on_not_nil (c : ascii) (s : string) : Py.split_on c s <> [].
Proof.
  destruct s as [| a t]; cbn; [discriminate |].
  destruct (Ascii.eqb a c); [discriminate |].
  destruct (Py.split_on c t); discriminate.
Qed.

(** [sep.join(s.split(sep)) == s] for a separator of one character. *)
Lemma join_split_on (c : ascii) (s : string) :
  Py.join (String c EmptyString) (Py.split_on c s) = s.
Proof.
  induction s as [| a t IH]; [reflexivity |].
  cbn [Py.split_on].
  destruct (Py.split_on c t) as [| h r] eqn:Hs;
    [exfalso; exact (split_on_not_nil c t Hs) |].
  destruct (Ascii.eqb_spec a c) as [-> | Hne].
  - rewrite join_cons, IH. reflexivity.
  - destruct r as [| h' r'].
    + cbn in IH |- *. rewrite IH. reflexivity.
    + rewrite join_cons in IH |- *. subst t. reflexivity.
Qed.

(** On a download that succeeded, a candidate with another URL is kept,
    its descriptors with it, save for the space around it. *)
Lemma srcset_candidate_kept (original_url relative_path part : string) :
  hd "" (Py.split_on " " (Py.strip part)) <> original_url ->
  srcset_candidate original_url relative_path part = Py.strip part.
Proof.
  intros Hne. unfold srcset_candidate.
  destruct (Py.split_on " " (Py.strip part)) as [| first rest] eqn:Hs.
  - rewrite <- (join_split_on " " (Py.strip part)), Hs. reflexivity.
  - cbn in Hne. destruct (String.eqb_spec first original_url) as [-> | _];
      [contradiction |].
    rewrite <- Hs. apply (join_split_on " ").
Qed.

(** The candidate of the URL that was downloaded gets the local path in
    place of its URL and keeps its descriptors. *)
Lemma srcset_candidate_replaced (original_url relative_path part : string)
    (descriptors : list string) :
  Py.split_on " " (Py.strip part) = original_url :: descriptors ->
  srcset_candidate original_url relative_path part
  = Py.join " " (relative_path :: descriptors).
Proof.
  intros Hs. unfold srcset_candidate. rewrite Hs, String.eqb_refl. reflexivity.
Qed.

(** C8: when the download of one candidate fails, the whole [srcset] is
    overwritten with the absolute URL of that candidate: the descriptor
    is lost, and so is the other candidate, whose download succeeded. *)
Theorem srcset_lost_when_a_download_fails :
  let out :=
    @run MiniRobots.lib _ Site.env_srcset
      (@rewrite_html_urls UrlLib.lib MiniRobots.lib MiniSoup.lib Site.cfg
         Site.srcset_html "http://h/p" init_scraper) Site.no_world in
  fst (fst out) = Ret "<img srcset='http://h/a.png'></img>"
  /\ asset_map (snd (fst out)) !! "http://h/b.png"
     = Some "images/e4938a6a6b2137221031c06709fb3b54.png".
Proof. vm_compute. split; reflexivity. Qed.

(** When both downloads succeed the two URL tokens are replaced and the
    descriptors stay. *)
Example srcset_rewritten_when_downloads_succeed :
  fst (fst (@run MiniRobots.lib _ Site.env_srcset_both
              (@rewrite_html_urls UrlLib.lib MiniRobots.lib MiniSoup.lib Site.cfg
                 Site.srcset_html "http://h/p" init_scraper) Site.no_world))
  = Ret ("<img srcset='../images/9ef778804fd929ca71a038547aea542b.png 1x, "
         ++ "../images/e4938a6a6b2137221031c06709fb3b54.png 2x'></img>").
Proof. vm_compute. reflexivity. Qed.

(** ** Invariants of the worker system *)

Section InvariantRules.
Context `{RobotLib}.
Variable I : Scraper -> World -> Prop.

Lemma wpI_mono {A : Type} (t : Step A) (w : World)
    (Q Q' : Exc A -> Scraper -> World -> Prop) :
  (forall r s w', Q r s w' -> Q' r s w') -> wpI I t w Q -> wpI I t w Q'.
Proof.
  intros HQ. revert w.
  induction t as [r s | p url s k IH | pa c s k IH]; intros w; cbn.
  - apply HQ.
  - intros [Hi Hk]. split; [exact Hi |]. intros r s' w' Hs. apply IH, Hk, Hs.
  - intros [Hi Hk]. split; [exact Hi |]. intros r s' w' Hs. apply IH, Hk, Hs.
Qed.

Lemma wpI_bind {A B : Type} (t : Step A) (f : A -> Task B) (w : World)
    (Q : Exc B -> Scraper -> World -> Prop) :
  wpI I t w (fun r s w' =>
               match r with
               | Ret a => wpI I (f a s) w' Q
               | Raise e => Q (Raise e) s w'
               end) ->
  wpI I (step_bind t f) w Q.
Proof.
  revert w.
  induction t as [r s | p url s k IH | pa c s k IH]; intros w; cbn.
  - destruct r; auto.
  - intros [Hi Hk]. split; [exact Hi |]. intros r s' w' Hs. apply IH, Hk, Hs.
  - intros [Hi Hk]. split; [exact Hi |]. intros r s' w' Hs. apply IH, Hk, Hs.
Qed.

Lemma wpI_catch {A : Type} (t : Step A) (h : exn -> Task A) (w : World)
    (Q : Exc A -> Scraper -> World -> Prop) :
  wpI I t w (fun r s w' =>
               match r with
               | Ret a => Q (Ret a) s w'
               | Raise e => wpI I (h e s) w' Q
               end) ->
  wpI I (step_catch t h) w Q.
Proof.
  revert w.
  induction t as [r s | p url s k IH | pa c s k IH]; intros w; cbn.
  - destruct r; auto.
  - intros [Hi Hk]. split; [exact Hi |]. intros r s' w' Hs. apply IH, Hk, Hs.
  - intros [Hi Hk]. split; [exact Hi |]. intros r s' w' Hs. apply IH, Hk, Hs.
Qed.

Hypothesis I_log : forall s w p url, I s w -> I s (log_request w p url).
Hypothesis I_write : forall s w pa c r, I s w -> I s (record_write w pa c r).

Lemma keeps_ret {A : Type} (a : A) : keeps I (mret a).
Proof. intros s w Hi. exact Hi. Qed.

Lemma keeps_raise {A : Type} (e : exn) : keeps I (@task_raise _ A e).
Proof. intros s w Hi. exact Hi. Qed.

Lemma keeps_lift {A : Type} (c : Exc A) : keeps I (lift c).
Proof. intros s w Hi. exact Hi. Qed.

Lemma keeps_read {A : Type} (f : Scraper -> A) : keeps I (read f).
Proof. intros s w Hi. exact Hi. Qed.

Lemma keeps_modify (f : Scraper -> Scraper) :
  (forall s w, I s w -> I (f s) w) -> keeps I (modify f).
Proof. intros Hf s w Hi. cbn. apply Hf, Hi. Qed.

Lemma keeps_get (p : profile) (url : string) : keeps I (await_get p url).
Proof.
  intros s w Hi. cbn. split; [apply I_log, Hi |]. intros r s' w' Hs. exact Hs.
Qed.

Lemma keeps_write (pa c : string) : keeps I (await_write pa c).
Proof.
  intros s w Hi. cbn. split; [exact Hi |]. intros r s' w' Hs.
  apply I_write, Hs.
Qed.

Lemma keeps_bind {A B : Type} (m : Task A) (f : A -> Task B) :
  keeps I m -> (forall a, keeps I (f a)) -> keeps I (m ≫= f).
Proof.
  intros Hm Hf s w Hi. unfold mbind, Task_bind, task_bind.
  apply wpI_bind. eapply wpI_mono; [| apply Hm, Hi].
  intros [a | e] s' w' Hs; [apply Hf, Hs | exact Hs].
Qed.

Lemma keeps_try {A : Type} (m : Task A) (h : exn -> Task A) :
  keeps I m -> (forall e, keeps I (h e)) -> keeps I (task_try m h).
Proof.
  intros Hm Hh s w Hi. unfold task_try.
  apply wpI_catch. eapply wpI_mono; [| apply Hm, Hi].
  intros [a | e] s' w' Hs; [exact Hs | apply Hh, Hs].
Qed.

Lemma keeps_for_each {A S : Type} (l : list A) (body : S -> A -> Task S)
    (acc : S) :
  (forall acc x, keeps I (body acc x)) -> keeps I (for_each l body acc).
Proof.
  intros Hb. revert acc. induction l as [| x r IH]; intros acc; cbn [for_each].
  - apply keeps_ret.
  - apply keeps_bind; [apply Hb | intros acc'; apply IH].
Qed.

End InvariantRules.

Section Sound.
Context `{PyLib} `{RobotLib} `{SoupLib}.
Variable cfg : Config.
Variable I : Scraper -> World -> Prop.

Hypothesis I_init : I (shared (init_sys cfg)) (world (init_sys cfg)).
Hypothesis I_queue : forall s w q, I s w -> I (set_queue q s) w.
Hypothesis I_process : forall url depth, keeps I (process_url cfg url depth).

Lemma settle_ok (sys : Sys) (i : nat) (t : Step unit) :
  Forall (waiting_ok I) (workers sys) ->
  wpI I t (world sys) (fun _ s w => I s w) ->
  sys_ok I (settle sys i t).
Proof.
  intros Hw Ht. destruct t as [r s | p url s k | pa c s k]; cbn in *.
  - split; [exact Ht |]. apply Forall_insert; [exact Hw | exact Logic.I].
  - destruct Ht as [Hi Hk]. split; [exact Hi |].
    apply Forall_insert; [exact Hw | exact Hk].
  - destruct Ht as [Hi Hk]. split; [exact Hi |].
    apply Forall_insert; [exact Hw | exact Hk].
Qed.

(** A property that holds at the start, that taking an item from the
    queue keeps and that [process_url] keeps from one suspension point to
    the next holds in every state the workers can reach, whatever the
    order of their steps and the answers they get. *)
Lemma reachable_invariant (sys : Sys) : reachable cfg sys -> sys_ok I sys.
Proof.
  induction 1 as [| sys sys' Hr IH Hstep].
  - split; [exact I_init |]. cbn. apply Forall_forall. intros x Hx.
    apply list_elem_of_In, repeat_spec in Hx. subst x. exact Logic.I.
  - destruct IH as [Hi Hw].
    destruct Hstep as [i url depth q Hwk Hstop Hq | url depth q Hstop Hq
                      | i p url s0 k r Hwk | i pa c s0 k r Hwk].
    + apply settle_ok; [exact Hw |]. apply I_process, I_queue, Hi.
    + split; [apply I_queue, Hi | exact Hw].
    + apply settle_ok; [exact Hw |].
      pose proof (Forall_lookup_1 _ _ _ _ Hw Hwk) as Hk. cbn in Hk.
      apply Hk, Hi.
    + apply (settle_ok (mkSys (shared sys) (record_write (world sys) pa c r)
                              (workers sys)) i); [exact Hw |].
      pose proof (Forall_lookup_1 _ _ _ _ Hw Hwk) as Hk. cbn in Hk.
      apply Hk, Hi.
Qed.

End Sound.

(** ** Stored pages *)

Section Paths.
Context `{PyLib} `{RobotLib} `{SoupLib}.
Variable cfg : Config.

Lemma paths_exist_log s w p url :
  paths_exist s w -> paths_exist s (log_request w p url).
Proof. intros Hi. exact Hi. Qed.

Lemma paths_exist_write s w pa c r :
  paths_exist s w -> paths_exist s (record_write w pa c r).
Proof.
  intros Hi u rec p Hu Hp. destruct r as [[] | e]; cbn.
  - apply lookup_insert_is_Some'. right. exact (Hi u rec p Hu Hp).
  - exact (Hi u rec p Hu Hp).
Qed.

Ltac keeps_step :=
  lazymatch goal with
  | |- keeps _ (mbind _ _) => apply keeps_bind; [| intros ?]
  | |- keeps _ (task_try _ _) => apply keeps_try; [| intros ?]
  | |- keeps _ (mret _) => apply keeps_ret
  | |- keeps _ (task_raise _) => apply keeps_raise
  | |- keeps _ (lift _) => apply keeps_lift
  | |- keeps _ (read _) => apply keeps_read
  | |- keeps _ (await_get _ _) => apply keeps_get; exact paths_exist_log
  | |- keeps _ (await_write _ _) => apply keeps_write; exact paths_exist_write
  | |- keeps _ (modify _) =>
      apply keeps_modify; let Hi := fresh in intros ? ? Hi; exact Hi
  | |- keeps _ (for_each _ _ _) => apply keeps_for_each; intros ? ?
  | |- keeps _ (if ?b then _ else _) => destruct b
  | |- keeps _ (match ?x with _ => _ end) => destruct x
  | |- keeps _ (let _ := _ in _) => cbv zeta
  end.

Lemma keeps_download_asset url asset_type referer :
  keeps paths_exist (download_asset cfg url asset_type referer).
Proof. unfold download_asset, store_asset, fail_asset. repeat keeps_step. Qed.

Lemma keeps_rewrite_css_urls css base_url :
  keeps paths_exist (rewrite_css_urls cfg css base_url).
Proof.
  unfold rewrite_css_urls. apply keeps_for_each. intros acc url.
  unfold rewrite_css_url. repeat keeps_step. apply keeps_download_asset.
Qed.

Lemma keeps_rewrite_html_urls html base_url :
  keeps paths_exist (rewrite_html_urls cfg html base_url).
Proof.
  unfold rewrite_html_urls, rewrite_style_tag, rewrite_style_attr,
    apply_asset_task, rewrite_anchor.
  repeat first
    [keeps_step | apply keeps_rewrite_css_urls | apply keeps_download_asset].
Qed.

Lemma keeps_can_fetch url agent : keeps paths_exist (can_fetch url agent).
Proof. unfold can_fetch. repeat keeps_step. Qed.

Lemma keeps_fetch_page url : keeps paths_exist (fetch_page cfg url).
Proof.
  unfold fetch_page, add_failed.
  repeat first [keeps_step | apply keeps_can_fetch].
Qed.

Lemma keeps_check_limits url : keeps paths_exist (check_limits cfg url).
Proof. unfold check_limits. repeat keeps_step. Qed.

Lemma keeps_count_page : keeps paths_exist (modify (count_page cfg)).
Proof.
  apply keeps_modify. intros s w Hi. unfold count_page.
  destruct (_ <=? _)%Z; exact Hi.
Qed.

(** The page is written and then recorded with what the write returned,
    in one piece: a record that names a file is made only when the write
    returned. *)
Lemma keeps_save_and_record (url content content_type domain : string)
    (depth : Z) (rest : Task unit) :
  keeps paths_exist rest ->
  keeps paths_exist
    (filepath ← save_page_content cfg url content content_type;
     modify (fun s =>
       set_scraped_data
         (<[url := mkPage url content_type filepath depth
                     (String.length content) domain]> (scraped_data s)) s);;
     rest).
Proof.
  intros Hrest s w Hi. unfold save_page_content. task_step. cbn.
  split; [exact Hi |]. intros r s' w' Hs.
  destruct r as [[] | e]; cbn; apply Hrest.
  - intros u rec p. cbn. destruct (decide (url = u)) as [<- | Hne].
    + rewrite lookup_insert_eq. intros [= <-] [= <-]. cbn.
      rewrite lookup_insert_eq. eexists; reflexivity.
    + rewrite lookup_insert_ne by exact Hne. intros Hu Hp.
      apply lookup_insert_is_Some'. right. exact (Hs u rec p Hu Hp).
  - intros u rec p. cbn. destruct (decide (url = u)) as [<- | Hne].
    + rewrite lookup_insert_eq. intros [= <-]. discriminate.
    + rewrite lookup_insert_ne by exact Hne. apply Hs.
Qed.

Lemma keeps_process_url url depth :
  keeps paths_exist (process_url cfg url depth).
Proof.
  unfold process_url, add_page, enqueue_new.
  repeat first
    [ apply keeps_save_and_record
    | apply keeps_count_page
    | keeps_step
    | apply keeps_check_limits
    | apply keeps_fetch_page
    | apply keeps_rewrite_html_urls ].
Qed.

(** What [save_page_content] does: one write; when it returns, the path;
    when it raises, [None], and the state is left as it is, so that
    nothing is counted as failed. *)
Lemma save_page_content_outcomes (s : Scraper) (url content content_type : string) :
  exists k,
    save_page_content cfg url content content_type s
    = WriteFile (page_filepath cfg url content_type) content s k
    /\ (forall s', k (Ret tt) s'
                   = Done (Ret (Some (page_filepath cfg url content_type))) s')
    /\ (forall e s', k (Raise e) s' = Done (Ret None) s').
Proof.
  unfold save_page_content. task_step. eexists. split; [reflexivity |].
  split; intros; reflexivity.
Qed.

End Paths.

(** C4 as stated fails: the page whose write raised is counted as scraped,
    not as failed, and has a record, whose path is null. *)
Lemma unwritten_page_is_recorded :
  let out :=
    @run MiniRobots.lib _ Site.env_disk_full
      (@process_url UrlLib.lib MiniRobots.lib MiniSoup.lib Site.cfg_two
         "http://h/a" 0%Z init_scraper) Site.no_world in
  (pr_filepath <$> scraped_data (snd (fst out)) !! "http://h/a") = Some None
  /\ st_pages_failed (stats (snd (fst out))) = 0%Z
  /\ st_pages_scraped (stats (snd (fst out))) = 1%Z
  /\ pages_scraped_count (snd (fst out)) = 1%Z
  /\ disk (snd out) !! "out/html/2ce7276502725c281e6d5ae4e55aed55.html" = None.
Proof. vm_compute. repeat split; reflexivity. Qed.

(** ** Text replacement *)

Lemma append_cons (x : ascii) (a b : string) :
  String x a ++ b = String x (a ++ b).
Proof. reflexivity. Qed.

Lemma append_nil (b : string) : "" ++ b = b.
Proof. reflexivity. Qed.

Lemma append_assoc_s (a b c : string) : (a ++ b) ++ c = a ++ b ++ c.
Proof.
  induction a as [| x a IH]; [reflexivity |].
  rewrite !append_cons, IH. reflexivity.
Qed.

Lemma has_char_app (c : ascii) (a b : string) :
  Py.has_char c (a ++ b) = Py.has_char c a || Py.has_char c b.
Proof.
  induction a as [| x a IH]; [reflexivity |].
  rewrite append_cons. cbn [Py.has_char]. rewrite IH. apply orb_assoc.
Qed.

Lemma prefix_app (a b : string) : String.prefix a (a ++ b) = true.
Proof.
  induction a as [| x a IH]; [destruct b; reflexivity |].
  rewrite append_cons. cbn [String.prefix].
  destruct (ascii_dec x x); [exact IH | contradiction].
Qed.

Lemma prefix_has_char (c : ascii) (old s : string) :
  String.prefix old s = true ->
  Py.has_char c old = true -> Py.has_char c s = true.
Proof.
  revert s. induction old as [| x old IH]; intros s; [intros _; discriminate |].
  destruct s as [| y s]; cbn; [discriminate |].
  destruct (ascii_dec x y) as [-> | _]; [| discriminate].
  intros Hp. cbn. destruct (Ascii.eqb y c); cbn; [reflexivity |].
  apply IH, Hp.
Qed.

Lemma replace_absent (c : ascii) (old new s : string) :
  Py.has_char c s = false -> Py.has_char c old = true ->
  Py.replace_from 0 old new s = s.
Proof.
  intros Hs Ho. induction s as [| a t IH]; [reflexivity |].
  cbn [Py.replace_from].
  destruct (String.prefix old (String a t)) eqn:Hp.
  - rewrite (prefix_has_char c old _ Hp Ho) in Hs. discriminate.
  - cbn in Hs. apply orb_false_elim in Hs as [_ Ht]. rewrite (IH Ht). reflexivity.
Qed.

Lemma replace_skip (old new x post : string) :
  Py.replace_from (String.length x) old new (x ++ post)
  = Py.replace_from 0 old new post.
Proof.
  induction x as [| a x IH]; [reflexivity |].
  rewrite append_cons. cbn [String.length Py.replace_from]. exact IH.
Qed.

Lemma replace_hit (c : ascii) (old new post : string) :
  old <> "" ->
  Py.has_char c post = false -> Py.has_char c old = true ->
  Py.replace_from 0 old new (old ++ post) = new ++ post.
Proof.
  intros Hne Hp Ho. destruct old as [| a old']; [contradiction |].
  rewrite append_cons. cbn [Py.replace_from].
  rewrite <- append_cons, prefix_app.
  cbn [String.length].
  replace (S (String.length old') - 1)%nat with (String.length old') by lia.
  rewrite replace_skip, (replace_absent c _ _ _ Hp Ho). reflexivity.
Qed.

Lemma prefix_after_shift (p x y : string) :
  Py.has_char "(" p = false -> p <> "" ->
  String.prefix ("url(" ++ x) (p ++ "url(" ++ y) = false.
Proof.
  intros Hp Hne.
  destruct p as [| a [| b [| c [| d p']]]]; [contradiction | | | |];
    rewrite ?append_cons, ?append_nil; cbn [String.prefix];
    repeat match goal with
           | |- context [ascii_dec ?u ?v] =>
               destruct (ascii_dec u v); try subst; try discriminate
           end; try reflexivity.
Qed.

Lemma prefix_after_shift_cons (a : ascii) (p x y : string) :
  Py.has_char "(" (String a p) = false ->
  String.prefix ("url(" ++ x) (String a (p ++ "url(" ++ y)) = false.
Proof.
  intros Hp. apply (prefix_after_shift (String a p) x y Hp). discriminate.
Qed.

Lemma replace_in_context_miss (pre R old_body new : string) :
  Py.has_char "(" pre = false -> Py.has_char "(" R = false ->
  String.prefix ("url(" ++ old_body) ("url(" ++ R) = false ->
  Py.replace (pre ++ "url(" ++ R) ("url(" ++ old_body) new = pre ++ "url(" ++ R.
Proof.
  intros Hpre HR Hmiss. unfold Py.replace.
  induction pre as [| a pre IH].
  - rewrite append_nil.
    assert (Ht : forall t, Py.has_char "(" t = false ->
              Py.replace_from 0 ("url(" ++ old_body) new t = t)
      by (intros t Ht; apply (replace_absent "("); [exact Ht | reflexivity]).
    rewrite ?append_cons, ?append_nil in *.
    cbn [Py.replace_from]. rewrite Hmiss.
    cbn [String.prefix].
    repeat match goal with
           | |- context [ascii_dec ?u ?v] =>
               destruct (ascii_dec u v); try discriminate
           end.
    rewrite (Ht R HR). reflexivity.
  - rewrite (append_cons a pre). cbn [Py.replace_from].
    rewrite (prefix_after_shift_cons a pre old_body R Hpre).
    cbn in Hpre. apply orb_false_elim in Hpre as [_ Hpre].
    rewrite (IH Hpre). reflexivity.
Qed.

Lemma replace_in_context_hit (pre post old_body new : string) :
  Py.has_char "(" pre = false -> Py.has_char "(" post = false ->
  Py.replace (pre ++ ("url(" ++ old_body) ++ post) ("url(" ++ old_body) new
  = pre ++ new ++ post.
Proof.
  intros Hpre Hpost. unfold Py.replace.
  induction pre as [| a pre IH].
  - rewrite !append_nil.
    apply (replace_hit "(" ("url(" ++ old_body));
      [discriminate | exact Hpost | reflexivity].
  - rewrite (append_cons a pre). cbn [Py.replace_from].
    rewrite (append_assoc_s "url(" old_body post).
    rewrite (prefix_after_shift_cons a pre old_body (old_body ++ post) Hpre).
    rewrite <- (append_assoc_s "url(" old_body post).
    cbn in Hpre. apply orb_false_elim in Hpre as [_ Hpre].
    rewrite (IH Hpre). reflexivity.
Qed.

Ltac prefix_mismatch :=
  unfold css_token, CssPattern.dquote, CssPattern.squote;
  rewrite ?append_cons, ?append_nil; cbn [String.prefix];
  repeat match goal with
         | |- context [ascii_dec ?u ?v] =>
             destruct (ascii_dec u v); try subst; try discriminate
         end; try reflexivity.

Lemma url_not_prefix_of_quoted (url rest : string) (q : ascii) :
  CssPattern.is_quote q = true ->
  CssPattern.all_in_group url = true ->
  String.prefix (url ++ ")") (String q rest) = false.
Proof.
  intros Hq Hg. destruct url as [| c u]; rewrite ?append_cons, ?append_nil;
    cbn [String.prefix].
  - destruct (ascii_dec ")" q) as [<- | _]; [discriminate Hq | reflexivity].
  - destruct (ascii_dec c q) as [-> | _]; [| reflexivity].
    cbn in Hg. unfold CssPattern.in_group in Hg. rewrite Hq in Hg. discriminate.
Qed.

Lemma css_substitute_token (pre post url lp q : string) :
  q = "" \/ q = CssPattern.squote \/ q = CssPattern.dquote ->
  Py.has_char "(" pre = false ->
  Py.has_char "(" post = false ->
  Py.has_char "(" url = false ->
  Py.has_char "(" lp = false ->
  CssPattern.all_in_group url = true ->
  css_substitute (pre ++ css_token q url ++ post) url ("../" ++ lp)
  = pre ++ css_token (quote_written q) ("../" ++ lp) ++ post.
Proof.
  intros Hq Hpre Hpost Hurl Hlp Hg. unfold css_substitute.
  assert (Hrel : forall x, Py.has_char "(" (x ++ ")" ++ post) = Py.has_char "(" x).
  { intros x. rewrite !has_char_app, Hpost. cbn. rewrite !orb_false_r. reflexivity. }
  destruct Hq as [-> | [-> | ->]]; unfold quote_written; cbn [String.eqb].
  - (* no quote *)
    replace (pre ++ css_token "" url ++ post)
      with (pre ++ ("url(" ++ url ++ ")") ++ post)
      by (unfold css_token; rewrite ?append_nil, ?append_assoc_s; reflexivity).
    rewrite (replace_in_context_hit pre post (url ++ ")") _ Hpre Hpost).
    replace (pre ++ ("url(" ++ ("../" ++ lp) ++ ")") ++ post)
      with (pre ++ "url(" ++ (("../" ++ lp) ++ ")" ++ post))
      by (rewrite ?append_assoc_s; reflexivity).
    rewrite replace_in_context_miss;
      [| exact Hpre | rewrite Hrel, has_char_app, Hlp; reflexivity | prefix_mismatch].
    rewrite replace_in_context_miss;
      [| exact Hpre | rewrite Hrel, has_char_app, Hlp; reflexivity | prefix_mismatch].
    unfold css_token. rewrite ?append_nil, ?append_assoc_s. reflexivity.
  - (* single quotes *)
    replace (pre ++ css_token CssPattern.squote url ++ post)
      with (pre ++ "url(" ++ (CssPattern.squote ++ url ++ CssPattern.squote ++ ")" ++ post))
      by (unfold css_token; rewrite ?append_assoc_s; reflexivity).
    rewrite replace_in_context_miss;
      [| exact Hpre
       | rewrite !has_char_app, Hurl, Hpost; reflexivity
       | unfold CssPattern.squote; rewrite ?append_cons, ?append_nil;
         cbn [String.prefix];
         repeat match goal with
                | |- context [ascii_dec ?u ?v] =>
                    destruct (ascii_dec u v); try discriminate
                end;
         first [reflexivity
               | apply url_not_prefix_of_quoted; [reflexivity | exact Hg]] ].
    rewrite replace_in_context_miss;
      [| exact Hpre
       | rewrite !has_char_app, Hurl, Hpost; reflexivity
       | prefix_mismatch ].
    replace (pre ++ "url(" ++ (CssPattern.squote ++ url ++ CssPattern.squote ++ ")" ++ post))
      with (pre ++ ("url(" ++ CssPattern.squote ++ url ++ CssPattern.squote ++ ")") ++ post)
      by (rewrite ?append_assoc_s; reflexivity).
    rewrite (replace_in_context_hit pre post _ _ Hpre Hpost).
    reflexivity.
  - (* double quotes *)
    replace (pre ++ css_token CssPattern.dquote url ++ post)
      with (pre ++ "url(" ++ (CssPattern.dquote ++ url ++ CssPattern.dquote ++ ")" ++ post))
      by (unfold css_token; rewrite ?append_assoc_s; reflexivity).
    rewrite replace_in_context_miss;
      [| exact Hpre
       | rewrite !has_char_app, Hurl, Hpost; reflexivity
       | unfold CssPattern.dquote; rewrite ?append_cons, ?append_nil;
         cbn [String.prefix];
         repeat match goal with
                | |- context [ascii_dec ?u ?v] =>
                    destruct (ascii_dec u v); try discriminate
                end;
         first [reflexivity
               | apply url_not_prefix_of_quoted; [reflexivity | exact Hg]] ].
    replace (pre ++ "url(" ++ (CssPattern.dquote ++ url ++ CssPattern.dquote ++ ")" ++ post))
      with (pre ++ ("url(" ++ CssPattern.dquote ++ url ++ CssPattern.dquote ++ ")") ++ post)
      by (rewrite ?append_assoc_s; reflexivity).
    rewrite (replace_in_context_hit pre post _ _ Hpre Hpost).
    replace (pre ++ ("url(" ++ CssPattern.dquote ++ ("../" ++ lp) ++ CssPattern.dquote ++ ")") ++ post)
      with (pre ++ "url(" ++ (CssPattern.dquote ++ ("../" ++ lp) ++ CssPattern.dquote ++ ")" ++ post))
      by (rewrite ?append_assoc_s; reflexivity).
    rewrite replace_in_context_miss;
      [| exact Hpre
       | rewrite !has_char_app, Hlp, Hpost; reflexivity
       | prefix_mismatch ].
    unfold css_token. rewrite ?append_assoc_s. reflexivity.
Qed.

Lemma group_match_is_group (closer s g : string) (n : nat) :
  CssPattern.group_match closer s = Some (g, n) -> CssPattern.is_group g = true.
Proof.
  revert g n. induction s as [| a t IH]; intros g n; cbn; [discriminate |].
  destruct (CssPattern.in_group a) eqn:Ha; [| discriminate].
  destruct (CssPattern.group_match closer t) as [[g' n'] |].
  - intros [= <- <-]. specialize (IH g' n' eq_refl).
    unfold CssPattern.is_group in *. cbn. rewrite Ha.
    apply andb_prop in IH as [_ IH]. exact IH.
  - destruct (CssPattern.tail_match closer t); [| discriminate].
    intros [= <- <-]. unfold CssPattern.is_group. cbn. rewrite Ha. reflexivity.
Qed.

Lemma findall_is_group (opener closer s : string) (skip : nat) :
  Forall (fun g => CssPattern.is_group g = true)
         (CssPattern.findall_from skip opener closer s).
Proof.
  revert skip. induction s as [| a t IH]; intros skip; cbn; [constructor |].
  destruct skip as [| k]; [| apply IH].
  destruct (CssPattern.match_here opener closer (String a t)) as [[g len] |] eqn:Hm;
    [| apply IH].
  constructor; [| apply IH].
  unfold CssPattern.match_here in Hm.
  destruct (String.prefix opener (String a t)); [| discriminate].
  destruct (Py.drop (String.length opener) (String a t)) as [| b r].
  - cbn in Hm. discriminate.
  - destruct (CssPattern.is_quote b);
      match type of Hm with
      | context [CssPattern.group_match ?c ?x] =>
          destruct (CssPattern.group_match c x) as [[g' n'] |] eqn:Hg;
            [| discriminate]
      end; injection Hm as <- _; exact (group_match_is_group _ _ _ _ Hg).
Qed.

(** ** [rewrite_css_urls] *)

Section Css.
Context `{PyLib} `{RobotLib}.
Variable cfg : Config.

Lemma run_bind {A B : Type} (env : Env) (t : Step A) (f : A -> Task B) (w : World) :
  run env (step_bind t f) w
  = match fst (fst (run env t w)) with
    | Ret a => run env (f a (snd (fst (run env t w)))) (snd (run env t w))
    | Raise e => (Raise e, snd (fst (run env t w)), snd (run env t w))
    end.
Proof.
  revert w. induction t as [r s | p url s k IH | pa c s k IH]; intros w; cbn.
  - destruct r; reflexivity.
  - apply IH.
  - apply IH.
Qed.

(** The scan finds nothing in a text in which the opening of the pattern
    does not occur. *)
Lemma findall_without_opener (opener closer s : string) (skip : nat) :
  Py.contains opener s = false ->
  CssPattern.findall_from skip opener closer s = [].
Proof.
  revert skip. induction s as [| a t IH]; intros skip Hc; [reflexivity |].
  cbn [Py.contains] in Hc.
  destruct (String.prefix opener (String a t)) eqn:Hp; [discriminate |].
  cbn [CssPattern.findall_from]. destruct skip as [| k]; [| apply IH, Hc].
  unfold CssPattern.match_here. rewrite Hp. apply IH, Hc.
Qed.

(** C3: the scan of [rewrite_css_urls] looks for the text
    [urlKATEX_INLINE_OPEN], not for [url(]: a style sheet in which that
    text does not occur is scanned without a single reference found, and
    is returned as it came, at once, with no request and the state
    untouched. *)
Theorem css_url_tokens_not_found (s : Scraper) (css_content base_url : string) :
  Py.contains CssPattern.url_pattern_open css_content = false ->
  CssPattern.findall CssPattern.url_pattern_open CssPattern.url_pattern_close
    css_content = []
  /\ rewrite_css_urls cfg css_content base_url s = Done (Ret css_content) s.
Proof.
  intros Hc.
  assert (Hf : CssPattern.findall CssPattern.url_pattern_open
                 CssPattern.url_pattern_close css_content = [])
    by (apply findall_without_opener, Hc).
  split; [exact Hf |].
  unfold rewrite_css_urls. rewrite Hf. reflexivity.
Qed.

End Css.

(** The failing input of C3: two ordinary references, one bare and one in
    quotes, to images that the server has.  A scan for [url(] and [)]
    reports both; the scan of the source reports none, the text is
    returned unchanged and nothing is requested. *)
Lemma css_url_tokens_not_found_witness :
  let css := "a{b:url(x.png)} c{d:url('y.png')}" in
  let out :=
    @run MiniRobots.lib _ Site.env_assets
      (@rewrite_css_urls UrlLib.lib MiniRobots.lib Site.cfg css "http://h/p"
         init_scraper) Site.no_world in
  CssPattern.findall "url(" ")" css = ["x.png"; "y.png"]
  /\ CssPattern.findall CssPattern.url_pattern_open CssPattern.url_pattern_close
       css = []
  /\ fst (fst out) = Ret css
  /\ http_log (snd out) = []
  /\ asset_map (snd (fst out)) !! "http://h/x.png" = None.
Proof.
  intros css out.
  destruct (@css_url_tokens_not_found UrlLib.lib MiniRobots.lib Site.cfg
              init_scraper css "http://h/p" eq_refl) as [Hf Hr].
  split; [vm_compute; reflexivity |]. split; [exact Hf |].
  unfold out. rewrite Hr. cbn. repeat split; reflexivity.
Defined.

(** * More properties of the code *)

(** ** Extensions, names and paths *)

Lemma split_on_no_sep (c : ascii) (s : string) :
  Forall (fun x => Py.has_char c x = false) (Py.split_on c s).
Proof.
  induction s as [| a t IH]; cbn.
  - constructor; [reflexivity | constructor].
  - destruct (Ascii.eqb a c) eqn:E.
    + constructor; [reflexivity | exact IH].
    + destruct (Py.split_on c t) as [| h r]; cbn.
      * constructor; [cbn; rewrite E; reflexivity | constructor].
      * inversion IH as [| ? ? Hh Hr]; subst.
        constructor; [cbn; rewrite E; exact Hh | exact Hr].
Qed.

Lemma split_on_absent (c d : ascii) (s : string) :
  Py.has_char d s = false ->
  Forall (fun x => Py.has_char d x = false) (Py.split_on c s).
Proof.
  induction s as [| a t IH]; cbn; intros Hd.
  - constructor; [reflexivity | constructor].
  - apply orb_false_iff in Hd as [Ha Ht]. specialize (IH Ht).
    destruct (Ascii.eqb a c).
    + constructor; [reflexivity | exact IH].
    + destruct (Py.split_on c t) as [| h r]; cbn.
      * constructor; [cbn; rewrite Ha; reflexivity | constructor].
      * inversion IH as [| ? ? Hh Hr]; subst.
        constructor; [cbn; rewrite Ha; exact Hh | exact Hr].
Qed.

Lemma Forall_last {A : Type} (P : A -> Prop) (l : list A) (d : A) :
  Forall P l -> P d -> P (List.last l d).
Proof.
  intros Hl Hd. induction Hl as [| x l Hx Hl IH]; [exact Hd |].
  destruct l as [| y l]; [exact Hx | exact IH].
Qed.

Lemma after_last_no_sep (c : ascii) (s : string) :
  Py.has_char c (Py.after_last c s) = false.
Proof.
  unfold Py.after_last.
  apply (Forall_last (fun x => Py.has_char c x = false));
    [apply split_on_no_sep | reflexivity].
Qed.

(** The extension [os.path.splitext] gives is empty, or a dot followed by
    text without a dot and without a slash. *)
Lemma splitext_ext_shape (p : string) :
  Py.splitext_ext p = ""
  \/ exists e, Py.splitext_ext p = String "." e
               /\ Py.has_char "." e = false /\ Py.has_char "/" e = false.
Proof.
  unfold Py.splitext_ext.
  destruct (existsb _ _); [right | left; reflexivity].
  eexists. split; [reflexivity |]. split.
  - apply (Forall_last (fun x => Py.has_char "." x = false));
      [apply split_on_no_sep | reflexivity].
  - apply (Forall_last (fun x => Py.has_char "/" x = false));
      [| reflexivity].
    apply split_on_absent, after_last_no_sep.
Qed.

Lemma in_list_true (x : string) (l : list string) :
  URLFilter.in_list x l = true <-> In x l.
Proof.
  unfold URLFilter.in_list. rewrite existsb_exists. split.
  - intros (y & Hy & He). apply String.eqb_eq in He. subst. exact Hy.
  - intros Hx. exists x. split; [exact Hx | apply String.eqb_refl].
Qed.

Lemma splitext_ext_not_tar_gz (p : string) : Py.splitext_ext p <> ".tar.gz".
Proof.
  destruct (splitext_ext_shape p) as [-> | (e & -> & Hdot & _)];
    [discriminate |].
  intros [= ->]. cbn in Hdot. discriminate.
Qed.

Lemma download_extensions_one_dot (p : string) :
  URLFilter.in_list (Py.splitext_ext p) URLFilter.DOWNLOAD_EXTENSIONS
  = URLFilter.in_list (Py.splitext_ext p)
      [ ".pdf"; ".zip"; ".exe"; ".dmg"; ".msi";
        ".rar"; ".doc"; ".docx"; ".xls"; ".xlsx" ].
Proof.
  unfold URLFilter.DOWNLOAD_EXTENSIONS, URLFilter.in_list. cbn [existsb].
  destruct (String.eqb_spec (Py.splitext_ext p) ".tar.gz") as [E | _];
    [destruct (splitext_ext_not_tar_gz p E) |].
  reflexivity.
Qed.

(** X1: the entry [.tar.gz] of DOWNLOAD_EXTENSIONS is never the extension of a
    path: an extension has one dot, the first, and no slash. *)
Theorem tar_gz_entry_never_matches (p : string) :
  (Py.splitext_ext p = ""
   \/ exists e, Py.splitext_ext p = String "." e
                /\ Py.has_char "." e = false /\ Py.has_char "/" e = false)
  /\ Py.splitext_ext p <> ".tar.gz"
  /\ URLFilter.in_list (Py.splitext_ext p) URLFilter.DOWNLOAD_EXTENSIONS
     = URLFilter.in_list (Py.splitext_ext p)
         [ ".pdf"; ".zip"; ".exe"; ".dmg"; ".msi";
           ".rar"; ".doc"; ".docx"; ".xls"; ".xlsx" ].
Proof.
  split; [apply splitext_ext_shape |].
  split; [apply splitext_ext_not_tar_gz | apply download_extensions_one_dot].
Qed.

(** ** What [should_scrape] lets through *)

Section Filter.
Context `{PyLib}.

(** What [should_scrape] has found when it answers [True]. *)
Lemma should_scrape_true_inv (url base_domain : string) :
  URLFilter.should_scrape url base_domain = Ret true ->
  exists p b q,
    urlparse url = Ret p /\ urlparse base_domain = Ret b
    /\ netloc p = netloc b
    /\ URLFilter.in_list (Py.splitext_ext (Py.lower (path p)))
         URLFilter.DOWNLOAD_EXTENSIONS = false
    /\ existsb (fun pat => URLFilter.re_search pat url)
         URLFilter.EXCLUDE_PATTERNS = false
    /\ parse_qs (query p) = Ret q
    /\ existsb (fun param => bool_decide (is_Some (q !! param)))
         URLFilter.exclude_params = false.
Proof.
  unfold URLFilter.should_scrape, URLFilter.should_scrape_body, try_except.
  unfold mbind, Exc_bind, bind.
  destruct (urlparse url) as [p | e] eqn:Hp; [| discriminate].
  destruct (urlparse base_domain) as [b | e] eqn:Hb; [| discriminate].
  destruct (String.eqb_spec (netloc p) (netloc b)) as [Hn | Hn]; cbn [negb];
    [| discriminate].
  destruct (URLFilter.in_list _ URLFilter.DOWNLOAD_EXTENSIONS) eqn:Hext;
    [discriminate |].
  destruct (existsb _ URLFilter.EXCLUDE_PATTERNS) eqn:Hpat; [discriminate |].
  destruct (parse_qs (query p)) as [q | e] eqn:Hqs; [| discriminate].
  destruct (existsb _ URLFilter.exclude_params) eqn:Hq; [discriminate |].
  intros _. exists p, b, q. repeat split; first [assumption | reflexivity].
Qed.

(** X2: [should_scrape] answers [True] only for a URL that parses, has the
    network location of the base, has none of the excluded words in any
    letter case, does not end in a hash sign and has none of the excluded
    query parameters. *)
Theorem should_scrape_accepts_only (url base_domain : string) :
  URLFilter.should_scrape url base_domain = Ret true ->
  exists p b q,
    urlparse url = Ret p /\ urlparse base_domain = Ret b
    /\ netloc p = netloc b
    /\ ~ In (Py.splitext_ext (Py.lower (path p)))
            [ ".pdf"; ".zip"; ".exe"; ".dmg"; ".msi";
              ".rar"; ".doc"; ".docx"; ".xls"; ".xlsx" ]
    /\ Forall (fun word => Py.contains word (Py.lower url) = false)
         [ "/login"; "/signin"; "/signup"; "/register"; "/logout";
           "mailto:"; "tel:"; "javascript:" ]
    /\ URLFilter.endswith url "#" = false
    /\ parse_qs (query p) = Ret q
    /\ Forall (fun param => q !! param = None)
         [ "download"; "login"; "logout"; "signin"; "signup" ].
Proof.
  intros Hs.
  destruct (should_scrape_true_inv url base_domain Hs)
    as (p & b & q & Hp & Hb & Hn & Hext & Hpat & Hq & Hpar).
  exists p, b, q. split; [exact Hp |]. split; [exact Hb |].
  split; [exact Hn |]. split.
  { rewrite download_extensions_one_dot in Hext.
    intros Hin. apply in_list_true in Hin. congruence. }
  unfold URLFilter.EXCLUDE_PATTERNS in Hpat. cbn [existsb] in Hpat.
  repeat (apply orb_false_iff in Hpat as [? Hpat]).
  split.
  { cbn [URLFilter.re_search] in *.
    repeat (apply List.Forall_cons; [assumption |]). apply List.Forall_nil. }
  split.
  { match goal with
    | Hh : URLFilter.re_search URLFilter.HashAtEnd url = false |- _ =>
        cbn [URLFilter.re_search] in Hh; apply orb_false_iff in Hh as [Hh _];
        exact Hh
    end. }
  split; [exact Hq |].
  unfold URLFilter.exclude_params in Hpar. cbn [existsb] in Hpar.
  repeat (apply orb_false_iff in Hpar as [? Hpar]).
  repeat (apply List.Forall_cons;
          [match goal with
           | Hb : bool_decide (is_Some (q !! ?k)) = false |- q !! ?k = None =>
               apply bool_decide_eq_false_1 in Hb;
               destruct (q !! k); [exfalso; apply Hb; eexists; reflexivity
                                  | reflexivity]
           end |]).
  apply List.Forall_nil.
Qed.

End Filter.

(** An archive the list means to skip is let through. *)
Example should_scrape_tar_gz :
  @URLFilter.should_scrape UrlLib.lib "http://h/x.tar.gz" "http://h" = Ret true
  /\ @URLFilter.should_scrape UrlLib.lib "http://h/x.zip" "http://h" = Ret false.
Proof. vm_compute. split; reflexivity. Qed.

Lemma should_scrape_accepts_only_witness :
  @URLFilter.should_scrape UrlLib.lib "http://h/b?x=1" "http://h" = Ret true
  /\ exists p b q,
       @urlparse UrlLib.lib "http://h/b?x=1" = Ret p
       /\ @urlparse UrlLib.lib "http://h" = Ret b
       /\ netloc p = netloc b
       /\ ~ In (Py.splitext_ext (Py.lower (path p)))
               [ ".pdf"; ".zip"; ".exe"; ".dmg"; ".msi";
                 ".rar"; ".doc"; ".docx"; ".xls"; ".xlsx" ]
       /\ Forall (fun word => Py.contains word (Py.lower "http://h/b?x=1") = false)
            [ "/login"; "/signin"; "/signup"; "/register"; "/logout";
              "mailto:"; "tel:"; "javascript:" ]
       /\ URLFilter.endswith "http://h/b?x=1" "#" = false
       /\ @parse_qs UrlLib.lib (query p) = Ret q
       /\ Forall (fun param => q !! param = None)
            [ "download"; "login"; "logout"; "signin"; "signup" ].
Proof.
  split; [vm_compute; reflexivity |].
  apply (@should_scrape_accepts_only UrlLib.lib "http://h/b?x=1" "http://h").
  vm_compute. reflexivity.
Defined.

(** ** [URLFilter.is_asset_url] *)

Section Asset.
Context `{PyLib}.

(** X3: [is_asset_url] answers media for the extensions mp4, ogg, mp3 and
    wav only: webm is among the image extensions, which are tested
    first. *)
Theorem is_asset_url_media (url : string) :
  is_asset_url url = Ret (Some "media")
  <-> exists p, urlparse url = Ret p
                /\ In (Py.splitext_ext (Py.lower (path p)))
                      [ ".mp4"; ".ogg"; ".mp3"; ".wav" ].
Proof.
  unfold is_asset_url, mbind, Exc_bind, bind.
  destruct (urlparse url) as [p |] eqn:Hp.
  2:{ split; [discriminate | intros (p & [=] & _)]. }
  set (ext := Py.splitext_ext (Py.lower (path p))).
  split.
  - intros Hm. exists p. split; [reflexivity |]. fold ext.
    destruct (URLFilter.in_list ext IMAGE_EXTENSIONS) eqn:Hi; [discriminate |].
    destruct (String.eqb ext ".css"); [discriminate |].
    destruct (URLFilter.in_list ext [".js"; ".mjs"]); [discriminate |].
    destruct (URLFilter.in_list ext [".woff"; ".woff2"; ".ttf"; ".eot"; ".otf"]);
      [discriminate |].
    destruct (URLFilter.in_list ext [".mp4"; ".webm"; ".ogg"; ".mp3"; ".wav"])
      eqn:Hmed; [| discriminate].
    apply in_list_true in Hmed. cbn in Hmed.
    destruct Hmed as [E | [E | [E | [E | [E | []]]]]]; rewrite <- E; cbn; auto.
    rewrite <- E in Hi. vm_compute in Hi. discriminate.
  - intros (p' & [= <-] & Hin). fold ext in Hin. cbn in Hin.
    destruct Hin as [E | [E | [E | [E | []]]]]; rewrite <- E; reflexivity.
Qed.

(** The image extensions win over the media ones. *)
Lemma is_asset_url_webm (url : string) (p : ParseResult) :
  urlparse url = Ret p ->
  Py.splitext_ext (Py.lower (path p)) = ".webm" ->
  is_asset_url url = Ret (Some "image").
Proof.
  intros Hp He. unfold is_asset_url, mbind, Exc_bind, bind.
  rewrite Hp, He. reflexivity.
Qed.

End Asset.

Example is_asset_url_clip :
  @is_asset_url UrlLib.lib "http://h/Clip.WEBM?x=1" = Ret (Some "image").
Proof. vm_compute. reflexivity. Qed.

(** ** The digest as a file name *)

Lemma hex_of_bytes_length (bs : list Z) :
  String.length (MD5.hex_of_bytes bs) = (2 * List.length bs)%nat.
Proof. induction bs as [| b r IH]; cbn; [reflexivity | rewrite IH; lia]. Qed.

Lemma le_bytes_length (n : nat) (x : Z) : List.length (MD5.le_bytes n x) = n.
Proof.
  revert x. induction n as [| n IH]; intros x; cbn; [reflexivity |].
  rewrite IH. reflexivity.
Qed.

Lemma le_bytes_range (n : nat) (x : Z) :
  Forall (fun b => (0 <= b < 256)%Z) (MD5.le_bytes n x).
Proof.
  revert x. induction n as [| n IH]; intros x; cbn; constructor.
  - apply Z.mod_pos_bound. lia.
  - apply IH.
Qed.

Lemma hex_digit_is_hex (n : Z) :
  (0 <= n < 16)%Z -> is_hex_digit (MD5.hex_digit n) = true.
Proof.
  intros Hn. rewrite <- (Z2Nat.id n) by lia.
  assert (Hk : (Z.to_nat n < 16)%nat) by lia.
  revert Hk. generalize (Z.to_nat n) as k. intros k Hk.
  do 16 (destruct k as [| k]; [reflexivity |]). lia.
Qed.

Lemma hex_of_bytes_all_hex (bs : list Z) :
  Forall (fun b => (0 <= b < 256)%Z) bs -> all_hex (MD5.hex_of_bytes bs) = true.
Proof.
  induction 1 as [| b r Hb Hr IH]; [reflexivity |].
  cbn [MD5.hex_of_bytes all_hex]. rewrite IH.
  rewrite !hex_digit_is_hex; [reflexivity | |].
  - apply Z.mod_pos_bound. lia.
  - split; [apply Z.div_pos; lia | apply Z.div_lt_upper_bound; lia].
Qed.

Lemma hexdigest_length (s : string) : String.length (MD5.hexdigest s) = 32%nat.
Proof.
  unfold MD5.hexdigest. rewrite hex_of_bytes_length.
  rewrite !length_app, !le_bytes_length. reflexivity.
Qed.

Lemma hexdigest_all_hex (s : string) : all_hex (MD5.hexdigest s) = true.
Proof.
  unfold MD5.hexdigest. apply hex_of_bytes_all_hex.
  repeat (apply Forall_app; split); apply le_bytes_range.
Qed.

Lemma all_hex_no_char (c : ascii) (s : string) :
  is_hex_digit c = false -> all_hex s = true -> Py.has_char c s = false.
Proof.
  intros Hc. induction s as [| a t IH]; cbn [all_hex Py.has_char];
    [reflexivity |].
  intros Ha. apply andb_true_iff in Ha as [Ha Ht].
  rewrite (IH Ht), orb_false_r.
  destruct (Ascii.eqb_spec a c) as [-> |]; [congruence | reflexivity].
Qed.

(** X4: the name [get_url_hash] gives a URL has 32 characters, each a digit
    or a letter from a to f. *)
Theorem get_url_hash_is_hex (url : string) :
  String.length (URLFilter.get_url_hash url) = 32%nat
  /\ all_hex (URLFilter.get_url_hash url) = true.
Proof.
  split; [apply hexdigest_length | apply hexdigest_all_hex].
Qed.

Lemma Forall_hd {A : Type} (P : A -> Prop) (l : list A) (d : A) :
  Forall P l -> P d -> P (hd d l).
Proof. intros Hl Hd. destruct Hl; [exact Hd | assumption]. Qed.

Lemma split_on_dot_head (c : ascii) (e : string) :
  Ascii.eqb "." c = false ->
  exists h, hd "" (Py.split_on c (String "." e)) = String "." h.
Proof.
  intros Hc. cbn [Py.split_on]. rewrite Hc.
  destruct (Py.split_on c e) as [| h r]; eexists; reflexivity.
Qed.

Section AssetPath2.
Context `{PyLib}.
Variable cfg : Config.

(** X5: the local path of an asset is a directory that [__init__] has
    created, a slash, and a file name without a slash: the digest of the
    URL and an extension of one to ten characters that begins with a
    dot. *)
Theorem asset_path_in_created_directory (url asset_type lp : string) :
  get_asset_local_path url asset_type = Ret lp ->
  exists subdir ext,
    lp = subdir ++ "/" ++ MD5.hexdigest url ++ String "." ext
    /\ In (output_dir cfg ++ "/" ++ subdir) (init_directories cfg)
    /\ Py.has_char "/" (MD5.hexdigest url ++ String "." ext) = false
    /\ (String.length ext < 10)%nat.
Proof.
  unfold get_asset_local_path, mbind, Exc_bind, bind.
  destruct (urlparse url) as [p |]; [| discriminate].
  set (e0 := Py.splitext_ext (path p)).
  set (e1 := if String.eqb e0 "" then ".bin" else e0).
  set (e2 := if Py.contains "?" e1 then hd "" (Py.split_on "?" e1) else e1).
  set (e3 := if String.eqb e2 "" || (10 <? String.length e2)%nat
             then if String.eqb asset_type "image" then ".jpg"
                  else if String.eqb asset_type "css" then ".css"
                       else if String.eqb asset_type "js" then ".js" else ".bin"
             else e2).
  set (subdir := if URLFilter.in_list asset_type ["image"; "img"] then "images"
                 else _).
  intros [= <-].
  assert (H1 : exists x, e1 = String "." x /\ Py.has_char "/" x = false).
  { subst e1. destruct (splitext_ext_shape (path p)) as [E | (x & E & _ & Hx)];
      fold e0 in E; rewrite E; cbn [String.eqb].
    - exists "bin". split; reflexivity.
    - exists x. split; [reflexivity | exact Hx]. }
  destruct H1 as (x1 & E1 & Hx1).
  assert (H2 : exists x, e2 = String "." x /\ Py.has_char "/" x = false).
  { subst e2. destruct (Py.contains "?" e1); [| exists x1; split; assumption].
    rewrite E1.
    destruct (split_on_dot_head "?" x1 eq_refl) as (h & Eh).
    exists h. split; [exact Eh |].
    assert (Hs : Py.has_char "/" (hd "" (Py.split_on "?" (String "." x1))) = false).
    { apply (Forall_hd (fun y => Py.has_char "/" y = false));
        [apply split_on_absent; cbn; exact Hx1 | reflexivity]. }
    rewrite Eh in Hs. cbn in Hs. exact Hs. }
  destruct H2 as (x2 & E2 & Hx2).
  assert (H3 : exists x, e3 = String "." x /\ Py.has_char "/" x = false
                         /\ (String.length x < 10)%nat).
  { subst e3. rewrite E2. cbn [String.eqb orb String.length].
    destruct (Nat.ltb_spec 10 (S (String.length x2))).
    - destruct (String.eqb asset_type "image");
        [exists "jpg"; repeat split; cbn; lia |].
      destruct (String.eqb asset_type "css");
        [exists "css"; repeat split; cbn; lia |].
      destruct (String.eqb asset_type "js");
        [exists "js"; repeat split; cbn; lia |].
      exists "bin"; repeat split; cbn; lia.
    - exists x2. repeat split; [exact Hx2 | lia]. }
  destruct H3 as (x3 & E3 & Hx3 & Hlen).
  exists subdir, x3. rewrite E3. split; [reflexivity |]. split.
  - subst subdir. unfold init_directories.
    destruct (URLFilter.in_list asset_type ["image"; "img"]); [cbn; tauto |].
    destruct (String.eqb asset_type "css"); [cbn; tauto |].
    destruct (URLFilter.in_list asset_type ["js"; "javascript"]); [cbn; tauto |].
    destruct (String.eqb asset_type "font"); [cbn; tauto |].
    destruct (URLFilter.in_list asset_type ["video"; "audio"; "media"]);
      cbn; tauto.
  - split; [| exact Hlen].
    rewrite has_char_app. cbn [Py.has_char]. rewrite Hx3.
    rewrite (all_hex_no_char "/" _ eq_refl (hexdigest_all_hex url)).
    reflexivity.
Qed.

End AssetPath2.

Lemma asset_path_in_created_directory_witness :
  @get_asset_local_path UrlLib.lib "http://h/i.png" "image"
    = Ret "images/13d6e67c9bc79663cb85b47a3d5a5b8e.png"
  /\ exists subdir ext,
       "images/13d6e67c9bc79663cb85b47a3d5a5b8e.png"
         = subdir ++ "/" ++ MD5.hexdigest "http://h/i.png" ++ String "." ext
       /\ In (output_dir Site.cfg ++ "/" ++ subdir) (init_directories Site.cfg)
       /\ Py.has_char "/" (MD5.hexdigest "http://h/i.png" ++ String "." ext) = false
       /\ (String.length ext < 10)%nat.
Proof.
  split; [vm_compute; reflexivity |].
  apply (@asset_path_in_created_directory UrlLib.lib Site.cfg
           "http://h/i.png" "image").
  vm_compute. reflexivity.
Defined.

(** ** [WebScraper.extract_urls] *)

Section Extract.
Context `{PyLib} `{RobotLib} `{SoupLib}.
Variable cfg : Config.

Lemma set_add_spec (P : string -> Prop) (x : string) (l : list string) :
  P x -> Forall P l -> NoDup l ->
  Forall P (set_add x l) /\ NoDup (set_add x l).
Proof.
  intros Hx Hl Hn. unfold set_add.
  destruct (URLFilter.in_list x l) eqn:E; [split; assumption |].
  split.
  - apply Forall_app. split; [exact Hl | constructor; [exact Hx | constructor]].
  - apply NoDup_app. split; [exact Hn |]. split.
    + intros y Hy Hy'. apply list_elem_of_singleton in Hy'. subst y.
      apply list_elem_of_In, in_list_true in Hy. congruence.
    + apply NoDup_singleton.
Qed.

Lemma extract_loop_spec (base_url : string) (tags : list element)
    (urls : list string) :
  let P := fun u => URLFilter.should_scrape u (base_domain cfg) = Ret true in
  Forall P urls -> NoDup urls ->
  Forall P (extract_loop cfg base_url tags urls)
  /\ NoDup (extract_loop cfg base_url tags urls).
Proof.
  intros P. revert urls.
  induction tags as [| t r IH]; intros urls Hl Hn; cbn [extract_loop].
  - split; assumption.
  - destruct (Soup.get_nonempty t "href") as [url |]; [| apply IH; assumption].
    destruct (urljoin base_url url) as [a |]; [| split; assumption].
    destruct (URLFilter.should_scrape a (base_domain cfg)) as [[|] |] eqn:E;
      [| apply IH; assumption | split; assumption].
    destruct (set_add_spec P a urls E Hl Hn) as [Hl' Hn'].
    apply IH; assumption.
Qed.

(** X6: [extract_urls] gives no URL twice, and every URL it gives has
    passed [should_scrape] against [base_domain], the text
    [scheme://netloc] that [__init__] makes of the start URL: it parses,
    [base_domain] parses, and the two have the same network location. *)
Theorem extract_urls_filtered (html base_url : string) :
  NoDup (extract_urls cfg html base_url)
  /\ Forall (fun u =>
       URLFilter.should_scrape u (base_domain cfg) = Ret true
       /\ exists p b, urlparse u = Ret p /\ urlparse (base_domain cfg) = Ret b
                      /\ netloc p = netloc b)
       (extract_urls cfg html base_url).
Proof.
  unfold extract_urls.
  destruct (bs_parse html) as [soup |];
    [| split; [apply NoDup_nil_2 | constructor]].
  destruct (extract_loop_spec base_url
              (List.filter (fun e => URLFilter.in_list (tag e) ["a"; "area"]) soup)
              [] (Forall_nil_2 _) (NoDup_nil_2)) as [Hl Hn].
  split; [exact Hn |].
  eapply Forall_impl; [exact Hl |]. cbn. intros u Hu. split; [exact Hu |].
  destruct (should_scrape_true_inv u _ Hu) as (p & b & q & Hp & Hb & Hnl & _).
  exists p, b. repeat split; assumption.
Qed.

End Extract.

(** ** The URLs of a [srcset] *)

Lemma lstrip_absent (c : ascii) (s : string) :
  Py.has_char c s = false -> Py.has_char c (Py.lstrip s) = false.
Proof.
  induction s as [| a t IH]; cbn; [reflexivity |].
  intros Hc. destruct (Py.is_space a); [| exact Hc].
  apply orb_false_iff in Hc as [_ Ht]. apply IH, Ht.
Qed.

Lemma rstrip_absent (c : ascii) (s : string) :
  Py.has_char c s = false -> Py.has_char c (Py.rstrip s) = false.
Proof.
  induction s as [| a t IH]; cbn [Py.rstrip Py.has_char]; [reflexivity |].
  intros Hc. apply orb_false_iff in Hc as [Ha Ht]. specialize (IH Ht).
  destruct (Py.rstrip t) as [| b t'].
  - destruct (Py.is_space a); cbn; [reflexivity | rewrite Ha; reflexivity].
  - cbn [Py.has_char]. rewrite Ha. exact IH.
Qed.

Lemma strip_absent (c : ascii) (s : string) :
  Py.has_char c s = false -> Py.has_char c (Py.strip s) = false.
Proof. intros Hc. apply rstrip_absent, lstrip_absent, Hc. Qed.

(** X7: a URL taken from a [srcset] value is not empty and holds neither a
    space nor a comma. *)
Theorem srcset_urls_are_tokens (value : string) :
  Forall (fun u => u <> "" /\ Py.has_char " " u = false
                   /\ Py.has_char "," u = false)
         (srcset_urls value).
Proof.
  unfold srcset_urls. apply Forall_forall. intros u Hu.
  apply list_elem_of_In, filter_In in Hu as [Hu Hne].
  apply in_map_iff in Hu as (part & <- & Hpart).
  split.
  - intros E. rewrite E in Hne. discriminate.
  - split.
    + apply (Forall_hd (fun y => Py.has_char " " y = false));
        [apply split_on_no_sep | reflexivity].
    + apply (Forall_hd (fun y => Py.has_char "," y = false)); [| reflexivity].
      apply split_on_absent, strip_absent.
      pose proof (split_on_no_sep "," value) as Hall.
      rewrite Forall_forall in Hall. apply Hall, list_elem_of_In, Hpart.
Qed.

(** ** Invariants with conditions on the items of the queue *)

Section Rules2.
Context `{RobotLib}.
Variable I : Scraper -> World -> Prop.

Lemma keeps_get_log (p : profile) (url : string) :
  (forall s w, I s w -> I s (log_request w p url)) ->
  keeps I (await_get p url).
Proof.
  intros Hl s w Hi. cbn. split; [apply Hl, Hi |]. intros r s' w' Hs. exact Hs.
Qed.

Lemma keeps_write_disk (pa c : string) :
  (forall s w r, I s w -> I s (record_write w pa c r)) ->
  keeps I (await_write pa c).
Proof.
  intros Hd s w Hi. cbn. split; [exact Hi |]. intros r s' w' Hs.
  apply Hd, Hs.
Qed.

Lemma keeps_for_each_in {A S : Type} (l : list A) (body : S -> A -> Task S)
    (acc : S) :
  (forall acc x, In x l -> keeps I (body acc x)) ->
  keeps I (for_each l body acc).
Proof.
  revert acc. induction l as [| x r IH]; intros acc Hb; cbn [for_each].
  - apply keeps_ret.
  - apply keeps_bind; [apply Hb; left; reflexivity |].
    intros acc'. apply IH. intros a y Hy. apply Hb. right. exact Hy.
Qed.

(** A piece of code that does not wait keeps [I] when the state it ends
    in has it. *)
Lemma keeps_done {A : Type} (m : Task A) :
  (forall s w, I s w -> exists r s', m s = Done r s' /\ I s' w) ->
  keeps I m.
Proof.
  intros Hm s w Hi. destruct (Hm s w Hi) as (r & s' & -> & Hs). exact Hs.
Qed.

Lemma ensures_bind {A B : Type} (m : Task A) (f : A -> Task B)
    (Q : A -> Scraper -> World -> Prop) :
  ensures I m Q ->
  (forall a s w, Q a s w -> wpI I (f a s) w (fun _ s' w' => I s' w')) ->
  keeps I (m ≫= f).
Proof.
  intros Hm Hf s w Hi. unfold mbind, Task_bind, task_bind.
  apply wpI_bind. eapply wpI_mono; [| apply Hm, Hi].
  intros [a | e] s' w' Hs; [apply Hf, Hs | exact Hs].
Qed.

Lemma keeps_apply {A : Type} (m : Task A) (s : Scraper) (w : World) :
  keeps I m -> I s w -> wpI I (m s) w (fun _ s' w' => I s' w').
Proof. intros Hm Hi. apply Hm, Hi. Qed.

End Rules2.

Section SoundItems.
Context `{PyLib} `{RobotLib} `{SoupLib}.
Variable cfg : Config.
Variable I : Scraper -> World -> Prop.

Hypothesis I_init : I (shared (init_sys cfg)) (world (init_sys cfg)).
Hypothesis I_drop :
  forall s w x q, I s w -> queue s = x :: q -> I (set_queue q s) w.
Hypothesis I_take :
  forall s w url depth q,
    I s w -> queue s = (url, depth) :: q ->
    wpI I (process_url cfg url depth (set_queue q s)) w (fun _ s' w' => I s' w').

(** As [reachable_invariant], for a property that may speak of the items
    of the queue: it is to be kept when the head of the queue is dropped,
    and by [process_url] on the head of the queue. *)
Lemma reachable_invariant_items (sys : Sys) : reachable cfg sys -> sys_ok I sys.
Proof.
  induction 1 as [| sys sys' Hr IH Hstep].
  - split; [exact I_init |]. cbn. apply Forall_forall. intros x Hx.
    apply list_elem_of_In, repeat_spec in Hx. subst x. exact Logic.I.
  - destruct IH as [Hi Hw].
    destruct Hstep as [i url depth q Hwk Hstop Hq | url depth q Hstop Hq
                      | i p url s0 k r Hwk | i pa c s0 k r Hwk].
    + apply settle_ok; [exact Hw |]. exact (I_take _ _ _ _ _ Hi Hq).
    + split; [exact (I_drop _ _ _ _ Hi Hq) | exact Hw].
    + apply settle_ok; [exact Hw |].
      pose proof (Forall_lookup_1 _ _ _ _ Hw Hwk) as Hk. cbn in Hk.
      apply Hk, Hi.
    + apply (settle_ok I
               (mkSys (shared sys) (record_write (world sys) pa c r)
                      (workers sys)) i); [exact Hw |].
      pose proof (Forall_lookup_1 _ _ _ _ Hw Hwk) as Hk. cbn in Hk.
      apply Hk, Hi.
Qed.

End SoundItems.

(** One layer of a task, with [side] for what a step asks of the
    property. *)
Ltac keeps_with side :=
  lazymatch goal with
  | |- keeps _ (mbind _ _) => apply keeps_bind; [| intros ?]
  | |- keeps _ (task_try _ _) => apply keeps_try; [| intros ?]
  | |- keeps _ (mret _) => apply keeps_ret
  | |- keeps _ (task_raise _) => apply keeps_raise
  | |- keeps _ (lift _) => apply keeps_lift
  | |- keeps _ (read _) => apply keeps_read
  | |- keeps _ (await_get _ _) => apply keeps_get_log; side
  | |- keeps _ (await_write _ _) => apply keeps_write_disk; side
  | |- keeps _ (modify _) => apply keeps_modify; side
  | |- keeps _ (for_each _ _ _) => apply keeps_for_each; intros ? ?
  | |- keeps _ (if ?b then _ else _) => destruct b
  | |- keeps _ (match ?x with _ => _ end) => destruct x
  | |- keeps _ (let _ := _ in _) => cbv zeta
  end.

(** ** The signal and the counter *)

Section Signal.
Context `{PyLib} `{RobotLib} `{SoupLib}.
Variable cfg : Config.

Ltac signal_side :=
  first [ let Hi := fresh in intros ? ? Hi; exact Hi
        | let Hi := fresh in intros ? ? ? Hi; exact Hi ].

Lemma signal_check_limits url : keeps (stop_agrees cfg) (check_limits cfg url).
Proof.
  apply keeps_done. intros s w [Hs1 Hs2]. unfold check_limits. task_step.
  unfold id.
  destruct (Z.leb_spec (max_pages cfg) (pages_scraped_count s)) as [Hle | Hlt].
  - destruct (should_stop s) eqn:Hs; cbn; eexists _, _;
      (split; [reflexivity |]); split; cbn; auto.
  - destruct (urlparse url) as [p | e]; cbn;
      [| eexists _, _; split; [reflexivity | split; assumption]].
    destruct (_ <=? _)%Z; eexists _, _; (split; [reflexivity | split; assumption]).
Qed.

Lemma signal_count_page : keeps (stop_agrees cfg) (modify (count_page cfg)).
Proof.
  apply keeps_modify. intros s w [Hs1 Hs2]. unfold count_page. cbn.
  destruct (Z.leb_spec (max_pages cfg) (pages_scraped_count s + 1)) as [Hle | Hlt];
    split; cbn; intros; try lia; try reflexivity.
  match goal with Hx : should_stop s = true |- _ => specialize (Hs1 Hx) end.
  lia.
Qed.

Lemma signal_process_url url depth :
  keeps (stop_agrees cfg) (process_url cfg url depth).
Proof.
  unfold process_url, add_page, enqueue_new, fetch_page, add_failed, can_fetch,
    save_page_content, rewrite_html_urls, rewrite_style_tag, rewrite_style_attr,
    apply_asset_task, rewrite_anchor, rewrite_css_urls, rewrite_css_url,
    download_asset, store_asset, fail_asset.
  repeat first
    [ apply signal_check_limits
    | apply signal_count_page
    | keeps_with signal_side ].
Qed.

(** X8: in every state that the workers reach, the stop signal is set
    only when the counter of pages has reached [max_pages], and, where
    [max_pages] is positive, it is set whenever the counter has reached
    it. *)
Theorem stop_signal_follows_counter (sys : Sys) :
  reachable cfg sys ->
  (should_stop (shared sys) = true ->
   (max_pages cfg <= pages_scraped_count (shared sys))%Z)
  /\ ((0 < max_pages cfg)%Z ->
      (max_pages cfg <= pages_scraped_count (shared sys))%Z ->
      should_stop (shared sys) = true).
Proof.
  intros Hr.
  apply (reachable_invariant cfg (stop_agrees cfg)); [| | | exact Hr].
  - split; cbn; [discriminate | lia].
  - intros s w q Hi. exact Hi.
  - apply signal_process_url.
Qed.

End Signal.

Lemma stop_signal_follows_counter_witness :
  exists sys : Sys,
    @perform_all UrlLib.lib MiniRobots.lib MiniSoup.lib Site.cfg_cap
      (init_sys Site.cfg_cap) Site.schedule_cap = Some sys
    /\ pages_scraped_count (shared sys) = 3%Z
    /\ should_stop (shared sys) = true.
Proof.
  assert (Hc :
    match @perform_all UrlLib.lib MiniRobots.lib MiniSoup.lib Site.cfg_cap
            (init_sys Site.cfg_cap) Site.schedule_cap with
    | Some sys => pages_scraped_count (shared sys) = 3%Z
    | None => False
    end) by (vm_compute; reflexivity).
  destruct (@perform_all UrlLib.lib MiniRobots.lib MiniSoup.lib Site.cfg_cap
              (init_sys Site.cfg_cap) Site.schedule_cap) as [sys |] eqn:E;
    [| contradiction].
  exists sys. split; [reflexivity |]. split; [exact Hc |].
  apply (proj2 (@stop_signal_follows_counter UrlLib.lib MiniRobots.lib
                  MiniSoup.lib Site.cfg_cap sys
                  (perform_all_reachable Site.cfg_cap Site.schedule_cap _ sys
                     (reach_init Site.cfg_cap) E))).
  - reflexivity.
  - rewrite Hc. cbn. lia.
Defined.

(** ** [process_url] in its pieces *)

Section Pieces.
Context `{PyLib} `{RobotLib} `{SoupLib}.
Variable cfg : Config.
Variable I : Scraper -> World -> Prop.

(** [check_limits] answers [True] only for a URL that parses. *)
Lemma check_limits_parses (url : string) :
  (forall s w, I s w -> I (set_should_stop true s) w) ->
  ensures I (check_limits cfg url)
    (fun within s w =>
       I s w /\ (within = true -> exists p, urlparse url = Ret p)).
Proof.
  intros Hstop s w Hi. unfold check_limits. task_step. unfold id.
  destruct (max_pages cfg <=? pages_scraped_count s)%Z.
  - destruct (should_stop s); cbn; (split; [auto | discriminate]).
  - destruct (urlparse url) as [p | e]; cbn; [| exact Hi].
    destruct (_ <=? _)%Z; cbn; (split; [exact Hi |]); [discriminate |].
    intros _. exists p. reflexivity.
Qed.

(** A property is kept by [process_url] when its steps before the answer
    of the server keep it and, for a URL that parses and a depth within
    [max_depth], the rest keeps it, from the state in which the page is
    counted. *)
Lemma process_url_keeps (url : string) (depth : Z) :
  (forall s w, I s w -> I (set_should_stop true s) w) ->
  (forall s w, I s w -> I (set_visited_urls ({[url]} ∪ visited_urls s) s) w) ->
  keeps I (fetch_page cfg url) ->
  (forall p content content_type cookies s w,
      urlparse url = Ret p -> (depth <= max_depth cfg)%Z -> I s w ->
      wpI I (store_fetched cfg url depth p content content_type
               (count_fetched cfg p content cookies s)) w
          (fun _ s' w' => I s' w')) ->
  keeps I (process_url cfg url depth).
Proof.
  intros Hstop Hvis Hfetch Hstore. unfold process_url.
  apply keeps_bind; [apply keeps_read |]. intros stop.
  destruct stop; [apply keeps_ret |].
  apply keeps_bind; [apply keeps_read |]. intros visited.
  destruct (bool_decide _); cbn [orb]; [apply keeps_ret |].
  destruct (Z.ltb_spec (max_depth cfg) depth) as [Hdeep | Hdepth];
    [apply keeps_ret |].
  eapply ensures_bind; [apply (check_limits_parses url Hstop) |].
  intros within s w [Hi Hp]. destruct within; cbn [negb]; [| exact Hi].
  destruct (Hp eq_refl) as (p & Hp'). clear Hp.
  apply keeps_apply; [| exact Hi]. clear s w Hi.
  apply keeps_bind; [apply keeps_modify; exact Hvis |]. intros _.
  apply keeps_bind; [exact Hfetch |]. intros result.
  destruct result as [[[content content_type] cookies] |]; [| apply keeps_ret].
  intros s w Hi. unfold add_page. task_step. rewrite Hp'. task_step.
  pose proof (Hstore p content content_type cookies s w Hp' Hdepth Hi) as Hs.
  unfold store_fetched, count_fetched in Hs. task_step.
  destruct cookies; exact Hs.
Qed.

(** [save_page_content] gives the path it computes, or nothing. *)
Lemma save_page_content_ensures (url content content_type : string) :
  (forall s w pa c r, I s w -> I s (record_write w pa c r)) ->
  ensures I (save_page_content cfg url content content_type)
    (fun filepath s w =>
       I s w /\ (filepath = None
                 \/ filepath = Some (page_filepath cfg url content_type))).
Proof.
  intros Hw s w Hi. unfold save_page_content. task_step. cbn.
  split; [exact Hi |]. intros r s' w' Hs.
  pose proof (Hw s' w' (page_filepath cfg url content_type) content r Hs) as Hs'.
  destruct r as [[] | e]; cbn; (split; [exact Hs' | auto]).
Qed.

End Pieces.

(** ** The two counts of the pages *)

Section Counters.
Context `{PyLib} `{RobotLib} `{SoupLib}.
Variable cfg : Config.

Ltac counters_side :=
  first [ let Hi := fresh in intros ? ? Hi; exact Hi
        | let Hi := fresh in intros ? ? ? Hi; exact Hi ].

Lemma counters_fetch_page url : keeps (counters_agree) (fetch_page cfg url).
Proof.
  unfold fetch_page, add_failed, can_fetch.
  repeat keeps_with counters_side.
Qed.

Lemma counters_rewrite_html_urls html base_url :
  keeps (counters_agree) (rewrite_html_urls cfg html base_url).
Proof.
  unfold rewrite_html_urls, rewrite_style_tag, rewrite_style_attr,
    apply_asset_task, rewrite_anchor, rewrite_css_urls, rewrite_css_url,
    download_asset, store_asset, fail_asset.
  repeat keeps_with counters_side.
Qed.

Lemma counters_store_fetched url depth p content content_type :
  keeps counters_agree (store_fetched cfg url depth p content content_type).
Proof.
  unfold store_fetched, save_page_content, enqueue_new.
  repeat first [apply counters_rewrite_html_urls | keeps_with counters_side].
Qed.

Lemma counters_process_url url depth :
  keeps counters_agree (process_url cfg url depth).
Proof.
  apply process_url_keeps; try counters_side.
  - apply counters_fetch_page.
  - intros p content content_type cookies s w Hp Hdepth [Hc Hd].
    apply keeps_apply; [apply counters_store_fetched |].
    unfold count_fetched, count_page, counters_agree.
    destruct cookies; destruct (_ <=? _)%Z; cbn; rewrite Hc, Hd;
      split; reflexivity.
Qed.

(** X9: in every state that the workers reach, [pages_scraped_count] is
    the number of pages of the statistics, and [domain_counts] is the
    table of the statistics. *)
Theorem counters_agree_with_stats (sys : Sys) :
  reachable cfg sys ->
  pages_scraped_count (shared sys) = st_pages_scraped (stats (shared sys))
  /\ domain_counts (shared sys) = st_domain_counts (stats (shared sys)).
Proof.
  intros Hr.
  apply (reachable_invariant cfg counters_agree); [| | | exact Hr].
  - split; reflexivity.
  - intros s w q Hi. exact Hi.
  - apply counters_process_url.
Qed.

End Counters.

Lemma counters_agree_with_stats_witness :
  exists sys : Sys,
    @perform_all UrlLib.lib MiniRobots.lib MiniSoup.lib Site.cfg_cap
      (init_sys Site.cfg_cap) Site.schedule_cap = Some sys
    /\ pages_scraped_count (shared sys) = st_pages_scraped (stats (shared sys))
    /\ domain_counts (shared sys) = st_domain_counts (stats (shared sys)).
Proof.
  assert (Hc :
    match @perform_all UrlLib.lib MiniRobots.lib MiniSoup.lib Site.cfg_cap
            (init_sys Site.cfg_cap) Site.schedule_cap with
    | Some sys => True
    | None => False
    end) by (vm_compute; exact Logic.I).
  destruct (@perform_all UrlLib.lib MiniRobots.lib MiniSoup.lib Site.cfg_cap
              (init_sys Site.cfg_cap) Site.schedule_cap) as [sys |] eqn:E;
    [| contradiction].
  exists sys. split; [reflexivity |].
  apply (@counters_agree_with_stats UrlLib.lib MiniRobots.lib MiniSoup.lib
           Site.cfg_cap sys).
  exact (perform_all_reachable Site.cfg_cap Site.schedule_cap _ sys
           (reach_init Site.cfg_cap) E).
Defined.

(** ** The files of the assets *)

Section AssetFiles.
Context `{PyLib} `{RobotLib} `{SoupLib}.
Variable cfg : Config.

Lemma assets_exist_write s w pa c r :
  assets_exist cfg s w -> assets_exist cfg s (record_write w pa c r).
Proof.
  intros Hi u lp Hu. destruct r as [[] | e]; cbn.
  - apply lookup_insert_is_Some'. right. exact (Hi u lp Hu).
  - exact (Hi u lp Hu).
Qed.

Lemma assets_exist_stored s w url lp c :
  assets_exist cfg s w ->
  assets_exist cfg (set_asset_map (<[url := lp]> (asset_map s)) s)
    (record_write w (output_dir cfg ++ "/" ++ lp) c (Ret tt)).
Proof.
  intros Hi u lp' Hu. cbn in *.
  destruct (decide (url = u)) as [<- | Hne].
  - rewrite lookup_insert_eq in Hu. injection Hu as <-.
    rewrite lookup_insert_eq. eexists; reflexivity.
  - rewrite lookup_insert_ne in Hu by exact Hne.
    apply lookup_insert_is_Some'. right. exact (Hi u lp' Hu).
Qed.

Ltac assets_side :=
  first [ let Hi := fresh in intros ? ? Hi; exact Hi
        | intros ? ? ?; apply assets_exist_write ].

(** The mapping is stored after the write has returned. *)
Lemma assets_store_asset url clean_url asset_type content as_text :
  keeps (assets_exist cfg) (store_asset cfg url clean_url asset_type content as_text).
Proof.
  intros s w Hi. unfold store_asset. task_step.
  destruct (get_asset_local_path clean_url asset_type) as [lp | e]; task_step;
    [| exact Hi].
  destruct as_text; task_step; cbn.
  - split; [exact Hi |]. intros r s' w' Hs. destruct r as [[] | e]; cbn.
    + apply assets_exist_stored, Hs.
    + split; [exact Hs |]. intros r s'' w'' Hs'. destruct r as [[] | e']; cbn.
      * apply assets_exist_stored, Hs'.
      * exact Hs'.
  - split; [exact Hi |]. intros r s' w' Hs. destruct r as [[] | e]; cbn.
    + apply assets_exist_stored, Hs.
    + exact Hs.
Qed.

Lemma assets_download_asset url asset_type referer :
  keeps (assets_exist cfg) (download_asset cfg url asset_type referer).
Proof.
  unfold download_asset, fail_asset.
  repeat first [apply assets_store_asset | keeps_with assets_side].
Qed.

Lemma assets_rewrite_html_urls html base_url :
  keeps (assets_exist cfg) (rewrite_html_urls cfg html base_url).
Proof.
  unfold rewrite_html_urls, rewrite_style_tag, rewrite_style_attr,
    apply_asset_task, rewrite_anchor, rewrite_css_urls, rewrite_css_url.
  repeat first [apply assets_download_asset | keeps_with assets_side].
Qed.

Lemma assets_fetch_page url : keeps (assets_exist cfg) (fetch_page cfg url).
Proof.
  unfold fetch_page, add_failed, can_fetch. repeat keeps_with assets_side.
Qed.

Lemma assets_store_fetched url depth p content content_type :
  keeps (assets_exist cfg) (store_fetched cfg url depth p content content_type).
Proof.
  unfold store_fetched, save_page_content, enqueue_new.
  repeat first [apply assets_rewrite_html_urls | keeps_with assets_side].
Qed.

Lemma assets_process_url url depth :
  keeps (assets_exist cfg) (process_url cfg url depth).
Proof.
  apply process_url_keeps; try assets_side.
  - apply assets_fetch_page.
  - intros p content content_type cookies s w Hp Hdepth Hi.
    apply keeps_apply; [apply assets_store_fetched |].
    unfold count_fetched, count_page.
    destruct cookies; destruct (_ <=? _)%Z; exact Hi.
Qed.

(** X10: in every state that the workers reach, every entry of
    [asset_map] names a file that has been written under [output_dir]. *)
Theorem asset_map_files_exist (sys : Sys) (u lp : string) :
  reachable cfg sys ->
  asset_map (shared sys) !! u = Some lp ->
  is_Some (disk (world sys) !! (output_dir cfg ++ "/" ++ lp)).
Proof.
  intros Hr.
  assert (Hok : sys_ok (assets_exist cfg) sys).
  { apply (reachable_invariant cfg (assets_exist cfg)); [| | | exact Hr].
    - intros x y Hx. cbn in Hx. rewrite lookup_empty in Hx. discriminate.
    - intros s w q Hi. exact Hi.
    - apply assets_process_url. }
  apply Hok.
Qed.

End AssetFiles.

Lemma asset_map_files_exist_witness :
  exists sys : Sys,
    @perform_all UrlLib.lib MiniRobots.lib MiniSoup.lib Site.cfg_two
      (init_sys Site.cfg_two)
      (Site.schedule_logo
       ++ [Respond 0 (Site.ok "bytes" "image/png"); Written 0 (Ret tt)])%list
    = Some sys
    /\ asset_map (shared sys) !! "http://h/logo.png"
       = Some "images/77892f63d34c051137f1fd14a0fc706c.png"
    /\ is_Some (disk (world sys)
                  !! ("out" ++ "/" ++ "images/77892f63d34c051137f1fd14a0fc706c.png")).
Proof.
  assert (Hc :
    match @perform_all UrlLib.lib MiniRobots.lib MiniSoup.lib Site.cfg_two
            (init_sys Site.cfg_two)
            (Site.schedule_logo
             ++ [Respond 0 (Site.ok "bytes" "image/png"); Written 0 (Ret tt)])%list
    with
    | Some sys => asset_map (shared sys) !! "http://h/logo.png"
                  = Some "images/77892f63d34c051137f1fd14a0fc706c.png"
    | None => False
    end) by (vm_compute; reflexivity).
  destruct (@perform_all UrlLib.lib MiniRobots.lib MiniSoup.lib Site.cfg_two
              (init_sys Site.cfg_two) _) as [sys |] eqn:E; [| contradiction].
  exists sys. split; [reflexivity |]. split; [exact Hc |].
  apply (@asset_map_files_exist UrlLib.lib MiniRobots.lib MiniSoup.lib
           Site.cfg_two sys "http://h/logo.png"
           "images/77892f63d34c051137f1fd14a0fc706c.png").
  - exact (perform_all_reachable Site.cfg_two _ _ sys
             (reach_init Site.cfg_two) E).
  - exact Hc.
Defined.

(** ** The records of the pages *)

Section Records.
Context `{PyLib} `{RobotLib} `{SoupLib}.
Variable cfg : Config.

Ltac records_side :=
  first [ let Hi := fresh in intros ? ? Hi; exact Hi
        | let Hi := fresh in intros ? ? ? Hi; exact Hi
        | let Hi := fresh in intros ? ? ? ? ? Hi; exact Hi ].

Lemma records_rewrite_html_urls html base_url :
  keeps (records_ok cfg) (rewrite_html_urls cfg html base_url).
Proof.
  unfold rewrite_html_urls, rewrite_style_tag, rewrite_style_attr,
    apply_asset_task, rewrite_anchor, rewrite_css_urls, rewrite_css_url,
    download_asset, store_asset, fail_asset.
  repeat keeps_with records_side.
Qed.

Lemma records_fetch_page url : keeps (records_ok cfg) (fetch_page cfg url).
Proof.
  unfold fetch_page, add_failed, can_fetch. repeat keeps_with records_side.
Qed.

Lemma records_enqueue_new depth new_url :
  (0 <= depth)%Z -> keeps (records_ok cfg) (enqueue_new depth tt new_url).
Proof.
  intros Hd. unfold enqueue_new.
  apply keeps_bind; [apply keeps_read |]. intros s0.
  destruct (_ && _); [| apply keeps_ret].
  apply keeps_modify. intros s w [Hq Hr]. split; [| exact Hr]. cbn.
  apply Forall_app. split; [exact Hq |].
  constructor; [cbn; lia | constructor].
Qed.

Lemma records_process_url url depth :
  (0 <= depth)%Z -> keeps (records_ok cfg) (process_url cfg url depth).
Proof.
  intros Hd. apply process_url_keeps; try records_side.
  - apply records_fetch_page.
  - intros p content content_type cookies s w Hp Hdepth Hi.
    assert (Hi' : records_ok cfg (count_fetched cfg p content cookies s) w).
    { unfold count_fetched, count_page.
      destruct cookies; destruct (_ <=? _)%Z; exact Hi. }
    revert Hi'. generalize (count_fetched cfg p content cookies s).
    clear s Hi. intros s Hi. apply keeps_apply; [| exact Hi]. clear s w Hi.
    unfold store_fetched.
    apply keeps_bind.
    { destruct (Py.contains "html" content_type);
        [apply records_rewrite_html_urls | apply keeps_ret]. }
    intros content0.
    eapply ensures_bind;
      [apply save_page_content_ensures; records_side |].
    intros filepath s w [[Hq Hr] Hf]. task_step.
    apply keeps_apply.
    + destruct (_ && _); [| apply keeps_ret].
      apply keeps_for_each. intros [] new_url.
      apply records_enqueue_new, Hd.
    + split; [exact Hq |]. intros u rec. cbn.
      destruct (decide (url = u)) as [<- | Hne].
      * rewrite lookup_insert_eq. intros [= <-]. cbn.
        split; [reflexivity |]. split; [cbn; lia |]. split; [exact Hf |].
        exists p. split; [exact Hp | reflexivity].
      * rewrite lookup_insert_ne by exact Hne. apply Hr.
Qed.

(** X11: in every state that the workers reach, a record of
    [scraped_data] has its key as URL, a depth from 0 to [max_depth], as
    file path nothing or the path that [save_page_content] computes for
    its URL and content type, and as domain the network location of its
    URL. *)
Theorem scraped_records_well_formed (sys : Sys) (u : string) (rec : PageRecord) :
  reachable cfg sys ->
  scraped_data (shared sys) !! u = Some rec ->
  pr_url rec = u
  /\ (0 <= pr_depth rec <= max_depth cfg)%Z
  /\ (pr_filepath rec = None
      \/ pr_filepath rec = Some (page_filepath cfg u (pr_content_type rec)))
  /\ exists p, urlparse u = Ret p /\ pr_domain rec = netloc p.
Proof.
  intros Hr.
  assert (Hok : sys_ok (records_ok cfg) sys).
  { apply (reachable_invariant_items cfg (records_ok cfg)); [| | | exact Hr].
    - split; cbn.
      + constructor; [cbn; lia | constructor].
      + intros x y Hx. rewrite lookup_empty in Hx. discriminate.
    - intros s w x q [Hq Hrec] Eq. split; [| exact Hrec]. cbn.
      rewrite Eq in Hq. inversion Hq; assumption.
    - intros s w url depth q [Hq Hrec] Eq.
      rewrite Eq in Hq. inversion Hq as [| ? ? Hd Hq']; subst.
      apply keeps_apply; [apply records_process_url; exact Hd |].
      split; [exact Hq' | exact Hrec]. }
  apply Hok.
Qed.

End Records.

Lemma scraped_records_well_formed_witness :
  exists (sys : Sys) (rec : PageRecord),
    @perform_all UrlLib.lib MiniRobots.lib MiniSoup.lib Site.cfg_two
      (init_sys Site.cfg_two) Site.schedule_seed = Some sys
    /\ scraped_data (shared sys) !! "http://h/a" = Some rec
    /\ pr_url rec = "http://h/a"
    /\ (0 <= pr_depth rec <= max_depth Site.cfg_two)%Z
    /\ (pr_filepath rec = None
        \/ pr_filepath rec
           = Some (@page_filepath Site.cfg_two "http://h/a" (pr_content_type rec)))
    /\ exists p, @urlparse UrlLib.lib "http://h/a" = Ret p
                 /\ pr_domain rec = netloc p.
Proof.
  assert (Hc :
    match @perform_all UrlLib.lib MiniRobots.lib MiniSoup.lib Site.cfg_two
            (init_sys Site.cfg_two) Site.schedule_seed with
    | Some sys => is_Some (scraped_data (shared sys) !! "http://h/a")
    | None => False
    end) by (vm_compute; eexists; reflexivity).
  destruct (@perform_all UrlLib.lib MiniRobots.lib MiniSoup.lib Site.cfg_two
              (init_sys Site.cfg_two) Site.schedule_seed) as [sys |] eqn:E;
    [| contradiction].
  destruct Hc as [rec Hrec].
  exists sys, rec. split; [reflexivity |]. split; [exact Hrec |].
  apply (@scraped_records_well_formed UrlLib.lib MiniRobots.lib MiniSoup.lib
           Site.cfg_two sys "http://h/a" rec).
  - exact (perform_all_reachable Site.cfg_two Site.schedule_seed _ sys
             (reach_init Site.cfg_two) E).
  - exact Hrec.
Defined.

Section GhostRules.
Context `{RobotLib} {G : Type}.
Variable J : Scraper -> World -> list G -> Prop.

Lemma wpG_mono {A : Type} (t : Step A) (w : World) (f : list G)
    (Q Q' : Exc A -> Scraper -> World -> list G -> Prop) :
  (forall r s w' f', Q r s w' f' -> Q' r s w' f') ->
  wpG J t w f Q -> wpG J t w f Q'.
Proof.
  intros HQ. revert w f.
  induction t as [r s | p url s k IH | pa c s k IH]; intros w f; cbn.
  - apply HQ.
  - intros (g & Hi & Hk). exists g. split; [exact Hi |].
    intros r s' w' f' Hs. apply IH, Hk, Hs.
  - intros (g & Hi & Hk). exists g. split; [exact Hi |].
    intros r s' w' f' Hs. apply IH, Hk, Hs.
Qed.

Lemma wpG_bind {A B : Type} (t : Step A) (k : A -> Task B) (w : World)
    (f : list G) (Q : Exc B -> Scraper -> World -> list G -> Prop) :
  wpG J t w f (fun r s w' f' =>
                 match r with
                 | Ret a => wpG J (k a s) w' f' Q
                 | Raise e => Q (Raise e) s w' f'
                 end) ->
  wpG J (step_bind t k) w f Q.
Proof.
  revert w f.
  induction t as [r s | p url s k0 IH | pa c s k0 IH]; intros w f; cbn.
  - destruct r; auto.
  - intros (g & Hi & Hk). exists g. split; [exact Hi |].
    intros r s' w' f' Hs. apply IH, Hk, Hs.
  - intros (g & Hi & Hk). exists g. split; [exact Hi |].
    intros r s' w' f' Hs. apply IH, Hk, Hs.
Qed.

Lemma wpG_catch {A : Type} (t : Step A) (h : exn -> Task A) (w : World)
    (f : list G) (Q : Exc A -> Scraper -> World -> list G -> Prop) :
  wpG J t w f (fun r s w' f' =>
                 match r with
                 | Ret a => Q (Ret a) s w' f'
                 | Raise e => wpG J (h e s) w' f' Q
                 end) ->
  wpG J (step_catch t h) w f Q.
Proof.
  revert w f.
  induction t as [r s | p url s k0 IH | pa c s k0 IH]; intros w f; cbn.
  - destruct r; auto.
  - intros (g & Hi & Hk). exists g. split; [exact Hi |].
    intros r s' w' f' Hs. apply IH, Hk, Hs.
  - intros (g & Hi & Hk). exists g. split; [exact Hi |].
    intros r s' w' f' Hs. apply IH, Hk, Hs.
Qed.

Variable g : G.

Lemma keepsG_ret {A : Type} (a : A) : keepsG J g (mret a).
Proof. intros s w f Hi. exact Hi. Qed.

Lemma keepsG_raise {A : Type} (e : exn) : keepsG J g (@task_raise _ A e).
Proof. intros s w f Hi. exact Hi. Qed.

Lemma keepsG_lift {A : Type} (c : Exc A) : keepsG J g (lift c).
Proof. intros s w f Hi. exact Hi. Qed.

Lemma keepsG_read {A : Type} (r : Scraper -> A) : keepsG J g (read r).
Proof. intros s w f Hi. exact Hi. Qed.

Lemma keepsG_modify (u : Scraper -> Scraper) :
  (forall s w f, J s w (g :: f) -> J (u s) w (g :: f)) -> keepsG J g (modify u).
Proof. intros Hu s w f Hi. cbn. apply Hu, Hi. Qed.

Lemma keepsG_get (p : profile) (url : string) :
  (forall s w f, J s w (g :: f) -> J s (log_request w p url) (g :: f)) ->
  keepsG J g (await_get p url).
Proof.
  intros Hl s w f Hi. cbn. exists g. split; [apply Hl, Hi |].
  intros r s' w' f' Hs. exact Hs.
Qed.

Lemma keepsG_write (pa c : string) :
  (forall s w f r, J s w (g :: f) -> J s (record_write w pa c r) (g :: f)) ->
  keepsG J g (await_write pa c).
Proof.
  intros Hd s w f Hi. cbn. exists g. split; [exact Hi |].
  intros r s' w' f' Hs. apply Hd, Hs.
Qed.

Lemma keepsG_bind {A B : Type} (m : Task A) (k : A -> Task B) :
  keepsG J g m -> (forall a, keepsG J g (k a)) -> keepsG J g (m ≫= k).
Proof.
  intros Hm Hk s w f Hi. unfold mbind, Task_bind, task_bind.
  apply wpG_bind. eapply wpG_mono; [| apply Hm, Hi].
  intros [a | e] s' w' f' Hs; [apply Hk, Hs | exact Hs].
Qed.

Lemma keepsG_try {A : Type} (m : Task A) (h : exn -> Task A) :
  keepsG J g m -> (forall e, keepsG J g (h e)) -> keepsG J g (task_try m h).
Proof.
  intros Hm Hh s w f Hi. unfold task_try.
  apply wpG_catch. eapply wpG_mono; [| apply Hm, Hi].
  intros [a | e] s' w' f' Hs; [exact Hs | apply Hh, Hs].
Qed.

Lemma keepsG_for_each {A S : Type} (l : list A) (body : S -> A -> Task S)
    (acc : S) :
  (forall acc x, In x l -> keepsG J g (body acc x)) ->
  keepsG J g (for_each l body acc).
Proof.
  revert acc. induction l as [| x r IH]; intros acc Hb; cbn [for_each].
  - apply keepsG_ret.
  - apply keepsG_bind; [apply Hb; left; reflexivity |].
    intros acc'. apply IH. intros a y Hy. apply Hb. right. exact Hy.
Qed.

Lemma keepsG_apply {A : Type} (m : Task A) (s : Scraper) (w : World)
    (f : list G) :
  keepsG J g m -> J s w (g :: f) ->
  wpG J (m s) w f (fun _ s' w' f' => J s' w' (g :: f')).
Proof. intros Hm Hi. apply Hm, Hi. Qed.

End GhostRules.

(** One layer of a task, with [side] for what a step asks of the
    property. *)
Ltac keepsG_with side :=
  lazymatch goal with
  | |- keepsG _ _ (mbind _ _) => apply keepsG_bind; [| intros ?]
  | |- keepsG _ _ (task_try _ _) => apply keepsG_try; [| intros ?]
  | |- keepsG _ _ (mret _) => apply keepsG_ret
  | |- keepsG _ _ (task_raise _) => apply keepsG_raise
  | |- keepsG _ _ (lift _) => apply keepsG_lift
  | |- keepsG _ _ (read _) => apply keepsG_read
  | |- keepsG _ _ (await_get _ _) => apply keepsG_get; side
  | |- keepsG _ _ (await_write _ _) => apply keepsG_write; side
  | |- keepsG _ _ (modify _) => apply keepsG_modify; side
  | |- keepsG _ _ (for_each _ _ _) => apply keepsG_for_each; intros ? ? ?
  | |- keepsG _ _ (if ?b then _ else _) => destruct b
  | |- keepsG _ _ (match ?x with _ => _ end) => destruct x
  | |- keepsG _ _ (let _ := _ in _) => cbv zeta
  end.

Lemma list_delete_insert_same {A : Type} (l : list A) (i : nat) (x : A) :
  delete i (<[i := x]> l) = delete i l.
Proof.
  revert i. induction l as [| y l IH]; intros [| i]; cbn; try reflexivity.
  f_equal. apply IH.
Qed.

Lemma insert_Permutation_delete {A : Type} (l : list A) (i : nat) (x : A) :
  (i < length l)%nat -> <[i := x]> l ≡ₚ x :: delete i l.
Proof.
  intros Hi. rewrite <- (list_delete_insert_same l i x).
  apply delete_Permutation, list_lookup_insert_eq. exact Hi.
Qed.

Section GhostSound.
Context `{PyLib} `{RobotLib} `{SoupLib} {G : Type}.
Variable cfg : Config.
Variable J : Scraper -> World -> list G -> Prop.
Variable idle : G.

Hypothesis J_perm :
  forall s w gs gs', gs ≡ₚ gs' -> J s w gs -> J s w gs'.
Hypothesis J_init :
  J (shared (init_sys cfg)) (world (init_sys cfg)) (repeat idle (max_workers cfg)).
Hypothesis J_queue : forall s w gs q, J s w gs -> J (set_queue q s) w gs.
Hypothesis J_process :
  forall url depth s w f,
    J s w (idle :: f) ->
    wpG J (process_url cfg url depth s) w f (fun _ s' w' f' => J s' w' (idle :: f')).

Lemma settle_okG (sys : Sys) (w : World) (gs : list G) (i : nat) (g : G)
    (t : Step unit) :
  Forall2 (waiting_okG J idle) gs (workers sys) ->
  gs !! i = Some g ->
  wpG J t w (delete i gs) (fun _ s w' f => J s w' (idle :: f)) ->
  sys_okG J idle (settle (mkSys (shared sys) w (workers sys)) i t).
Proof.
  intros Hw Hg Ht.
  assert (Hi : (i < length gs)%nat) by (eapply lookup_lt_Some; exact Hg).
  destruct t as [r s | p url s k | pa c s k]; cbn in *.
  - exists (<[i := idle]> gs). cbn. split.
    + apply (J_perm _ _ (idle :: delete i gs)); [| exact Ht].
      symmetry. apply insert_Permutation_delete, Hi.
    + apply Forall2_insert; [exact Hw | reflexivity].
  - destruct Ht as (g' & Hj & Hk). exists (<[i := g']> gs). cbn. split.
    + apply (J_perm _ _ (g' :: delete i gs)); [| exact Hj].
      symmetry. apply insert_Permutation_delete, Hi.
    + apply Forall2_insert; [exact Hw | exact Hk].
  - destruct Ht as (g' & Hj & Hk). exists (<[i := g']> gs). cbn. split.
    + apply (J_perm _ _ (g' :: delete i gs)); [| exact Hj].
      symmetry. apply insert_Permutation_delete, Hi.
    + apply Forall2_insert; [exact Hw | exact Hk].
Qed.

(** A property with notes that holds at the start and that [process_url]
    keeps from one suspension point to the next, from the note [idle] to
    the note [idle], holds in every state the workers can reach. *)
Lemma reachable_invariantG (sys : Sys) : reachable cfg sys -> sys_okG J idle sys.
Proof.
  induction 1 as [| sys sys' Hr IH Hstep].
  - exists (repeat idle (max_workers cfg)). split; [exact J_init |]. cbn.
    assert (Hall : forall n, Forall2 (waiting_okG J idle) (repeat idle n)
                               (repeat Idle n)).
    { intros n. induction n as [| n IHn]; cbn; constructor;
        [reflexivity | exact IHn]. }
    apply Hall.
  - destruct IH as (gs & Hj & Hw).
    destruct Hstep as [i url depth q Hwk Hstop Hq | url depth q Hstop Hq
                      | i p url s0 k r Hwk | i pa c s0 k r Hwk].
    + destruct (Forall2_lookup_r _ _ _ _ _ Hw Hwk) as (g & Hg & Hc).
      cbn in Hc. subst g.
      replace sys with (mkSys (shared sys) (world sys) (workers sys))
        at 1 by (destruct sys; reflexivity).
      apply (settle_okG sys (world sys) gs i idle); [exact Hw | exact Hg |].
      apply J_process, J_queue.
      apply (J_perm _ _ gs); [apply delete_Permutation, Hg | exact Hj].
    + exists gs. split; [apply J_queue, Hj | exact Hw].
    + destruct (Forall2_lookup_r _ _ _ _ _ Hw Hwk) as (g & Hg & Hc).
      cbn in Hc.
      replace sys with (mkSys (shared sys) (world sys) (workers sys))
        at 1 by (destruct sys; reflexivity).
      apply (settle_okG sys (world sys) gs i g); [exact Hw | exact Hg |].
      apply Hc. apply (J_perm _ _ gs); [apply delete_Permutation, Hg | exact Hj].
    + destruct (Forall2_lookup_r _ _ _ _ _ Hw Hwk) as (g & Hg & Hc).
      cbn in Hc.
      apply (settle_okG sys _ gs i g); [exact Hw | exact Hg |].
      apply Hc. apply (J_perm _ _ gs); [apply delete_Permutation, Hg | exact Hj].
Qed.

End GhostSound.

Lemma tally_Permutation {G : Type} (P : G -> bool) (gs gs' : list G) :
  gs ≡ₚ gs' -> tally P gs = tally P gs'.
Proof.
  induction 1 as [| x l l' Hp IH | x y l | l l1 l2 H1 IH1 H2 IH2]; cbn.
  - reflexivity.
  - rewrite IH. reflexivity.
  - lia.
  - congruence.
Qed.

Lemma tally_bounds {G : Type} (P : G -> bool) (gs : list G) :
  (0 <= tally P gs <= Z.of_nat (length gs))%Z.
Proof.
  induction gs as [| g r IH]; cbn [tally length]; [lia |].
  destruct (P g); lia.
Qed.

Lemma tally_repeat_false {G : Type} (P : G -> bool) (g : G) (n : nat) :
  P g = false -> tally P (repeat g n) = 0%Z.
Proof.
  intros Hg. induction n as [| n IH]; cbn; [reflexivity |].
  rewrite Hg, IH. reflexivity.
Qed.



(** ** [process_url] in its pieces, with notes *)

Section PiecesG.
Context `{PyLib} `{RobotLib} `{SoupLib} {G : Type}.
Variable cfg : Config.
Variable J : Scraper -> World -> list G -> Prop.

(** [check_limits] answers [True] only below both limits, for a URL that
    parses, and then leaves the state as it is; otherwise it changes at
    most the signal. *)
Lemma check_limits_cases (url : string) (s : Scraper) :
  (exists p, urlparse url = Ret p
     /\ (pages_scraped_count s < max_pages cfg)%Z
     /\ (default 0%Z (domain_counts s !! netloc p) < pages_per_domain cfg)%Z
     /\ check_limits cfg url s = Done (Ret true) s)
  \/ (exists r s', check_limits cfg url s = Done r s'
        /\ r <> Ret true
        /\ (s' = s \/ s' = set_should_stop true s)).
Proof.
  unfold check_limits. task_step. unfold id.
  destruct (Z.leb_spec (max_pages cfg) (pages_scraped_count s)) as [Hle | Hlt].
  - right. destruct (should_stop s); cbn; eexists _, _;
      (split; [reflexivity |]); (split; [discriminate |]); auto.
  - destruct (urlparse url) as [p | e] eqn:Hp; cbn.
    + match goal with
      | |- context [(?a <=? ?b)%Z] => destruct (Z.leb_spec a b) as [Hd | Hd]
      end.
      * right. eexists _, _. split; [reflexivity |]. split; [discriminate | auto].
      * left. exists p. repeat split; assumption.
    + right. eexists _, _. split; [reflexivity |]. split; [discriminate | auto].
Qed.

(** A task that keeps its note may give it up with its result. *)
Lemma keepsG_result {A : Type} (g idle : G) (m : Task (option A)) :
  keepsG J g m ->
  (forall s w f, J s w (g :: f) -> J s w (idle :: f)) ->
  forall s w f, J s w (g :: f) ->
    wpG J (m s) w f
      (fun r s' w' f' =>
         match r with
         | Ret (Some _) => J s' w' (g :: f')
         | _ => J s' w' (idle :: f')
         end).
Proof.
  intros Hm Hdrop s w f Hi. eapply wpG_mono; [| apply Hm, Hi].
  intros [[a |] | e] s' w' f' Hs; cbn; auto.
Qed.

Section Store.
Variables counted idle : G.
Variable url : string.

Hypothesis J_rewrite :
  forall html, keepsG J counted (rewrite_html_urls cfg html url).
Hypothesis J_write :
  forall pa c s w f r, J s w (counted :: f) -> J s (record_write w pa c r) (counted :: f).
Hypothesis J_drop : forall s w f, J s w (counted :: f) -> J s w (idle :: f).
Hypothesis J_record :
  forall rec s w f,
    pr_url rec = url -> J s w (counted :: f) ->
    J (set_scraped_data (<[url := rec]> (scraped_data s)) s) w (idle :: f).
Hypothesis J_queue :
  forall q s w f, J s w (idle :: f) -> J (set_queue q s) w (idle :: f).

(** The page is rewritten and saved with the note [counted]; the note is
    [idle] once the page is recorded. *)
Lemma store_fetched_wpG (depth : Z) (p : ParseResult)
    (content content_type : string) (s : Scraper) (w : World) (f : list G) :
  J s w (counted :: f) ->
  wpG J (store_fetched cfg url depth p content content_type s) w f
    (fun _ s' w' f' => J s' w' (idle :: f')).
Proof.
  intros Hi. unfold store_fetched.
  unfold mbind at 1, Task_bind at 1, task_bind at 1.
  apply wpG_bind.
  eapply wpG_mono;
    [| apply (keepsG_apply J counted
                (if Py.contains "html" content_type
                 then rewrite_html_urls cfg content url else mret content));
       [destruct (Py.contains "html" content_type);
          [apply J_rewrite | apply keepsG_ret] | exact Hi]].
  clear s w f Hi. intros [content0 | e] s w f Hi; [| apply J_drop, Hi].
  unfold save_page_content. task_step. cbn.
  exists counted. split; [exact Hi |]. intros r s' w' f' Hs.
  assert (Hrec : forall filepath,
    wpG J
      (step_bind
         (Done (Ret filepath) s')
         (fun filepath : option string =>
            (modify (fun s0 : Scraper =>
               set_scraped_data
                 (<[url := mkPage url content_type filepath depth
                             (String.length content0) (netloc p)]>
                    (scraped_data s0)) s0);;
             stop ← read should_stop;
             if Py.contains "html" content_type && negb stop
             then for_each (extract_urls cfg content0 url) (enqueue_new depth) tt
             else mret tt)))
      (record_write w' (page_filepath cfg url content_type) content0 r) f'
      (fun _ s0 w0 f0 => J s0 w0 (idle :: f0))).
  { intros filepath. cbn [step_bind]. task_step.
    match goal with
    | |- wpG _ (?m ?s0) _ _ _ => apply (keepsG_apply J idle m s0)
    end.
    - destruct (_ && _); [| apply keepsG_ret].
      apply keepsG_for_each. intros [] new_url _. unfold enqueue_new.
      apply keepsG_bind; [apply keepsG_read |]. intros s0.
      destruct (_ && _); [| apply keepsG_ret].
      apply keepsG_modify. intros s1 w1 f1 H1'. apply J_queue, H1'.
    - apply J_record; [reflexivity |]. apply J_write, Hs. }
  destruct r as [[] | e]; cbn [step_bind step_catch]; apply Hrec.
Qed.

End Store.

(** [process_url] keeps a property with notes, from the note [idle] to
    the note [idle], when the property allows the note [busy] where the
    URL is put in [visited_urls], [fetch_page] turns it to [got] where
    there is a page, counting the page turns that to [counted], and
    recording the page turns that to [idle]. *)
Lemma process_url_keepsG (idle busy got counted : G) (url : string) (depth : Z) :
  (forall s w f, J s w (idle :: f) -> J (set_should_stop true s) w (idle :: f)) ->
  (forall p s w f,
      J s w (idle :: f) -> urlparse url = Ret p ->
      url ∉ visited_urls s ->
      (pages_scraped_count s < max_pages cfg)%Z ->
      (default 0%Z (domain_counts s !! netloc p) < pages_per_domain cfg)%Z ->
      J (set_visited_urls ({[url]} ∪ visited_urls s) s) w (busy :: f)) ->
  (forall s w f,
      J s w (busy :: f) ->
      wpG J (fetch_page cfg url s) w f
        (fun r s' w' f' =>
           match r with
           | Ret (Some _) => J s' w' (got :: f')
           | _ => J s' w' (idle :: f')
           end)) ->
  (forall p content cookies s w f,
      urlparse url = Ret p -> J s w (got :: f) ->
      J (count_fetched cfg p content cookies s) w (counted :: f)) ->
  (forall html, keepsG J counted (rewrite_html_urls cfg html url)) ->
  (forall pa c s w f r,
      J s w (counted :: f) -> J s (record_write w pa c r) (counted :: f)) ->
  (forall s w f, J s w (counted :: f) -> J s w (idle :: f)) ->
  (forall rec s w f,
      pr_url rec = url -> J s w (counted :: f) ->
      J (set_scraped_data (<[url := rec]> (scraped_data s)) s) w (idle :: f)) ->
  (forall q s w f, J s w (idle :: f) -> J (set_queue q s) w (idle :: f)) ->
  forall s w f, J s w (idle :: f) ->
    wpG J (process_url cfg url depth s) w f (fun _ s' w' f' => J s' w' (idle :: f')).
Proof.
  intros Hstop Hmark Hfetch Hcount Hrewrite Hwrite Hdrop Hrecord Hqueue s w f Hi.
  unfold process_url.
  unfold mbind at 1, Task_bind at 1, task_bind at 1, read at 1. cbn [step_bind].
  destruct (should_stop s) eqn:Hs; [exact Hi |].
  unfold mbind at 1, Task_bind at 1, task_bind at 1, read at 1. cbn [step_bind].
  destruct (decide (url ∈ visited_urls s)) as [Hin | Hnin].
  { rewrite bool_decide_eq_true_2 by exact Hin. exact Hi. }
  rewrite bool_decide_eq_false_2 by exact Hnin. cbn [orb].
  destruct (Z.ltb_spec (max_depth cfg) depth) as [Hdeep | Hdepth]; [exact Hi |].
  unfold mbind at 1, Task_bind at 1, task_bind at 1.
  destruct (check_limits_cases url s)
    as [(p & Hp & Hc & Hd & ->) | (r & s' & -> & Hr & Hs')]; cbn [step_bind].
  2:{ destruct r as [[|] | e]; cbn; try congruence;
        destruct Hs' as [-> | ->]; auto. }
  cbn [negb].
  unfold mbind at 1, Task_bind at 1, task_bind at 1, modify at 1. cbn [step_bind].
  unfold mbind at 1, Task_bind at 1, task_bind at 1.
  apply wpG_bind.
  eapply wpG_mono; [| apply Hfetch, (Hmark p s w f Hi Hp Hnin Hc Hd)].
  intros [[[[content content_type] cookies] |] | e] s' w' f' Hs''; cbn;
    [| exact Hs'' | exact Hs''].
  unfold add_page. task_step. rewrite Hp. task_step.
  pose proof (store_fetched_wpG counted idle url Hrewrite Hwrite Hdrop Hrecord
                Hqueue depth p content content_type
                (count_fetched cfg p content cookies s') w' f'
                (Hcount p content cookies s' w' f' Hp Hs'')) as Hst.
  unfold store_fetched, count_fetched in Hst. task_step.
  destruct cookies; exact Hst.
Qed.

End PiecesG.

(** ** How far the counters can pass the caps *)

Section Cap.
Context `{PyLib} `{RobotLib} `{SoupLib}.
Variable cfg : Config.

Ltac cap_side :=
  first [ let Hi := fresh in intros ? ? ? Hi; exact Hi
        | let Hi := fresh in intros ? ? ? ? Hi; exact Hi ].

Lemma cap_fetch_page g url : keepsG (cap_credit cfg) g (fetch_page cfg url).
Proof.
  unfold fetch_page, add_failed, can_fetch. repeat keepsG_with cap_side.
Qed.

Lemma cap_rewrite_html_urls g html url :
  keepsG (cap_credit cfg) g (rewrite_html_urls cfg html url).
Proof.
  unfold rewrite_html_urls, rewrite_style_tag, rewrite_style_attr,
    apply_asset_task, rewrite_anchor, rewrite_css_urls, rewrite_css_url,
    download_asset, store_asset, fail_asset.
  repeat keepsG_with cap_side.
Qed.

Lemma cap_process_url url depth s w f :
  cap_credit cfg s w (false :: f) ->
  wpG (cap_credit cfg) (process_url cfg url depth s) w f
    (fun _ s' w' f' => cap_credit cfg s' w' (false :: f')).
Proof.
  apply (process_url_keepsG cfg (cap_credit cfg) false true true false).
  - intros s0 w0 f0 Hi. exact Hi.
  - intros p s0 w0 f0 [Hl Hi] Hp Hnin Hc Hd. split; [exact Hl |].
    cbn [tally id pages_scraped_count set_visited_urls length] in *.
    pose proof (tally_bounds id f0). lia.
  - apply keepsG_result; [apply cap_fetch_page |].
    intros s0 w0 f0 [Hl Hi]. split; [exact Hl |]. cbn [tally id] in *. lia.
  - intros p content cookies s0 w0 f0 Hp [Hl Hi]. split; [exact Hl |].
    unfold count_fetched, count_page. cbn [tally id] in *.
    destruct cookies; destruct (_ <=? _)%Z; cbn; lia.
  - intros html. apply cap_rewrite_html_urls.
  - intros pa c s0 w0 f0 r Hi. exact Hi.
  - intros s0 w0 f0 Hi. exact Hi.
  - intros rec s0 w0 f0 _ Hi. exact Hi.
  - intros q s0 w0 f0 Hi. exact Hi.
Qed.

(** X12: the counter of pages passes [max_pages] by less than the number
    of workers, in every state the workers can reach; with one worker it
    never passes it. *)
Theorem page_cap_overshoot_bounded (sys : Sys) :
  (0 < max_pages cfg)%Z ->
  reachable cfg sys ->
  (pages_scraped_count (shared sys)
   <= max_pages cfg + Z.of_nat (max_workers cfg) - 1)%Z
  /\ (max_workers cfg = 1%nat ->
      (pages_scraped_count (shared sys) <= max_pages cfg)%Z).
Proof.
  intros Hpos Hr.
  assert (Hok : sys_okG (cap_credit cfg) false sys).
  { apply (reachable_invariantG cfg (cap_credit cfg) false); [| | | | exact Hr].
    - intros s w gs gs' Hp [Hl Hi]. split.
      + rewrite <- Hl. symmetry. apply Permutation_length, Hp.
      + rewrite <- (tally_Permutation id gs gs' Hp). exact Hi.
    - split; [apply repeat_length |]. cbn.
      rewrite tally_repeat_false by reflexivity. lia.
    - intros s w gs q Hi. exact Hi.
    - intros url depth s w f. apply cap_process_url. }
  destruct Hok as (gs & [Hl Hi] & _).
  pose proof (tally_bounds id gs). split; [lia |]. intros Hone. lia.
Qed.

Lemma domain_fetch_page g url : keepsG (domain_credit cfg) g (fetch_page cfg url).
Proof.
  unfold fetch_page, add_failed, can_fetch. repeat keepsG_with cap_side.
Qed.

Lemma domain_rewrite_html_urls g html url :
  keepsG (domain_credit cfg) g (rewrite_html_urls cfg html url).
Proof.
  unfold rewrite_html_urls, rewrite_style_tag, rewrite_style_attr,
    apply_asset_task, rewrite_anchor, rewrite_css_urls, rewrite_css_url,
    download_asset, store_asset, fail_asset.
  repeat keepsG_with cap_side.
Qed.

Lemma domain_process_url url depth s w f :
  domain_credit cfg s w (None :: f) ->
  wpG (domain_credit cfg) (process_url cfg url depth s) w f
    (fun _ s' w' f' => domain_credit cfg s' w' (None :: f')).
Proof.
  destruct (urlparse url) as [p | e] eqn:Hp.
  2:{ apply (process_url_keepsG cfg (domain_credit cfg) None None None None).
      - intros s0 w0 f0 Hi. exact Hi.
      - intros p s0 w0 f0 _ Hp'. congruence.
      - apply keepsG_result; [apply domain_fetch_page | cap_side].
      - intros p content cookies s0 w0 f0 Hp'. congruence.
      - intros html. apply domain_rewrite_html_urls.
      - intros pa c s0 w0 f0 r Hi. exact Hi.
      - intros s0 w0 f0 Hi. exact Hi.
      - intros rec s0 w0 f0 _ Hi. exact Hi.
      - intros q s0 w0 f0 Hi. exact Hi. }
  apply (process_url_keepsG cfg (domain_credit cfg) None
           (Some (netloc p)) (Some (netloc p)) None).
  - intros s0 w0 f0 Hi. exact Hi.
  - intros p' s0 w0 f0 [Hl Hi] Hp' Hnin Hc Hd.
    assert (p' = p) by congruence. subst p'.
    split; [exact Hl |]. intros d. specialize (Hi d).
    cbn [tally domain_counts set_visited_urls length] in *.
    destruct (decide (d = netloc p)) as [-> | Hne].
    + rewrite bool_decide_eq_true_2 by reflexivity.
      rewrite bool_decide_eq_false_2 in Hi by discriminate.
      pose proof (tally_bounds (fun g => bool_decide (g = Some (netloc p))) f0).
      lia.
    + rewrite (bool_decide_eq_false_2 (Some (netloc p) = Some d)) by congruence.
      rewrite bool_decide_eq_false_2 in Hi by discriminate. exact Hi.
  - apply keepsG_result; [apply domain_fetch_page |].
    intros s0 w0 f0 [Hl Hi]. split; [exact Hl |]. intros d. specialize (Hi d).
    cbn [tally] in *. rewrite (bool_decide_eq_false_2 (None = Some d)) by discriminate.
    destruct (bool_decide (Some (netloc p) = Some d)); lia.
  - intros p' content cookies s0 w0 f0 Hp' [Hl Hi].
    assert (p' = p) by congruence. subst p'.
    split; [exact Hl |]. intros d. specialize (Hi d).
    assert (Hdc : domain_counts (count_fetched cfg p content cookies s0)
                  = <[netloc p := (default 0 (domain_counts s0 !! netloc p) + 1)%Z]>
                      (domain_counts s0)).
    { unfold count_fetched, count_page.
      destruct cookies; destruct (_ <=? _)%Z; reflexivity. }
    rewrite Hdc. cbn [tally] in *.
    rewrite (bool_decide_eq_false_2 (None = Some d)) by discriminate.
    destruct (decide (d = netloc p)) as [-> | Hne].
    + rewrite lookup_insert_eq. cbn.
      rewrite bool_decide_eq_true_2 in Hi by reflexivity. lia.
    + rewrite lookup_insert_ne by congruence.
      rewrite (bool_decide_eq_false_2 (Some (netloc p) = Some d)) in Hi by congruence.
      exact Hi.
  - intros html. apply domain_rewrite_html_urls.
  - intros pa c s0 w0 f0 r Hi. exact Hi.
  - intros s0 w0 f0 Hi. exact Hi.
  - intros rec s0 w0 f0 _ Hi. exact Hi.
  - intros q s0 w0 f0 Hi. exact Hi.
Qed.

(** X13: the count of the pages of a domain passes [pages_per_domain] by
    less than the number of workers, in every state the workers can
    reach; with one worker it never passes it. *)
Theorem domain_cap_overshoot_bounded (sys : Sys) (d : string) :
  (0 < pages_per_domain cfg)%Z ->
  reachable cfg sys ->
  (default 0 (domain_counts (shared sys) !! d)
   <= pages_per_domain cfg + Z.of_nat (max_workers cfg) - 1)%Z
  /\ (max_workers cfg = 1%nat ->
      (default 0 (domain_counts (shared sys) !! d) <= pages_per_domain cfg)%Z).
Proof.
  intros Hpos Hr.
  assert (Hok : sys_okG (domain_credit cfg) None sys).
  { apply (reachable_invariantG cfg (domain_credit cfg) None); [| | | | exact Hr].
    - intros s w gs gs' Hp [Hl Hi]. split.
      + rewrite <- Hl. symmetry. apply Permutation_length, Hp.
      + intros d'. rewrite <- (tally_Permutation _ gs gs' Hp). apply Hi.
    - split; [apply repeat_length |]. intros d'. cbn.
      rewrite lookup_empty. cbn.
      rewrite tally_repeat_false by reflexivity. lia.
    - intros s w gs q Hi. exact Hi.
    - intros url depth s w f. apply domain_process_url. }
  destruct Hok as (gs & [Hl Hi] & _). specialize (Hi d).
  pose proof (tally_bounds (fun g => bool_decide (g = Some d)) gs).
  split; [lia |]. intros Hone. lia.
Qed.

End Cap.

Lemma page_cap_overshoot_bounded_witness :
  exists sys : Sys,
    @perform_all UrlLib.lib MiniRobots.lib MiniSoup.lib Site.cfg_cap
      (init_sys Site.cfg_cap) Site.schedule_cap = Some sys
    /\ pages_scraped_count (shared sys) = 3%Z
    /\ (pages_scraped_count (shared sys)
        <= max_pages Site.cfg_cap + Z.of_nat (max_workers Site.cfg_cap) - 1)%Z.
Proof.
  assert (Hc :
    match @perform_all UrlLib.lib MiniRobots.lib MiniSoup.lib Site.cfg_cap
            (init_sys Site.cfg_cap) Site.schedule_cap with
    | Some sys => pages_scraped_count (shared sys) = 3%Z
    | None => False
    end) by (vm_compute; reflexivity).
  destruct (@perform_all UrlLib.lib MiniRobots.lib MiniSoup.lib Site.cfg_cap
              (init_sys Site.cfg_cap) Site.schedule_cap) as [sys |] eqn:E;
    [| contradiction].
  exists sys. split; [reflexivity |]. split; [exact Hc |].
  apply (@page_cap_overshoot_bounded UrlLib.lib MiniRobots.lib MiniSoup.lib
           Site.cfg_cap sys).
  - reflexivity.
  - exact (perform_all_reachable Site.cfg_cap Site.schedule_cap _ sys
             (reach_init Site.cfg_cap) E).
Defined.

Lemma domain_cap_overshoot_bounded_witness :
  exists sys : Sys,
    @perform_all UrlLib.lib MiniRobots.lib MiniSoup.lib Site.cfg_cap
      (init_sys Site.cfg_cap) Site.schedule_cap = Some sys
    /\ domain_counts (shared sys) !! "h" = Some 3%Z
    /\ (default 0 (domain_counts (shared sys) !! "h")
        <= pages_per_domain Site.cfg_cap + Z.of_nat (max_workers Site.cfg_cap) - 1)%Z.
Proof.
  assert (Hc :
    match @perform_all UrlLib.lib MiniRobots.lib MiniSoup.lib Site.cfg_cap
            (init_sys Site.cfg_cap) Site.schedule_cap with
    | Some sys => domain_counts (shared sys) !! "h" = Some 3%Z
    | None => False
    end) by (vm_compute; reflexivity).
  destruct (@perform_all UrlLib.lib MiniRobots.lib MiniSoup.lib Site.cfg_cap
              (init_sys Site.cfg_cap) Site.schedule_cap) as [sys |] eqn:E;
    [| contradiction].
  exists sys. split; [reflexivity |]. split; [exact Hc |].
  apply (@domain_cap_overshoot_bounded UrlLib.lib MiniRobots.lib MiniSoup.lib
           Site.cfg_cap sys "h").
  - reflexivity.
  - exact (perform_all_reachable Site.cfg_cap Site.schedule_cap _ sys
             (reach_init Site.cfg_cap) E).
Defined.

(** ** Pages recorded, pages counted, pages visited *)

Section Counts.
Context `{PyLib} `{RobotLib} `{SoupLib}.
Variable cfg : Config.

Ltac counts_side :=
  first [ let Hi := fresh in intros ? ? ? Hi; exact Hi
        | let Hi := fresh in intros ? ? ? ? Hi; exact Hi ].

Lemma counts_fetch_page g url : keepsG pages_in_step g (fetch_page cfg url).
Proof.
  unfold fetch_page, add_failed, can_fetch. repeat keepsG_with counts_side.
Qed.

Lemma counts_rewrite_html_urls g html url :
  keepsG pages_in_step g (rewrite_html_urls cfg html url).
Proof.
  unfold rewrite_html_urls, rewrite_style_tag, rewrite_style_attr,
    apply_asset_task, rewrite_anchor, rewrite_css_urls, rewrite_css_url,
    download_asset, store_asset, fail_asset.
  repeat keepsG_with counts_side.
Qed.

Lemma count_fetched_fields p content cookies (s : Scraper) :
  pages_scraped_count (count_fetched cfg p content cookies s)
    = (pages_scraped_count s + 1)%Z
  /\ scraped_data (count_fetched cfg p content cookies s) = scraped_data s
  /\ visited_urls (count_fetched cfg p content cookies s) = visited_urls s.
Proof.
  unfold count_fetched, count_page.
  destruct cookies; destruct (_ <=? _)%Z; cbn; repeat split; reflexivity.
Qed.

Lemma counts_process_url url depth s w f :
  pages_in_step s w (Between :: f) ->
  wpG pages_in_step (process_url cfg url depth s) w f
    (fun _ s' w' f' => pages_in_step s' w' (Between :: f')).
Proof.
  apply (process_url_keepsG cfg pages_in_step Between Marked Marked Counted).
  - intros s0 w0 f0 Hi. exact Hi.
  - intros p s0 w0 f0 [Hc Hv] Hp Hnin _ _. split; [exact Hc |].
    cbn [tally pages_scraped_count set_visited_urls visited_urls] in *.
    unfold is_marked in *.
    rewrite size_union by set_solver. rewrite size_singleton. lia.
  - apply keepsG_result; [apply counts_fetch_page |].
    intros s0 w0 f0 [Hc Hv]. split; cbn [tally] in *; unfold is_marked, is_counted in *; lia.
  - intros p content cookies s0 w0 f0 Hp [Hc Hv].
    destruct (count_fetched_fields p content cookies s0) as (E1 & E2 & E3).
    unfold pages_in_step. rewrite E1, E2, E3.
    cbn [tally] in *; unfold is_marked, is_counted in *. lia.
  - intros html. apply counts_rewrite_html_urls.
  - intros pa c s0 w0 f0 r Hi. exact Hi.
  - intros s0 w0 f0 [Hc Hv]. split; cbn [tally] in *; unfold is_marked, is_counted in *; lia.
  - intros rec s0 w0 f0 _ [Hc Hv]. split; [| exact Hv].
    cbn [tally scraped_data set_scraped_data pages_scraped_count] in *.
    unfold is_counted in *.
    rewrite map_size_insert. destruct (scraped_data s0 !! url); unfold id; lia.
  - intros q s0 w0 f0 Hi. exact Hi.
Qed.

(** X14: in every state that the workers reach, there are at most as
    many records in [scraped_data] as pages counted, and at most as many
    pages counted as URLs in [visited_urls]. *)
Theorem recorded_counted_visited (sys : Sys) :
  reachable cfg sys ->
  (Z.of_nat (size (scraped_data (shared sys)))
   <= pages_scraped_count (shared sys)
   <= Z.of_nat (size (visited_urls (shared sys))))%Z.
Proof.
  intros Hr.
  assert (Hok : sys_okG pages_in_step Between sys).
  { apply (reachable_invariantG cfg pages_in_step Between); [| | | | exact Hr].
    - intros s w gs gs' Hp [Hc Hv]. split.
      + rewrite <- (tally_Permutation is_counted gs gs' Hp). exact Hc.
      + rewrite <- (tally_Permutation is_marked gs gs' Hp). exact Hv.
    - split; cbn; rewrite tally_repeat_false by reflexivity.
      + rewrite map_size_empty. lia.
      + rewrite size_empty. lia.
    - intros s w gs q Hi. exact Hi.
    - intros url depth s w f. apply counts_process_url. }
  destruct Hok as (gs & [Hc Hv] & _).
  pose proof (tally_bounds is_counted gs). pose proof (tally_bounds is_marked gs).
  lia.
Qed.

End Counts.

(** ** A recorded page has been requested *)

Section Requested.
Context `{PyLib} `{RobotLib} `{SoupLib}.
Variable cfg : Config.

Lemma requested_log s w gs p u :
  requested s w gs -> requested s (log_request w p u) gs.
Proof.
  intros Hi x Hx. cbn. apply elem_of_app. left. exact (Hi x Hx).
Qed.

Lemma requested_write s w gs pa c r :
  requested s w gs -> requested s (record_write w pa c r) gs.
Proof.
  intros Hi x Hx. rewrite http_log_record_write. exact (Hi x Hx).
Qed.

Lemma requested_drop s w g f : requested s w (g :: f) -> requested s w (None :: f).
Proof.
  intros Hi x [Hx | Hx]; apply Hi; [left | right; exact Hx].
  apply elem_of_cons in Hx as [Hx | Hx]; [discriminate |].
  apply elem_of_cons. right. exact Hx.
Qed.

Ltac requested_side :=
  first [ let Hi := fresh in intros ? ? ? Hi; exact Hi
        | intros ? ? ?; apply requested_log
        | intros ? ? ? ?; apply requested_write ].

Lemma requested_can_fetch g url agent : keepsG requested g (can_fetch url agent).
Proof. unfold can_fetch. repeat keepsG_with requested_side. Qed.

Lemma requested_rewrite_html_urls g html url :
  keepsG requested g (rewrite_html_urls cfg html url).
Proof.
  unfold rewrite_html_urls, rewrite_style_tag, rewrite_style_attr,
    apply_asset_task, rewrite_anchor, rewrite_css_urls, rewrite_css_url,
    download_asset, store_asset, fail_asset.
  repeat keepsG_with requested_side.
Qed.

(** [fetch_page] answers with a page only after the request for it is in
    the log. *)
Lemma requested_fetch_page url s w f :
  requested s w (None :: f) ->
  wpG requested (fetch_page cfg url s) w f
    (fun r s' w' f' =>
       match r with
       | Ret (Some _) => requested s' w' (Some url :: f')
       | _ => requested s' w' (None :: f')
       end).
Proof.
  intros Hi. unfold fetch_page. unfold task_try. apply wpG_catch.
  unfold mbind at 1, Task_bind at 1, task_bind at 1. apply wpG_bind.
  eapply wpG_mono;
    [| apply (keepsG_apply requested None
                (if respect_robots cfg then can_fetch url "WebArchiver/1.0"
                 else mret true));
       [destruct (respect_robots cfg);
          [apply requested_can_fetch | apply keepsG_ret] | exact Hi]].
  clear s w f Hi. intros [allowed | e] s w f Hi; [| exact Hi].
  destruct allowed; cbn [negb]; [| exact Hi].
  task_step. destruct (urlparse url) as [p | e]; cbn [step_bind]; [| exact Hi].
  cbn. exists (Some url). split.
  { intros x [Hx | Hx].
    - apply elem_of_cons in Hx as [Hx | Hx].
      + injection Hx as ->. apply elem_of_app. right. apply list_elem_of_singleton.
        reflexivity.
      + apply elem_of_app. left. apply Hi. left. apply elem_of_cons. right. exact Hx.
    - apply elem_of_app. left. apply Hi. right. exact Hx. }
  intros r s' w' f' Hs. destruct r as [resp | e]; cbn [step_bind step_catch].
  - destruct (status resp =? 200)%Z; cbn.
    + destruct (cookies resp); cbn; exact Hs.
    + apply (requested_drop _ _ _ _ Hs).
  - cbn. apply (requested_drop _ _ _ _ Hs).
Qed.

Lemma requested_process_url url depth s w f :
  requested s w (None :: f) ->
  wpG requested (process_url cfg url depth s) w f
    (fun _ s' w' f' => requested s' w' (None :: f')).
Proof.
  apply (process_url_keepsG cfg requested None None (Some url) (Some url)).
  - intros s0 w0 f0 Hi. exact Hi.
  - intros p s0 w0 f0 Hi _ _ _ _. exact Hi.
  - intros s0 w0 f0. apply requested_fetch_page.
  - intros p content cookies s0 w0 f0 Hp Hi x Hx. apply Hi.
    destruct (count_fetched_fields cfg p content cookies s0) as (_ & E2 & _).
    rewrite E2 in Hx. exact Hx.
  - intros html. apply requested_rewrite_html_urls.
  - intros pa c s0 w0 f0 r. apply requested_write.
  - intros s0 w0 f0. apply requested_drop.
  - intros rec s0 w0 f0 _ Hi x [Hx | Hx].
    + apply (requested_drop _ _ _ _ Hi). left. exact Hx.
    + cbn in Hx. destruct (decide (url = x)) as [<- | Hne].
      * apply Hi. left. apply elem_of_cons. left. reflexivity.
      * rewrite lookup_insert_ne in Hx by exact Hne. apply Hi. right. exact Hx.
  - intros q s0 w0 f0 Hi. exact Hi.
Qed.

Lemma requested_reachable (sys : Sys) :
  reachable cfg sys -> sys_okG requested None sys.
Proof.
  apply (reachable_invariantG cfg requested None).
  - intros s w gs gs' Hp Hi x [Hx | Hx]; apply Hi; [left | right; exact Hx].
    rewrite Hp. exact Hx.
  - intros x [Hx | Hx].
    + apply list_elem_of_In, repeat_spec in Hx. discriminate.
    + cbn in Hx. rewrite lookup_empty in Hx. destruct Hx as [? Hx]. discriminate.
  - intros s w gs q Hi. exact Hi.
  - intros url depth s w f. apply requested_process_url.
Qed.

Lemma count_requests_elem (w : World) (p : profile) (u : string) :
  (p, u) ∈ http_log w -> (1 <= count_requests w p u)%nat.
Proof.
  unfold count_requests. induction (http_log w) as [| x l IH]; intros Hx.
  - inversion Hx.
  - cbn [List.filter]. apply elem_of_cons in Hx as [<- | Hx].
    + cbn. rewrite bool_decide_eq_true_2 by reflexivity.
      rewrite String.eqb_refl. cbn. lia.
    + specialize (IH Hx). destruct (_ && _); cbn; lia.
Qed.

(** X15: in every state that the workers reach, a page that is recorded
    in [scraped_data] is in [visited_urls] and has been requested, once. *)
Theorem recorded_page_requested_once (sys : Sys) (u : string) :
  reachable cfg sys ->
  is_Some (scraped_data (shared sys) !! u) ->
  u ∈ visited_urls (shared sys)
  /\ count_requests (world sys) PageHeaders u = 1%nat.
Proof.
  intros Hr Hu.
  destruct (requested_reachable sys Hr) as (gs & Hj & _).
  assert (Hlog : (PageHeaders, u) ∈ http_log (world sys))
    by (apply Hj; right; exact Hu).
  split.
  - destruct (page_requested_once cfg sys Hr) as (owners & _ & _ & Hvis).
    apply Hvis, elem_of_app. left. unfold page_urls.
    apply (list_elem_of_omap _ _ u). exists (PageHeaders, u).
    split; [exact Hlog |]. cbn. reflexivity.
  - pose proof (page_requests_at_most_one cfg sys u Hr).
    pose proof (count_requests_elem _ _ _ Hlog). lia.
Qed.

End Requested.

Lemma recorded_page_requested_once_witness :
  exists sys : Sys,
    @perform_all UrlLib.lib MiniRobots.lib MiniSoup.lib Site.cfg_cap
      (init_sys Site.cfg_cap) Site.schedule_cap = Some sys
    /\ is_Some (scraped_data (shared sys) !! "http://h/c")
    /\ "http://h/c" ∈ visited_urls (shared sys)
    /\ count_requests (world sys) PageHeaders "http://h/c" = 1%nat.
Proof.
  assert (Hc :
    match @perform_all UrlLib.lib MiniRobots.lib MiniSoup.lib Site.cfg_cap
            (init_sys Site.cfg_cap) Site.schedule_cap with
    | Some sys => is_Some (scraped_data (shared sys) !! "http://h/c")
    | None => False
    end) by (vm_compute; eexists; reflexivity).
  destruct (@perform_all UrlLib.lib MiniRobots.lib MiniSoup.lib Site.cfg_cap
              (init_sys Site.cfg_cap) Site.schedule_cap) as [sys |] eqn:E;
    [| contradiction].
  exists sys. split; [reflexivity |]. split; [exact Hc |].
  apply (@recorded_page_requested_once UrlLib.lib MiniRobots.lib MiniSoup.lib
           Site.cfg_cap sys "http://h/c").
  - exact (perform_all_reachable Site.cfg_cap Site.schedule_cap _ sys
             (reach_init Site.cfg_cap) E).
  - exact Hc.
Defined.

Lemma recorded_counted_visited_witness :
  exists sys : Sys,
    @perform_all UrlLib.lib MiniRobots.lib MiniSoup.lib Site.cfg_cap
      (init_sys Site.cfg_cap) Site.schedule_cap = Some sys
    /\ pages_scraped_count (shared sys) = 3%Z
    /\ (Z.of_nat (size (scraped_data (shared sys)))
        <= pages_scraped_count (shared sys)
        <= Z.of_nat (size (visited_urls (shared sys))))%Z.
Proof.
  assert (Hc :
    match @perform_all UrlLib.lib MiniRobots.lib MiniSoup.lib Site.cfg_cap
            (init_sys Site.cfg_cap) Site.schedule_cap with
    | Some sys => pages_scraped_count (shared sys) = 3%Z
    | None => False
    end) by (vm_compute; reflexivity).
  destruct (@perform_all UrlLib.lib MiniRobots.lib MiniSoup.lib Site.cfg_cap
              (init_sys Site.cfg_cap) Site.schedule_cap) as [sys |] eqn:E;
    [| contradiction].
  exists sys. split; [reflexivity |]. split; [exact Hc |].
  apply (@recorded_counted_visited UrlLib.lib MiniRobots.lib MiniSoup.lib
           Site.cfg_cap sys).
  exact (perform_all_reachable Site.cfg_cap Site.schedule_cap _ sys
           (reach_init Site.cfg_cap) E).
Defined.

(** ** The crawl stays on the site *)

Section Site2.
Context `{PyLib} `{RobotLib} `{SoupLib}.
Variable cfg : Config.

Lemma extract_urls_accepted (html base_url : string) :
  Forall (fun u => URLFilter.should_scrape u (base_domain cfg) = Ret true)
    (extract_urls cfg html base_url)
  /\ NoDup (extract_urls cfg html base_url).
Proof.
  unfold extract_urls.
  destruct (bs_parse html) as [soup |]; [| split; [constructor | apply NoDup_nil_2]].
  apply (extract_loop_spec cfg base_url); [constructor | apply NoDup_nil_2].
Qed.

Lemma item_ok_on_site (item : string * Z) :
  item_ok cfg item -> on_site cfg (fst item) /\ (0 <= snd item)%Z.
Proof.
  intros [[Hu Hd] | [Hu Hd]]; (split; [| lia]); [left | right]; assumption.
Qed.

Lemma site_log s w p u :
  stays_on_site cfg s w -> (p = PageHeaders -> on_site cfg u) ->
  stays_on_site cfg s (log_request w p u).
Proof.
  intros (Hq & Hv & Hr & Hl) Hu. repeat split; try assumption.
  intros x Hx. cbn in Hx. apply elem_of_app in Hx as [Hx | Hx]; [exact (Hl x Hx) |].
  apply list_elem_of_singleton in Hx. injection Hx as Hp ->. apply Hu.
  symmetry. exact Hp.
Qed.

Lemma site_write s w pa c r :
  stays_on_site cfg s w -> stays_on_site cfg s (record_write w pa c r).
Proof.
  intros (Hq & Hv & Hr & Hl). repeat split; try assumption.
  intros x Hx. rewrite http_log_record_write in Hx. exact (Hl x Hx).
Qed.

Ltac site_side :=
  first [ let Hi := fresh in intros ? ? Hi; exact Hi
        | let Hi := fresh in
          intros ? ? Hi; apply site_log;
          [exact Hi | first [discriminate | intros _; assumption]]
        | intros ? ? ?; apply site_write ].

Lemma site_fetch_page url :
  on_site cfg url -> keeps (stays_on_site cfg) (fetch_page cfg url).
Proof.
  intros Hu. unfold fetch_page, add_failed, can_fetch.
  repeat keeps_with site_side.
Qed.

Lemma site_rewrite_html_urls html base_url :
  keeps (stays_on_site cfg) (rewrite_html_urls cfg html base_url).
Proof.
  unfold rewrite_html_urls, rewrite_style_tag, rewrite_style_attr,
    apply_asset_task, rewrite_anchor, rewrite_css_urls, rewrite_css_url,
    download_asset, store_asset, fail_asset.
  repeat keeps_with site_side.
Qed.

Lemma site_enqueue_new depth new_url :
  (0 <= depth <= max_depth cfg)%Z ->
  URLFilter.should_scrape new_url (base_domain cfg) = Ret true ->
  keeps (stays_on_site cfg) (enqueue_new depth tt new_url).
Proof.
  intros Hd Hu. unfold enqueue_new.
  apply keeps_bind; [apply keeps_read |]. intros s0.
  destruct (_ && _); [| apply keeps_ret].
  apply keeps_modify. intros s w (Hq & Hrest). split; [| exact Hrest]. cbn.
  apply Forall_app. split; [exact Hq |].
  constructor; [| constructor]. right. cbn. split; [exact Hu | lia].
Qed.

Lemma site_process_url url depth :
  item_ok cfg (url, depth) ->
  keeps (stays_on_site cfg) (process_url cfg url depth).
Proof.
  intros Hitem. destruct (item_ok_on_site _ Hitem) as [Hu Hd]. cbn in Hu, Hd.
  apply process_url_keeps.
  - intros s w Hi. exact Hi.
  - intros s w (Hq & Hv & Hr & Hl). repeat split; try assumption.
    intros x Hx. cbn in Hx. apply elem_of_union in Hx as [Hx | Hx];
      [| exact (Hv x Hx)].
    apply elem_of_singleton in Hx. subst x. exact Hu.
  - apply site_fetch_page, Hu.
  - intros p content content_type cookies s w Hp Hdepth Hi.
    assert (Hi' : stays_on_site cfg (count_fetched cfg p content cookies s) w).
    { unfold count_fetched, count_page.
      destruct cookies; destruct (_ <=? _)%Z; exact Hi. }
    revert Hi'. generalize (count_fetched cfg p content cookies s).
    clear s Hi. intros s Hi. apply keeps_apply; [| exact Hi]. clear s w Hi.
    unfold store_fetched.
    apply keeps_bind.
    { destruct (Py.contains "html" content_type);
        [apply site_rewrite_html_urls | apply keeps_ret]. }
    intros content0. apply keeps_bind.
    { unfold save_page_content. repeat keeps_with site_side. }
    intros filepath. apply keeps_bind.
    { apply keeps_modify. intros s w (Hq & Hv & Hr & Hl).
      repeat split; try assumption. intros x Hx. cbn in Hx.
      destruct (decide (url = x)) as [<- | Hne]; [exact Hu |].
      rewrite lookup_insert_ne in Hx by exact Hne. exact (Hr x Hx). }
    intros _. apply keeps_bind; [apply keeps_read |]. intros stop.
    destruct (_ && _); [| apply keeps_ret].
    apply keeps_for_each_in. intros [] new_url Hin.
    apply site_enqueue_new; [lia |].
    destruct (extract_urls_accepted content0 url) as [Hall _].
    rewrite Forall_forall in Hall. apply Hall, list_elem_of_In, Hin.
Qed.

(** X16: in every state that the workers reach, an item of the queue is
    the start URL at depth 0 or a URL that [should_scrape] accepted, at a
    depth from 1 to [max_depth + 1]; and every URL that is in
    [visited_urls], recorded in [scraped_data] or requested as a page is
    the start URL or a URL that [should_scrape] accepted. *)
Theorem crawl_stays_on_site (sys : Sys) :
  reachable cfg sys ->
  (forall u d, (u, d) ∈ queue (shared sys) ->
     (u = start_url cfg /\ d = 0%Z)
     \/ (URLFilter.should_scrape u (base_domain cfg) = Ret true
         /\ (1 <= d <= max_depth cfg + 1)%Z))
  /\ (forall u,
        u ∈ visited_urls (shared sys)
        \/ is_Some (scraped_data (shared sys) !! u)
        \/ (PageHeaders, u) ∈ http_log (world sys) ->
        u = start_url cfg
        \/ URLFilter.should_scrape u (base_domain cfg) = Ret true).
Proof.
  intros Hr.
  assert (Hok : sys_ok (stays_on_site cfg) sys).
  { apply (reachable_invariant_items cfg (stays_on_site cfg)); [| | | exact Hr].
    - repeat split; cbn.
      + constructor; [| constructor]. left. split; reflexivity.
      + intros u Hu. apply not_elem_of_empty in Hu. contradiction.
      + intros u Hu. rewrite lookup_empty in Hu. destruct Hu as [? Hu].
        discriminate.
      + intros u Hu. inversion Hu.
    - intros s w x q (Hq & Hrest) Eq. split; [| exact Hrest]. cbn.
      rewrite Eq in Hq. inversion Hq; assumption.
    - intros s w url depth q (Hq & Hrest) Eq.
      rewrite Eq in Hq. inversion Hq as [| ? ? Hitem Hq']; subst.
      apply keeps_apply; [apply site_process_url; exact Hitem |].
      split; [exact Hq' | exact Hrest]. }
  destruct Hok as [(Hq & Hv & Hrec & Hl) _]. split.
  - intros u d Hin. rewrite Forall_forall in Hq. exact (Hq (u, d) Hin).
  - intros u [Hu | [Hu | Hu]]; [exact (Hv u Hu) | exact (Hrec u Hu) | exact (Hl u Hu)].
Qed.

End Site2.

Lemma crawl_stays_on_site_witness :
  exists sys : Sys,
    @perform_all UrlLib.lib MiniRobots.lib MiniSoup.lib Site.cfg_cap
      (init_sys Site.cfg_cap) Site.schedule_cap = Some sys
    /\ "http://h/c" ∈ visited_urls (shared sys)
    /\ ("http://h/c" = start_url Site.cfg_cap
        \/ @URLFilter.should_scrape UrlLib.lib "http://h/c"
             (@base_domain UrlLib.lib Site.cfg_cap) = Ret true).
Proof.
  assert (Hc :
    match @perform_all UrlLib.lib MiniRobots.lib MiniSoup.lib Site.cfg_cap
            (init_sys Site.cfg_cap) Site.schedule_cap with
    | Some sys => bool_decide ("http://h/c" ∈ visited_urls (shared sys)) = true
    | None => False
    end) by (vm_compute; reflexivity).
  destruct (@perform_all UrlLib.lib MiniRobots.lib MiniSoup.lib Site.cfg_cap
              (init_sys Site.cfg_cap) Site.schedule_cap) as [sys |] eqn:E;
    [| contradiction].
  apply bool_decide_eq_true_1 in Hc.
  exists sys. split; [reflexivity |]. split; [exact Hc |].
  apply (proj2 (@crawl_stays_on_site UrlLib.lib MiniRobots.lib MiniSoup.lib
                  Site.cfg_cap sys
                  (perform_all_reachable Site.cfg_cap Site.schedule_cap _ sys
                     (reach_init Site.cfg_cap) E))).
  left. exact Hc.
Defined.

(** ** Nothing is taken back *)

Section GrowthRules.
Context `{RobotLib}.

Lemma grows_to_refl (s : Scraper) : grows_to s s.
Proof. unfold grows_to. repeat split; try reflexivity; auto. Qed.

Lemma grows_to_trans (s1 s2 s3 : Scraper) :
  grows_to s1 s2 -> grows_to s2 s3 -> grows_to s1 s3.
Proof.
  intros (A1 & A2 & A3 & A4 & A5 & A6 & A7 & A8 & A9)
         (B1 & B2 & B3 & B4 & B5 & B6 & B7 & B8 & B9).
  unfold grows_to. repeat split; try (etransitivity; eassumption); auto.
  intros d. specialize (A7 d). specialize (B7 d). lia.
Qed.

Lemma growing_weaken {A : Type} (s0 s1 : Scraper) (t : Step A) :
  grows_to s0 s1 -> growing s1 t -> growing s0 t.
Proof.
  intros Hs. destruct t; cbn; intros [Hg Hk];
    (split; [exact (grows_to_trans _ _ _ Hs Hg) | exact Hk]).
Qed.

Lemma growing_handed_back {A : Type} (s0 : Scraper) (t : Step A) :
  growing s0 t -> grows_to s0 (handed_back t).
Proof. destruct t; intros [Hg _]; exact Hg. Qed.

Lemma growing_bind {A B : Type} (s0 : Scraper) (t : Step A) (f : A -> Task B) :
  growing s0 t -> (forall a, growingT (f a)) -> growing s0 (step_bind t f).
Proof.
  intros Ht Hf. revert s0 Ht.
  induction t as [r s | p url s k IH | pa c s k IH]; intros s0; cbn.
  - intros [Hs _]. destruct r as [a | e].
    + apply (growing_weaken s0 s); [exact Hs | apply Hf].
    + cbn. split; [exact Hs | exact Logic.I].
  - intros [Hs Hk]. split; [exact Hs |]. intros r s'. apply IH, Hk.
  - intros [Hs Hk]. split; [exact Hs |]. intros r s'. apply IH, Hk.
Qed.

Lemma growing_catch {A : Type} (s0 : Scraper) (t : Step A) (h : exn -> Task A) :
  growing s0 t -> (forall e, growingT (h e)) -> growing s0 (step_catch t h).
Proof.
  intros Ht Hh. revert s0 Ht.
  induction t as [r s | p url s k IH | pa c s k IH]; intros s0; cbn.
  - intros [Hs _]. destruct r as [a | e].
    + cbn. split; [exact Hs | exact Logic.I].
    + apply (growing_weaken s0 s); [exact Hs | apply Hh].
  - intros [Hs Hk]. split; [exact Hs |]. intros r s'. apply IH, Hk.
  - intros [Hs Hk]. split; [exact Hs |]. intros r s'. apply IH, Hk.
Qed.

Lemma growingT_ret {A : Type} (a : A) : growingT (mret a).
Proof. intros s. cbn. split; [apply grows_to_refl | exact Logic.I]. Qed.
Lemma growingT_raise {A : Type} (e : exn) : growingT (@task_raise _ A e).
Proof. intros s. cbn. split; [apply grows_to_refl | exact Logic.I]. Qed.
Lemma growingT_lift {A : Type} (c : Exc A) : growingT (lift c).
Proof. intros s. cbn. split; [apply grows_to_refl | exact Logic.I]. Qed.
Lemma growingT_read {A : Type} (f : Scraper -> A) : growingT (read f).
Proof. intros s. cbn. split; [apply grows_to_refl | exact Logic.I]. Qed.
Lemma growingT_modify (f : Scraper -> Scraper) :
  (forall s, grows_to s (f s)) -> growingT (modify f).
Proof. intros Hf s. cbn. split; [apply Hf | exact Logic.I]. Qed.
Lemma growingT_get (p : profile) (url : string) : growingT (await_get p url).
Proof.
  intros s. cbn. split; [apply grows_to_refl |]. intros r s'. cbn.
  split; [apply grows_to_refl | exact Logic.I].
Qed.
Lemma growingT_write (pa c : string) : growingT (await_write pa c).
Proof.
  intros s. cbn. split; [apply grows_to_refl |]. intros r s'. cbn.
  split; [apply grows_to_refl | exact Logic.I].
Qed.
Lemma growingT_bind {A B : Type} (m : Task A) (f : A -> Task B) :
  growingT m -> (forall a, growingT (f a)) -> growingT (m ≫= f).
Proof. intros Hm Hf s. apply growing_bind; [apply Hm | exact Hf]. Qed.
Lemma growingT_try {A : Type} (m : Task A) (h : exn -> Task A) :
  growingT m -> (forall e, growingT (h e)) -> growingT (task_try m h).
Proof. intros Hm Hh s. apply growing_catch; [apply Hm | exact Hh]. Qed.
Lemma growingT_for_each {A S : Type} (l : list A) (body : S -> A -> Task S)
    (acc : S) :
  (forall acc x, growingT (body acc x)) -> growingT (for_each l body acc).
Proof.
  intros Hb. revert acc. induction l as [| x r IH]; intros acc; cbn [for_each].
  - apply growingT_ret.
  - apply growingT_bind; [apply Hb | intros acc'; apply IH].
Qed.

(** The updates of the code. *)
Lemma grows_to_fields (s s' : Scraper) :
  visited_urls s ⊆ visited_urls s' ->
  failed_assets s ⊆ failed_assets s' ->
  dom (asset_map s) ⊆ dom (asset_map s') ->
  dom (scraped_data s) ⊆ dom (scraped_data s') ->
  dom (robots_cache s) ⊆ dom (robots_cache s') ->
  (pages_scraped_count s <= pages_scraped_count s')%Z ->
  (forall d, (default 0 (domain_counts s !! d)
              <= default 0 (domain_counts s' !! d))%Z) ->
  (st_pages_failed (stats s) <= st_pages_failed (stats s'))%Z ->
  (should_stop s = true -> should_stop s' = true) ->
  grows_to s s'.
Proof. intros. unfold grows_to. repeat split; assumption. Qed.

Lemma dom_insert_grows {V : Type} (m : gmap string V) (k : string) (v : V) :
  dom m ⊆ dom (<[k := v]> m).
Proof. rewrite dom_insert. set_solver. Qed.

Lemma count_up (m : gmap string Z) (k d : string) :
  (default 0 (m !! d)
   <= default 0 (<[k := (default 0 (m !! k) + 1)%Z]> m !! d))%Z.
Proof.
  destruct (decide (k = d)) as [-> | Hne].
  - rewrite lookup_insert_eq. cbn. lia.
  - rewrite lookup_insert_ne by exact Hne. lia.
Qed.

End GrowthRules.

Ltac grow_side :=
  let s := fresh "s" in
  intros s; apply grows_to_fields; cbn;
  first [ reflexivity
        | apply dom_insert_grows
        | apply union_subseteq_r
        | lia
        | intros ?; apply count_up
        | intros ?; lia
        | intros ?; reflexivity
        | intros ?; assumption ].

Ltac growing_step :=
  lazymatch goal with
  | |- growingT (mbind _ _) => apply growingT_bind; [| intros ?]
  | |- growingT (task_try _ _) => apply growingT_try; [| intros ?]
  | |- growingT (mret _) => apply growingT_ret
  | |- growingT (task_raise _) => apply growingT_raise
  | |- growingT (lift _) => apply growingT_lift
  | |- growingT (read _) => apply growingT_read
  | |- growingT (await_get _ _) => apply growingT_get
  | |- growingT (await_write _ _) => apply growingT_write
  | |- growingT (modify _) => apply growingT_modify; grow_side
  | |- growingT (for_each _ _ _) => apply growingT_for_each; intros ? ?
  | |- growingT (if ?b then _ else _) => destruct b
  | |- growingT (match ?x with _ => _ end) => destruct x
  | |- growingT (let _ := _ in _) => cbv zeta
  end.

Section GrowthFunctions.
Context `{PyLib} `{RobotLib} `{SoupLib}.
Variable cfg : Config.

Lemma growingT_count_page : growingT (modify (count_page cfg)).
Proof.
  apply growingT_modify. intros s. unfold count_page. cbn.
  destruct (_ <=? _)%Z; apply grows_to_fields; cbn;
    first [reflexivity | lia | intros ?; lia | intros ?; reflexivity
          | intros ?; assumption].
Qed.

Lemma growingT_process_url url depth : growingT (process_url cfg url depth).
Proof.
  unfold process_url, check_limits, add_page, enqueue_new, fetch_page,
    add_failed, can_fetch, save_page_content, rewrite_html_urls,
    rewrite_style_tag, rewrite_style_attr, apply_asset_task, rewrite_anchor,
    rewrite_css_urls, rewrite_css_url, download_asset, store_asset, fail_asset.
  repeat first [apply growingT_count_page | growing_step].
Qed.

Lemma settle_growing (sys : Sys) (i : nat) (t : Step unit) :
  Forall worker_growing (workers sys) ->
  growing (shared sys) t ->
  Forall worker_growing (workers (settle sys i t))
  /\ grows_to (shared sys) (shared (settle sys i t)).
Proof.
  intros Hw Ht. destruct t as [r s | p url s k | pa c s k]; cbn in *;
    destruct Ht as [Hg Hk]; (split; [| exact Hg]);
    apply Forall_insert; assumption.
Qed.

Lemma grows_to_set_queue (s : Scraper) q : grows_to s (set_queue q s).
Proof.
  apply grows_to_fields; cbn;
    first [reflexivity | lia | intros ?; lia | intros ?; assumption].
Qed.

Lemma step_grows (sys sys' : Sys) :
  Forall worker_growing (workers sys) ->
  sys_step cfg sys sys' ->
  Forall worker_growing (workers sys')
  /\ grows_to (shared sys) (shared sys').
Proof.
  intros Hw Hstep.
  destruct Hstep as [i url depth q Hwk Hstop Hq | url depth q Hstop Hq
                    | i p url s0 k r Hwk | i pa c s0 k r Hwk].
  - apply settle_growing; [exact Hw |].
    apply (growing_weaken _ (set_queue q (shared sys)));
      [apply grows_to_set_queue | apply growingT_process_url].
  - split; [exact Hw | apply grows_to_set_queue].
  - apply settle_growing; [exact Hw |].
    exact (Forall_lookup_1 _ _ _ _ Hw Hwk r (shared sys)).
  - apply (settle_growing
             (mkSys (shared sys) (record_write (world sys) pa c r) (workers sys)));
      [exact Hw |].
    exact (Forall_lookup_1 _ _ _ _ Hw Hwk r (shared sys)).
Qed.

Lemma reachable_growing (sys : Sys) :
  reachable cfg sys -> Forall worker_growing (workers sys).
Proof.
  induction 1 as [| sys sys' Hr IH Hstep].
  - cbn. apply Forall_forall. intros x Hx.
    apply list_elem_of_In, repeat_spec in Hx. subst x. exact Logic.I.
  - exact (proj1 (step_grows sys sys' IH Hstep)).
Qed.

(** X17: a step of the workers, from a state they can reach, takes
    nothing back: [visited_urls] and [failed_assets] keep their URLs,
    [asset_map], [scraped_data] and the cache of [robots.txt] keep their
    keys, the counters of pages, of the pages of each domain and of failed
    pages do not go down, and a stop signal that is set stays set. *)
Theorem shared_state_only_grows (sys sys' : Sys) :
  reachable cfg sys ->
  sys_step cfg sys sys' ->
  visited_urls (shared sys) ⊆ visited_urls (shared sys')
  /\ failed_assets (shared sys) ⊆ failed_assets (shared sys')
  /\ dom (asset_map (shared sys)) ⊆ dom (asset_map (shared sys'))
  /\ dom (scraped_data (shared sys)) ⊆ dom (scraped_data (shared sys'))
  /\ dom (robots_cache (shared sys)) ⊆ dom (robots_cache (shared sys'))
  /\ (pages_scraped_count (shared sys) <= pages_scraped_count (shared sys'))%Z
  /\ (forall d, (default 0 (domain_counts (shared sys) !! d)
                 <= default 0 (domain_counts (shared sys') !! d))%Z)
  /\ (st_pages_failed (stats (shared sys))
      <= st_pages_failed (stats (shared sys')))%Z
  /\ (should_stop (shared sys) = true -> should_stop (shared sys') = true).
Proof.
  intros Hr Hstep.
  exact (proj2 (step_grows sys sys' (reachable_growing sys Hr) Hstep)).
Qed.

End GrowthFunctions.

Lemma shared_state_only_grows_witness :
  exists sys' : Sys,
    @perform UrlLib.lib MiniRobots.lib MiniSoup.lib Site.cfg_cap
      (init_sys Site.cfg_cap) (Take 0) = Some sys'
    /\ "http://h/a" ∈ visited_urls (shared sys')
    /\ visited_urls (shared (@init_sys MiniRobots.lib Site.cfg_cap))
         ⊆ visited_urls (shared sys').
Proof.
  assert (Hc :
    match @perform UrlLib.lib MiniRobots.lib MiniSoup.lib Site.cfg_cap
            (init_sys Site.cfg_cap) (Take 0) with
    | Some sys' => bool_decide ("http://h/a" ∈ visited_urls (shared sys')) = true
    | None => False
    end) by (vm_compute; reflexivity).
  destruct (@perform UrlLib.lib MiniRobots.lib MiniSoup.lib Site.cfg_cap
              (init_sys Site.cfg_cap) (Take 0)) as [sys' |] eqn:E;
    [| contradiction].
  apply bool_decide_eq_true_1 in Hc.
  exists sys'. split; [reflexivity |]. split; [exact Hc |].
  apply (@shared_state_only_grows UrlLib.lib MiniRobots.lib MiniSoup.lib
           Site.cfg_cap (init_sys Site.cfg_cap) sys').
  - apply reach_init.
  - exact (perform_sound Site.cfg_cap _ _ _ E).
Defined.

(** ** The entries of [asset_map] *)

Section AssetPaths.
Context `{PyLib} `{RobotLib} `{SoupLib}.
Variable cfg : Config.

Ltac paths_side :=
  first [ let Hi := fresh in intros ? ? Hi; exact Hi
        | let Hi := fresh in intros ? ? ? Hi; exact Hi ].

Lemma computed_stored s (w : World) url asset_type lp :
  get_asset_local_path (clean_of url) asset_type = Ret lp ->
  asset_paths_computed s w ->
  asset_paths_computed (set_asset_map (<[url := lp]> (asset_map s)) s) w.
Proof.
  intros Hlp Hi u lp' Hu. cbn in Hu.
  destruct (decide (url = u)) as [<- | Hne].
  - rewrite lookup_insert_eq in Hu. injection Hu as <-.
    exists asset_type. exact Hlp.
  - rewrite lookup_insert_ne in Hu by exact Hne. exact (Hi u lp' Hu).
Qed.

Lemma computed_store_asset url asset_type content as_text :
  keeps asset_paths_computed
    (store_asset cfg url (clean_of url) asset_type content as_text).
Proof.
  intros s w Hi. unfold store_asset. task_step.
  destruct (get_asset_local_path (clean_of url) asset_type) as [lp | e] eqn:Hlp;
    task_step; [| exact Hi].
  destruct as_text; task_step; cbn.
  - split; [exact Hi |]. intros r s' w' Hs. destruct r as [[] | e]; cbn.
    + apply (computed_stored _ _ _ asset_type), Hs. exact Hlp.
    + split; [exact Hs |]. intros r s'' w'' Hs'. destruct r as [[] | e']; cbn.
      * apply (computed_stored _ _ _ asset_type), Hs'. exact Hlp.
      * exact Hs'.
  - split; [exact Hi |]. intros r s' w' Hs. destruct r as [[] | e]; cbn.
    + apply (computed_stored _ _ _ asset_type), Hs. exact Hlp.
    + exact Hs.
Qed.

Lemma computed_download_asset url asset_type referer :
  keeps asset_paths_computed (download_asset cfg url asset_type referer).
Proof.
  unfold download_asset, fail_asset.
  repeat first [apply computed_store_asset | keeps_with paths_side].
Qed.

Lemma computed_rewrite_html_urls html base_url :
  keeps asset_paths_computed (rewrite_html_urls cfg html base_url).
Proof.
  unfold rewrite_html_urls, rewrite_style_tag, rewrite_style_attr,
    apply_asset_task, rewrite_anchor, rewrite_css_urls, rewrite_css_url.
  repeat first [apply computed_download_asset | keeps_with paths_side].
Qed.

Lemma computed_process_url url depth :
  keeps asset_paths_computed (process_url cfg url depth).
Proof.
  apply process_url_keeps; try paths_side.
  - unfold fetch_page, add_failed, can_fetch. repeat keeps_with paths_side.
  - intros p content content_type cookies s w Hp Hdepth Hi.
    apply keeps_apply.
    + unfold store_fetched, save_page_content, enqueue_new.
      repeat first [apply computed_rewrite_html_urls | keeps_with paths_side].
    + unfold count_fetched, count_page.
      destruct cookies; destruct (_ <=? _)%Z; exact Hi.
Qed.

(** X18: in every state that the workers reach, an entry of [asset_map]
    is the path that [get_asset_local_path] computes from the URL of the
    entry without its fragment, for some type of asset. *)
Theorem asset_map_entry_computed (sys : Sys) (u lp : string) :
  reachable cfg sys ->
  asset_map (shared sys) !! u = Some lp ->
  exists asset_type, get_asset_local_path (clean_of u) asset_type = Ret lp.
Proof.
  intros Hr.
  assert (Hok : sys_ok asset_paths_computed sys).
  { apply (reachable_invariant cfg asset_paths_computed); [| | | exact Hr].
    - intros x y Hx. cbn in Hx. rewrite lookup_empty in Hx. discriminate.
    - intros s w q Hi. exact Hi.
    - apply computed_process_url. }
  apply Hok.
Qed.

End AssetPaths.

Lemma asset_map_entry_computed_witness :
  exists sys : Sys,
    @perform_all UrlLib.lib MiniRobots.lib MiniSoup.lib Site.cfg_two
      (init_sys Site.cfg_two)
      (Site.schedule_logo
       ++ [Respond 0 (Site.ok "bytes" "image/png"); Written 0 (Ret tt)])%list
    = Some sys
    /\ asset_map (shared sys) !! "http://h/logo.png"
       = Some "images/77892f63d34c051137f1fd14a0fc706c.png"
    /\ exists asset_type,
         @get_asset_local_path UrlLib.lib (clean_of "http://h/logo.png") asset_type
         = Ret "images/77892f63d34c051137f1fd14a0fc706c.png".
Proof.
  assert (Hc :
    match @perform_all UrlLib.lib MiniRobots.lib MiniSoup.lib Site.cfg_two
            (init_sys Site.cfg_two)
            (Site.schedule_logo
             ++ [Respond 0 (Site.ok "bytes" "image/png"); Written 0 (Ret tt)])%list
    with
    | Some sys => asset_map (shared sys) !! "http://h/logo.png"
                  = Some "images/77892f63d34c051137f1fd14a0fc706c.png"
    | None => False
    end) by (vm_compute; reflexivity).
  destruct (@perform_all UrlLib.lib MiniRobots.lib MiniSoup.lib Site.cfg_two
              (init_sys Site.cfg_two) _) as [sys |] eqn:E; [| contradiction].
  exists sys. split; [reflexivity |]. split; [exact Hc |].
  apply (@asset_map_entry_computed UrlLib.lib MiniRobots.lib MiniSoup.lib
           Site.cfg_two sys "http://h/logo.png"
           "images/77892f63d34c051137f1fd14a0fc706c.png").
  - exact (perform_all_reachable Site.cfg_two _ _ sys
             (reach_init Site.cfg_two) E).
  - exact Hc.
Defined.

(** ** Exceptions that do not leave *)

Section Ends.
Context `{PyLib} `{RobotLib} `{SoupLib}.
Variable cfg : Config.

Lemma ends_in_mono {A : Type} (Q Q' : Exc A -> Scraper -> Prop) (t : Step A) :
  (forall r s, Q r s -> Q' r s) -> ends_in Q t -> ends_in Q' t.
Proof.
  intros HQ. induction t as [r s | p url s k IH | pa c s k IH]; cbn.
  - apply HQ.
  - intros Hk r s'. apply IH, Hk.
  - intros Hk r s'. apply IH, Hk.
Qed.

Lemma ends_in_bind {A B : Type} (Q : Exc B -> Scraper -> Prop) (t : Step A)
    (f : A -> Task B) :
  ends_in (fun r s => match r with
                      | Ret a => ends_in Q (f a s)
                      | Raise e => Q (Raise e) s
                      end) t ->
  ends_in Q (step_bind t f).
Proof.
  induction t as [r s | p url s k IH | pa c s k IH]; cbn.
  - destruct r; auto.
  - intros Hk r s'. apply IH, Hk.
  - intros Hk r s'. apply IH, Hk.
Qed.

(** What a handler catches does not leave, whatever the body does. *)
Lemma ends_in_catch {A : Type} (Q : Exc A -> Scraper -> Prop) (t : Step A)
    (h : exn -> Task A) :
  ends_in (fun r s => match r with
                      | Ret a => Q (Ret a) s
                      | Raise e => ends_in Q (h e s)
                      end) t ->
  ends_in Q (step_catch t h).
Proof.
  induction t as [r s | p url s k IH | pa c s k IH]; cbn.
  - destruct r; auto.
  - intros Hk r s'. apply IH, Hk.
  - intros Hk r s'. apply IH, Hk.
Qed.

(** X19: [can_fetch] never raises, and it says no only on the word of
    rules in the cache: whatever the server answers and whatever the
    other workers do while it waits, it ends by returning a boolean, and
    when that is [False] the URL parses and the cache holds, for its
    origin, rules that close the URL to the agent. *)
Theorem can_fetch_fails_open (s : Scraper) (url agent : string) :
  ends_in (fun r s' =>
             match r with
             | Ret true => True
             | Ret false =>
                 exists p rules,
                   urlparse url = Ret p
                   /\ robots_cache s' !! origin_of p = Some rules
                   /\ robots_can_fetch rules agent url = false
             | Raise _ => False
             end)
    (can_fetch url agent s).
Proof.
  unfold can_fetch. unfold task_try at 1. apply ends_in_catch.
  apply (ends_in_mono
           (fun r s' =>
              match r with
              | Ret false =>
                  exists p rules,
                    urlparse url = Ret p
                    /\ robots_cache s' !! origin_of p = Some rules
                    /\ robots_can_fetch rules agent url = false
              | _ => True
              end)).
  { intros [[|] | e] s' Ha; first [exact Ha | exact Logic.I]. }
  unfold mbind at 1, Task_bind at 1, task_bind at 1, lift at 1.
  destruct (urlparse url) as [p | e] eqn:Hp; cbn [step_bind]; [| exact Logic.I].
  cbv zeta.
  unfold mbind at 1, Task_bind at 1, task_bind at 1, read at 1. cbn [step_bind].
  assert (Hlast : forall s0,
            ends_in (fun r s' =>
                       match r with
                       | Ret false =>
                           exists p0 rules,
                             Ret p = Ret p0
                             /\ robots_cache s' !! origin_of p0 = Some rules
                             /\ robots_can_fetch rules agent url = false
                       | _ => True
                       end)
              ((cache ← read robots_cache;
                match cache !! origin_of p with
                | Some rp => mret (robots_can_fetch rp agent url)
                | None => task_raise KeyError
                end) s0)).
  { intros s0. task_step.
    destruct (robots_cache s0 !! origin_of p) as [rp |] eqn:Hc; cbn;
      [| exact Logic.I].
    destruct (robots_can_fetch rp agent url) eqn:Hr; [exact Logic.I |].
    exists p, rp. repeat split; assumption. }
  unfold mbind at 1, Task_bind at 1, task_bind at 1. apply ends_in_bind.
  destruct (bool_decide (is_Some (robots_cache s !! origin_of p))).
  - unfold mret, Task_ret, task_ret. cbn [ends_in]. apply Hlast.
  - cbv zeta. unfold mbind at 1, Task_bind at 1, task_bind at 1.
    apply ends_in_bind. unfold task_try. apply ends_in_catch.
    unfold mbind at 1, Task_bind at 1, task_bind at 1, await_get at 1.
    cbn [step_bind ends_in]. intros r s'.
    destruct r as [resp | e]; cbn [step_bind].
    + destruct (status resp =? 200)%Z;
        unfold mret, Task_ret, task_ret; cbn [ends_in].
      * unfold modify. cbn [step_bind ends_in]. apply Hlast.
      * exact Logic.I.
    + unfold mret, Task_ret, task_ret. cbn [ends_in]. exact Logic.I.
Qed.

Lemma answer_fail_asset url s : ends_in (asset_answer url) (fail_asset url s).
Proof.
  unfold fail_asset. task_step. cbn. apply elem_of_union_l, elem_of_singleton.
  reflexivity.
Qed.

Lemma weak_fail_asset url s : ends_in (answer_or_raise url) (fail_asset url s).
Proof.
  eapply ends_in_mono; [| apply answer_fail_asset].
  intros [a | e] s' Ha; [exact Ha | exact Logic.I].
Qed.

Lemma weak_store_asset url clean_url asset_type content as_text s :
  ends_in (answer_or_raise url)
    (store_asset cfg url clean_url asset_type content as_text s).
Proof.
  unfold store_asset. task_step.
  destruct (get_asset_local_path clean_url asset_type) as [lp | e]; task_step;
    [| exact Logic.I].
  destruct as_text; task_step; cbn; intros r s'; destruct r as [[] | e]; cbn;
    try apply lookup_insert_eq; try exact Logic.I.
  intros r s''. destruct r as [[] | e']; cbn;
    [apply lookup_insert_eq | exact Logic.I].
Qed.

Lemma weak_timeout url (t : Step (option string)) :
  ends_in (answer_or_raise url) t ->
  ends_in (answer_or_raise url)
    (step_catch t (fun e => match e with
                            | TimeoutError => fail_asset url
                            | _ => task_raise e
                            end)).
Proof.
  intros Ht. apply ends_in_catch. eapply ends_in_mono; [| exact Ht].
  intros [a | e] s' Ha; [exact Ha |].
  destruct e; try exact Logic.I. apply weak_fail_asset.
Qed.

(** X20: what [download_asset] answers for a URL is what it leaves in the
    state, whatever happens in between: a path it answers is the entry of
    the URL in [asset_map], and when it answers [None] the URL is in
    [failed_assets].  (Nothing is said of a call that an exception ends:
    the lines written to [web_archiver.log], which are not part of this
    model, could raise one.) *)
Theorem download_asset_answer_recorded (s : Scraper)
    (url asset_type referer : string) :
  ends_in (fun r s' =>
             match r with
             | Ret (Some local_path) => asset_map s' !! url = Some local_path
             | Ret None => url ∈ failed_assets s'
             | Raise _ => True
             end)
    (download_asset cfg url asset_type referer s).
Proof.
  apply (ends_in_mono (asset_answer url)).
  { intros [[lp |] | e] s' Ha; first [exact Ha | exact Logic.I]. }
  unfold download_asset. unfold task_try at 1. apply ends_in_catch.
  apply (ends_in_mono (answer_or_raise url)).
  { intros [a | e] s' Ha; [exact Ha | apply answer_fail_asset]. }
  unfold mbind at 1, Task_bind at 1, task_bind at 1, read at 1. cbn [step_bind].
  destruct (asset_map s !! url) as [lp |] eqn:Hm; [exact Hm |].
  unfold mbind at 1, Task_bind at 1, task_bind at 1, read at 1. cbn [step_bind].
  destruct (decide (url ∈ failed_assets s)) as [Hf | Hf].
  { rewrite bool_decide_eq_true_2 by exact Hf. exact Hf. }
  rewrite bool_decide_eq_false_2 by exact Hf. cbv zeta.
  unfold mbind at 1, Task_bind at 1, task_bind at 1, lift at 1.
  destruct (urlparse (clean_of url)) as [p | e]; cbn [step_bind];
    [| exact Logic.I].
  unfold task_try. apply weak_timeout.
  unfold mbind at 1, Task_bind at 1, task_bind at 1, await_get at 1.
  cbn [step_bind]. intros r s'. destruct r as [resp | e]; cbn [step_bind];
    [| exact Logic.I].
  destruct (status resp =? 200)%Z; [apply weak_store_asset |].
  destruct (status resp =? 403)%Z; [| apply weak_fail_asset].
  unfold mbind at 1, Task_bind at 1, task_bind at 1, await_get at 1.
  cbn [step_bind]. intros r s''. destruct r as [retry | e]; cbn [step_bind];
    [| exact Logic.I].
  destruct (status retry =? 200)%Z; [apply weak_store_asset | apply weak_fail_asset].
Qed.

End Ends.

(** ** The assets of a page *)

Section Tasks.
Context `{PyLib}.

Lemma gather_Forall {A B : Type} (P : B -> Prop) (l : list A)
    (body : A -> Exc (list B)) (zs : list B) :
  (forall x ys, In x l -> body x = Ret ys -> Forall P ys) ->
  gather l body = Ret zs -> Forall P zs.
Proof.
  revert zs. induction l as [| x r IH]; intros zs Hb; cbn.
  - intros [= <-]. constructor.
  - unfold mbind, Exc_bind, bind.
    destruct (body x) as [ys |] eqn:Hx; [| discriminate].
    destruct (gather r body) as [zs' |] eqn:Hr; [| discriminate].
    intros [= <-]. apply Forall_app. split.
    + apply (Hb x ys); [left; reflexivity | exact Hx].
    + apply IH; [| reflexivity]. intros y ys' Hy. apply Hb. right. exact Hy.
Qed.

Lemma task_for_ok (soup : list element) (base_url : string) (i : nat)
    (e : element) (attr asset_type url : string) (ts : list asset_task) :
  soup !! i = Some e ->
  Soup.get_nonempty e attr <> None ->
  url <> "" ->
  In asset_type ["image"; "css"; "js"; "font"; "media"] ->
  task_for base_url i attr asset_type url = Ret ts ->
  Forall (task_ok soup base_url) ts.
Proof.
  intros He Ha Hu Ht. unfold task_for.
  destruct (Py.startswith url "data:") eqn:Hd.
  - intros [= <-]. constructor.
  - unfold mbind, Exc_bind, bind.
    destruct (urljoin base_url url) as [a |] eqn:Hj; [| discriminate].
    intros [= <-]. constructor; [| constructor].
    unfold task_ok. cbn. repeat split; try assumption.
    exists e. split; assumption.
Qed.

Lemma get_nonempty_not_empty (e : element) (attr v : string) :
  Soup.get_nonempty e attr = Some v -> v <> "".
Proof.
  unfold Soup.get_nonempty. destruct (Soup.get_attr e attr) as [x |]; [| discriminate].
  destruct (String.eqb x "") eqn:E; [discriminate |].
  intros [= <-]. apply String.eqb_neq, E.
Qed.

Lemma simple_tasks_ok (soup : list element) (base_url : string)
    (tags : list string) (wanted : element -> bool) (attr asset_type : string)
    (ts : list asset_task) :
  In asset_type ["image"; "css"; "js"; "font"; "media"] ->
  simple_tasks soup base_url tags wanted attr asset_type = Ret ts ->
  Forall (task_ok soup base_url) ts.
Proof.
  intros Ht. unfold simple_tasks. apply gather_Forall. intros i ys _.
  destruct (soup !! i) as [e |] eqn:He; [| intros [= <-]; constructor].
  destruct (wanted e); [| intros [= <-]; constructor].
  destruct (Soup.get_nonempty e attr) as [url |] eqn:Ha;
    [| intros [= <-]; constructor].
  apply (task_for_ok soup base_url i e); try assumption.
  - rewrite Ha. discriminate.
  - exact (get_nonempty_not_empty e attr url Ha).
Qed.

Lemma image_tasks_ok (soup : list element) (base_url : string)
    (ts : list asset_task) :
  image_tasks soup base_url = Ret ts -> Forall (task_ok soup base_url) ts.
Proof.
  unfold image_tasks. apply gather_Forall. intros i ys _.
  destruct (soup !! i) as [img |] eqn:He; [| intros [= <-]; constructor].
  apply gather_Forall. intros attr ys' _.
  destruct (Soup.get_nonempty img attr) as [value |] eqn:Ha;
    [| intros [= <-]; constructor].
  apply gather_Forall. intros url ys'' _.
  destruct (String.eqb url "") eqn:Hu; [intros [= <-]; constructor |].
  apply (task_for_ok soup base_url i img); try assumption.
  - rewrite Ha. discriminate.
  - apply String.eqb_neq, Hu.
  - left. reflexivity.
Qed.

(** X21: every entry of the list of assets that [rewrite_html_urls]
    collects from a page names an element of the page and an attribute of
    it that is not empty; its URL is not empty and does not start with
    [data:], its absolute URL is that URL joined to the URL of the page, and
    its type is one of image, css, js, font and media. *)
Theorem asset_tasks_well_formed (soup : list element) (base_url : string)
    (tasks : list asset_task) :
  collect_asset_tasks soup base_url = Ret tasks ->
  Forall (fun t =>
            at_original t <> ""
            /\ Py.startswith (at_original t) "data:" = false
            /\ urljoin base_url (at_original t) = Ret (at_absolute t)
            /\ In (at_type t) ["image"; "css"; "js"; "font"; "media"]
            /\ exists e, soup !! at_element t = Some e
                         /\ Soup.get_nonempty e (at_attr t) <> None)
    tasks.
Proof.
  unfold collect_asset_tasks, mbind, Exc_bind, bind.
  destruct (image_tasks soup base_url) as [images |] eqn:H1; [| discriminate].
  destruct (simple_tasks soup base_url ["link"] _ "href" "css") as [css |] eqn:H2;
    [| discriminate].
  destruct (simple_tasks soup base_url ["script"] _ "src" "js") as [js |] eqn:H3;
    [| discriminate].
  destruct (simple_tasks soup base_url ["link"] _ "href" "font") as [fonts |] eqn:H4;
    [| discriminate].
  destruct (simple_tasks soup base_url ["video"; "audio"; "source"] _ "src" "media")
    as [media |] eqn:H5; [| discriminate].
  intros [= <-].
  change (Forall (task_ok soup base_url)
            (images ++ css ++ js ++ fonts ++ media)%list).
  repeat (apply Forall_app; split).
  - exact (image_tasks_ok _ _ _ H1).
  - eapply simple_tasks_ok; [| exact H2]. cbn. tauto.
  - eapply simple_tasks_ok; [| exact H3]. cbn. tauto.
  - eapply simple_tasks_ok; [| exact H4]. cbn. tauto.
  - eapply simple_tasks_ok; [| exact H5]. cbn. tauto.
Qed.

End Tasks.

Lemma asset_tasks_well_formed_witness :
  let soup := [mkElement "img" [("src", "/logo.png")] None] in
  @collect_asset_tasks UrlLib.lib soup "http://h/b"
    = Ret [mkTask 0 "src" "/logo.png" "http://h/logo.png" "image"]
  /\ Forall (fun t =>
              at_original t <> ""
              /\ Py.startswith (at_original t) "data:" = false
              /\ @urljoin UrlLib.lib "http://h/b" (at_original t) = Ret (at_absolute t)
              /\ In (at_type t) ["image"; "css"; "js"; "font"; "media"]
              /\ exists e, soup !! at_element t = Some e
                           /\ Soup.get_nonempty e (at_attr t) <> None)
       [mkTask 0 "src" "/logo.png" "http://h/logo.png" "image"].
Proof.
  intros soup. split; [vm_compute; reflexivity |].
  apply (@asset_tasks_well_formed UrlLib.lib soup "http://h/b").
  vm_compute. reflexivity.
Defined.

(** ** The counts of the domains add up *)

Lemma sum_counts_insert (m : gmap string Z) (k : string) (v : Z) :
  sum_counts (<[k := v]> m) = (sum_counts m - default 0 (m !! k) + v)%Z.
Proof.
  unfold sum_counts.
  destruct (m !! k) as [x |] eqn:Hk; cbn.
  - rewrite (map_fold_delete_L _ _ k x m); [| intros; lia | exact Hk].
    rewrite <- insert_delete_eq.
    rewrite map_fold_insert_L; [lia | intros; lia | apply lookup_delete_eq].
  - rewrite map_fold_insert_L; [lia | intros; lia | exact Hk].
Qed.

Section AddUp.
Context `{PyLib} `{RobotLib} `{SoupLib}.
Variable cfg : Config.

Ltac addup_side :=
  first [ let Hi := fresh in intros ? ? Hi; exact Hi
        | let Hi := fresh in intros ? ? ? Hi; exact Hi ].

Lemma addup_process_url url depth :
  keeps domains_add_up (process_url cfg url depth).
Proof.
  apply process_url_keeps; try addup_side.
  - unfold fetch_page, add_failed, can_fetch. repeat keeps_with addup_side.
  - intros p content content_type cookies s w Hp Hdepth [Hsum Hpos].
    apply keeps_apply.
    + unfold store_fetched, save_page_content, enqueue_new,
        rewrite_html_urls, rewrite_style_tag, rewrite_style_attr,
        apply_asset_task, rewrite_anchor, rewrite_css_urls, rewrite_css_url,
        download_asset, store_asset, fail_asset.
      repeat keeps_with addup_side.
    + assert (Hc : pages_scraped_count (count_fetched cfg p content cookies s)
                   = (pages_scraped_count s + 1)%Z
                   /\ domain_counts (count_fetched cfg p content cookies s)
                      = <[netloc p := (default 0 (domain_counts s !! netloc p) + 1)%Z]>
                          (domain_counts s)).
      { unfold count_fetched, count_page.
        destruct cookies; destruct (_ <=? _)%Z; split; reflexivity. }
      destruct Hc as [Hc1 Hc2]. unfold domains_add_up. rewrite Hc1, Hc2. split.
      * rewrite sum_counts_insert. lia.
      * intros d n. destruct (decide (netloc p = d)) as [<- | Hne].
        -- rewrite lookup_insert_eq. intros [= <-].
           destruct (domain_counts s !! netloc p) as [x |] eqn:Hx; cbn; [| lia].
           specialize (Hpos _ _ Hx). lia.
        -- rewrite lookup_insert_ne by exact Hne. apply Hpos.
Qed.

(** X22: in every state that the workers reach, the counts of
    [domain_counts] add up to [pages_scraped_count], and every domain
    listed has at least one page. *)
Theorem domain_counts_add_up (sys : Sys) :
  reachable cfg sys ->
  pages_scraped_count (shared sys) = sum_counts (domain_counts (shared sys))
  /\ forall d n, domain_counts (shared sys) !! d = Some n -> (1 <= n)%Z.
Proof.
  intros Hr.
  apply (reachable_invariant cfg domains_add_up); [| | | exact Hr].
  - split; cbn; [reflexivity |]. intros d n Hd.
    rewrite lookup_empty in Hd. discriminate.
  - intros s w q Hi. exact Hi.
  - apply addup_process_url.
Qed.

End AddUp.

Lemma domain_counts_add_up_witness :
  exists sys : Sys,
    @perform_all UrlLib.lib MiniRobots.lib MiniSoup.lib Site.cfg_cap
      (init_sys Site.cfg_cap) Site.schedule_cap = Some sys
    /\ domain_counts (shared sys) !! "h" = Some 3%Z
    /\ pages_scraped_count (shared sys) = sum_counts (domain_counts (shared sys)).
Proof.
  assert (Hc :
    match @perform_all UrlLib.lib MiniRobots.lib MiniSoup.lib Site.cfg_cap
            (init_sys Site.cfg_cap) Site.schedule_cap with
    | Some sys => domain_counts (shared sys) !! "h" = Some 3%Z
    | None => False
    end) by (vm_compute; reflexivity).
  destruct (@perform_all UrlLib.lib MiniRobots.lib MiniSoup.lib Site.cfg_cap
              (init_sys Site.cfg_cap) Site.schedule_cap) as [sys |] eqn:E;
    [| contradiction].
  exists sys. split; [reflexivity |]. split; [exact Hc |].
  apply (@domain_counts_add_up UrlLib.lib MiniRobots.lib MiniSoup.lib
           Site.cfg_cap sys).
  exact (perform_all_reachable Site.cfg_cap Site.schedule_cap _ sys
           (reach_init Site.cfg_cap) E).
Defined.

(** ** A page that [robots.txt] closes *)

Section Denied.
Context `{PyLib} `{RobotLib}.
Variable cfg : Config.





End Denied.


(** ** The fragment of an asset URL, whatever happens in between *)

Section Fetches2.
Context `{PyLib} `{RobotLib}.
Variable cfg : Config.


Lemma requests_only_bind {A B : Type} (clean : string) (t : Step A)
    (f : A -> Task B) :
  requests_only clean t ->
  (forall a s, requests_only clean (f a s)) ->
  requests_only clean (step_bind t f).
Proof.
  intros Ht Hf. induction t as [r s | p url s k IH | pa c s k IH]; cbn.
  - destruct r; [apply Hf | exact Logic.I].
  - destruct Ht as [Ha Hk]. split; [exact Ha |]. intros r s'. apply IH, Hk.
  - intros r s'. apply IH, Ht.
Qed.


Lemma requests_only_fail_asset clean url s :
  requests_only clean (fail_asset url s).
Proof. exact Logic.I. Qed.







End Fetches2.


(** ** A page that cannot be written *)

Section OwnRules.
Context `{RobotLib}.
Variable R : Scraper -> Scraper -> Prop.
Hypothesis R_refl : forall s, R s s.
Hypothesis R_trans : forall s1 s2 s3, R s1 s2 -> R s2 s3 -> R s1 s3.

Lemma own_steps_weaken {A : Type} (s0 s1 : Scraper) (t : Step A) :
  R s0 s1 -> own_steps R s1 t -> own_steps R s0 t.
Proof.
  intros Hs. destruct t; cbn; intros [Hg Hk];
    (split; [exact (R_trans _ _ _ Hs Hg) | exact Hk]).
Qed.

Lemma own_steps_bind {A B : Type} (s0 : Scraper) (t : Step A) (f : A -> Task B) :
  own_steps R s0 t -> (forall a, own_stepsT R (f a)) ->
  own_steps R s0 (step_bind t f).
Proof.
  intros Ht Hf. revert s0 Ht.
  induction t as [r s | p url s k IH | pa c s k IH]; intros s0; cbn.
  - intros [Hs _]. destruct r as [a | e].
    + apply (own_steps_weaken s0 s); [exact Hs | apply Hf].
    + cbn. split; [exact Hs | exact Logic.I].
  - intros [Hs Hk]. split; [exact Hs |]. intros r s'. apply IH, Hk.
  - intros [Hs Hk]. split; [exact Hs |]. intros r s'. apply IH, Hk.
Qed.

Lemma own_steps_catch {A : Type} (s0 : Scraper) (t : Step A) (h : exn -> Task A) :
  own_steps R s0 t -> (forall e, own_stepsT R (h e)) ->
  own_steps R s0 (step_catch t h).
Proof.
  intros Ht Hh. revert s0 Ht.
  induction t as [r s | p url s k IH | pa c s k IH]; intros s0; cbn.
  - intros [Hs _]. destruct r as [a | e].
    + cbn. split; [exact Hs | exact Logic.I].
    + apply (own_steps_weaken s0 s); [exact Hs | apply Hh].
  - intros [Hs Hk]. split; [exact Hs |]. intros r s'. apply IH, Hk.
  - intros [Hs Hk]. split; [exact Hs |]. intros r s'. apply IH, Hk.
Qed.

Lemma own_ret {A : Type} (a : A) : own_stepsT R (mret a).
Proof. intros s. cbn. split; [apply R_refl | exact Logic.I]. Qed.
Lemma own_raise {A : Type} (e : exn) : own_stepsT R (@task_raise _ A e).
Proof. intros s. cbn. split; [apply R_refl | exact Logic.I]. Qed.
Lemma own_lift {A : Type} (c : Exc A) : own_stepsT R (lift c).
Proof. intros s. cbn. split; [apply R_refl | exact Logic.I]. Qed.
Lemma own_read {A : Type} (f : Scraper -> A) : own_stepsT R (read f).
Proof. intros s. cbn. split; [apply R_refl | exact Logic.I]. Qed.
Lemma own_modify (f : Scraper -> Scraper) :
  (forall s, R s (f s)) -> own_stepsT R (modify f).
Proof. intros Hf s. cbn. split; [apply Hf | exact Logic.I]. Qed.
Lemma own_get (p : profile) (url : string) : own_stepsT R (await_get p url).
Proof.
  intros s. cbn. split; [apply R_refl |]. intros r s'. cbn.
  split; [apply R_refl | exact Logic.I].
Qed.
Lemma own_write (pa c : string) : own_stepsT R (await_write pa c).
Proof.
  intros s. cbn. split; [apply R_refl |]. intros r s'. cbn.
  split; [apply R_refl | exact Logic.I].
Qed.
Lemma own_bind {A B : Type} (m : Task A) (f : A -> Task B) :
  own_stepsT R m -> (forall a, own_stepsT R (f a)) -> own_stepsT R (m ≫= f).
Proof. intros Hm Hf s. apply own_steps_bind; [apply Hm | exact Hf]. Qed.
Lemma own_try {A : Type} (m : Task A) (h : exn -> Task A) :
  own_stepsT R m -> (forall e, own_stepsT R (h e)) -> own_stepsT R (task_try m h).
Proof. intros Hm Hh s. apply own_steps_catch; [apply Hm | exact Hh]. Qed.
Lemma own_for_each {A S : Type} (l : list A) (body : S -> A -> Task S)
    (acc : S) :
  (forall acc x, own_stepsT R (body acc x)) -> own_stepsT R (for_each l body acc).
Proof.
  intros Hb. revert acc. induction l as [| x r IH]; intros acc; cbn [for_each].
  - apply own_ret.
  - apply own_bind; [apply Hb | intros acc'; apply IH].
Qed.

End OwnRules.

Lemma same_pages_refl `{RobotLib} (s : Scraper) : same_pages s s.
Proof. repeat split. Qed.

Lemma same_pages_trans `{RobotLib} (s1 s2 s3 : Scraper) :
  same_pages s1 s2 -> same_pages s2 s3 -> same_pages s1 s3.
Proof.
  intros (A1 & A2 & A3) (B1 & B2 & B3).
  repeat split; etransitivity; eassumption.
Qed.

Ltac own_step :=
  lazymatch goal with
  | |- own_stepsT _ (mbind _ _) =>
      apply (own_bind _ same_pages_trans); [| intros ?]
  | |- own_stepsT _ (task_try _ _) =>
      apply (own_try _ same_pages_trans); [| intros ?]
  | |- own_stepsT _ (mret _) => apply (own_ret _ same_pages_refl)
  | |- own_stepsT _ (task_raise _) => apply (own_raise _ same_pages_refl)
  | |- own_stepsT _ (lift _) => apply (own_lift _ same_pages_refl)
  | |- own_stepsT _ (read _) => apply (own_read _ same_pages_refl)
  | |- own_stepsT _ (await_get _ _) => apply (own_get _ same_pages_refl)
  | |- own_stepsT _ (await_write _ _) => apply (own_write _ same_pages_refl)
  | |- own_stepsT _ (modify _) =>
      apply own_modify; intros ?; repeat split
  | |- own_stepsT _ (for_each _ _ _) =>
      apply (own_for_each _ same_pages_refl same_pages_trans); intros ? ?
  | |- own_stepsT _ (if ?b then _ else _) => destruct b
  | |- own_stepsT _ (match ?x with _ => _ end) => destruct x
  | |- own_stepsT _ (let _ := _ in _) => cbv zeta
  end.

Section Unwritten.
Context `{PyLib} `{RobotLib} `{SoupLib}.
Variable cfg : Config.

(** Rewriting a page counts nothing and records nothing. *)
Lemma rewrite_html_urls_same_pages (html base_url : string) :
  own_stepsT same_pages (rewrite_html_urls cfg html base_url).
Proof.
  unfold rewrite_html_urls, rewrite_style_tag, rewrite_style_attr,
    apply_asset_task, rewrite_anchor, rewrite_css_urls, rewrite_css_url,
    download_asset, store_asset, fail_asset.
  repeat own_step.
Qed.

End Unwritten.

Section Unwritten2.
Context `{PyLib} `{RobotLib} `{SoupLib}.
Variable cfg : Config.

Lemma enqueue_one (depth : Z) (x : string) (s : Scraper) :
  exists s',
    enqueue_new depth tt x s = Done (Ret tt) s' /\ same_pages s s'.
Proof.
  unfold enqueue_new. task_step. unfold id.
  destruct (negb (bool_decide (x ∈ visited_urls s)) && negb (should_stop s));
    eexists; (split; [reflexivity |]); repeat split.
Qed.

(** Queueing the links of a page does not suspend, and touches only the
    queue. *)
Lemma enqueue_links (depth : Z) (l : list string) (s : Scraper) :
  exists s',
    for_each l (enqueue_new depth) tt s = Done (Ret tt) s'
    /\ same_pages s s'.
Proof.
  revert s. induction l as [| x r IH]; intros s; cbn [for_each].
  - exists s. split; [reflexivity | apply same_pages_refl].
  - destruct (enqueue_one depth x s) as (s1 & Hs1 & Hp1).
    destruct (IH s1) as (s' & Hs' & Hp').
    exists s'. split; [| exact (same_pages_trans _ _ _ Hp1 Hp')].
    unfold mbind, Task_bind, task_bind. rewrite Hs1. cbn [step_bind].
    exact Hs'.
Qed.

(** [process_url], for a URL that it lets in, is [fetch_page] followed,
    when a page comes back, by the rest from the state in which the page
    is counted. *)
Lemma process_url_fetched (url : string) (depth : Z) (p : ParseResult)
    (s : Scraper) :
  should_stop s = false ->
  url ∉ visited_urls s ->
  (depth <= max_depth cfg)%Z ->
  (pages_scraped_count s < max_pages cfg)%Z ->
  (default 0 (domain_counts s !! netloc p) < pages_per_domain cfg)%Z ->
  urlparse url = Ret p ->
  exists f,
    process_url cfg url depth s
    = step_bind
        (fetch_page cfg url (set_visited_urls ({[url]} ∪ visited_urls s) s)) f
    /\ (forall s1, f None s1 = Done (Ret tt) s1)
    /\ forall c ct ck s1,
         f (Some (c, ct, ck)) s1
         = store_fetched cfg url depth p c ct (count_fetched cfg p c ck s1).
Proof.
  intros Hstop Hvis Hdepth Hcap Hdom Hp.
  unfold process_url, check_limits. task_step. rewrite Hstop. task_step.
  rewrite bool_decide_eq_false_2 by exact Hvis. cbn [orb].
  replace (max_depth cfg <? depth)%Z with false by (symmetry; apply Z.ltb_ge; lia).
  unfold id.
  replace (max_pages cfg <=? pages_scraped_count s)%Z with false
    by (symmetry; apply Z.leb_gt; lia).
  rewrite Hp. task_step.
  replace (pages_per_domain cfg <=? default 0 (domain_counts s !! netloc p))%Z
    with false by (symmetry; apply Z.leb_gt; lia).
  task_step. cbn [negb].
  eexists. split; [reflexivity |]. split; [reflexivity |].
  intros c ct ck s1. cbn beta iota.
  unfold store_fetched, count_fetched, add_page. task_step. rewrite Hp.
  task_step. destruct ck; reflexivity.
Qed.

(** What counting the page does to the counts. *)
Lemma count_fetched_counts (p : ParseResult) (content : string)
    (cookies : list (string * string)) (s : Scraper) :
  pages_scraped_count (count_fetched cfg p content cookies s)
  = (pages_scraped_count s + 1)%Z
  /\ st_pages_scraped (stats (count_fetched cfg p content cookies s))
     = (st_pages_scraped (stats s) + 1)%Z
  /\ st_pages_failed (stats (count_fetched cfg p content cookies s))
     = st_pages_failed (stats s)
  /\ scraped_data (count_fetched cfg p content cookies s) = scraped_data s.
Proof.
  unfold count_fetched, count_page.
  destruct cookies; cbn; destruct (_ <=? _)%Z; cbn; repeat split; reflexivity.
Qed.

(** The rest of [process_url]: the page is rewritten, which counts and
    records nothing; then it is written; whether the write returns or
    raises, the page is recorded, with the path or with none, nothing
    else is counted, and [process_url] returns. *)
Lemma store_fetched_outcomes (url : string) (depth : Z) (p : ParseResult)
    (content content_type : string) (s : Scraper) :
  let rewritten :=
    if Py.contains "html" content_type
    then rewrite_html_urls cfg content url
    else mret content in
  exists g,
    store_fetched cfg url depth p content content_type s
    = step_bind (rewritten s) g
    /\ own_steps same_pages s (rewritten s)
    /\ forall content' s2,
         exists k,
           g content' s2
           = WriteFile (page_filepath cfg url content_type) content' s2 k
           /\ forall r s3,
                exists s4,
                  k r s3 = Done (Ret tt) s4
                  /\ scraped_data s4
                     = <[url := mkPage url content_type
                                  (match r with
                                   | Ret _ => Some (page_filepath cfg url content_type)
                                   | Raise _ => None
                                   end)
                                  depth (String.length content') (netloc p)]>
                         (scraped_data s3)
                  /\ pages_scraped_count s4 = pages_scraped_count s3
                  /\ stats s4 = stats s3.
Proof.
  intros rewritten. unfold store_fetched, save_page_content. task_step.
  eexists. split; [reflexivity |]. split.
  { unfold rewritten. destruct (Py.contains "html" content_type).
    - apply rewrite_html_urls_same_pages.
    - apply (own_ret _ same_pages_refl). }
  intros content' s2. cbn beta. task_step.
  eexists. split; [reflexivity |].
  intros r s3. cbn beta.
  destruct r as [[] | e]; cbn [step_bind step_catch].
  - destruct (Py.contains "html" content_type && negb (should_stop _)).
    + match goal with
      | |- context [for_each ?l (enqueue_new ?d) tt ?s0] =>
          destruct (enqueue_links d l s0) as (s4 & -> & E1 & E2 & E3)
      end.
      exists s4. split; [reflexivity |]. rewrite E1, E2, E3.
      repeat split; reflexivity.
    + eexists. split; [reflexivity |]. repeat split; reflexivity.
  - destruct (Py.contains "html" content_type && negb (should_stop _)).
    + match goal with
      | |- context [for_each ?l (enqueue_new ?d) tt ?s0] =>
          destruct (enqueue_links d l s0) as (s4 & -> & E1 & E2 & E3)
      end.
      exists s4. split; [reflexivity |]. rewrite E1, E2, E3.
      repeat split; reflexivity.
    + eexists. split; [reflexivity |]. repeat split; reflexivity.
Qed.

(** Run alone, a coroutine ends in a state related to the one it started
    in. *)
Lemma own_steps_run {A : Type} (R : Scraper -> Scraper -> Prop) (env : Env)
    (t : Step A) (s0 : Scraper) (w : World) :
  (forall s1 s2 s3, R s1 s2 -> R s2 s3 -> R s1 s3) ->
  own_steps R s0 t -> R s0 (snd (fst (run env t w))).
Proof.
  intros Htrans. revert s0 w.
  induction t as [r s | p url s k IH | pa c s k IH]; intros s0 w; cbn.
  - intros [Hs _]. exact Hs.
  - intros [Hs Hk]. apply (Htrans _ _ _ Hs). apply IH, Hk.
  - intros [Hs Hk]. apply (Htrans _ _ _ Hs). apply IH, Hk.
Qed.

(** C4, as the code has it.  In every state the workers can reach, every
    record of [scraped_data] whose path is not null names a file that is
    on disk.  When the write of a page raises, [save_page_content]
    answers [None] and leaves the state as it is.  [process_url], for a
    URL that it lets in, is [fetch_page] followed, when a page comes
    back, by counting the page (one more page scraped, no failure) and,
    from there, by the rewriting of the page, which counts and records
    nothing, and by one write, after which the page is recorded, with
    the path when the write returned and with a null path when it raised,
    nothing else being counted: so it is for every page, whatever is
    answered and whatever state the coroutine is resumed with.  Run
    alone, [process_url] for a page that was fetched and rewritten, and
    whose write raises, returns with the page recorded without a path,
    counted as scraped and not as failed, and the disk as it was. *)
Theorem stored_paths_exist (sys : Sys) (s : Scraper) (url : string) (depth : Z)
    (p : ParseResult) (content content_type : string)
    (cookies : list (string * string)) (env : Env) (w w1 : World)
    (s1 : Scraper) (rewritten_content : string) (e : exn) :
  let rewritten : Task string :=
    if Py.contains "html" content_type
    then rewrite_html_urls cfg content url
    else mret content in
  let admitted :=
    should_stop s = false
    /\ (url ∉ visited_urls s)
    /\ (depth <= max_depth cfg)%Z
    /\ (pages_scraped_count s < max_pages cfg)%Z
    /\ (default 0 (domain_counts s !! netloc p) < pages_per_domain cfg)%Z
    /\ urlparse url = Ret p in
  let marked := set_visited_urls ({[url]} ∪ visited_urls s) s in
  (reachable cfg sys -> paths_exist (shared sys) (world sys))
  /\ (exists k,
        save_page_content cfg url content content_type s
        = WriteFile (page_filepath cfg url content_type) content s k
        /\ (forall s', k (Ret tt) s'
                       = Done (Ret (Some (page_filepath cfg url content_type))) s')
        /\ (forall e s', k (Raise e) s' = Done (Ret None) s'))
  /\ (admitted ->
      exists f,
        process_url cfg url depth s = step_bind (fetch_page cfg url marked) f
        /\ (forall s1, f None s1 = Done (Ret tt) s1)
        /\ forall c ct ck s1,
             f (Some (c, ct, ck)) s1
             = store_fetched cfg url depth p c ct (count_fetched cfg p c ck s1))
  /\ (pages_scraped_count (count_fetched cfg p content cookies s)
      = (pages_scraped_count s + 1)%Z
      /\ st_pages_scraped (stats (count_fetched cfg p content cookies s))
         = (st_pages_scraped (stats s) + 1)%Z
      /\ st_pages_failed (stats (count_fetched cfg p content cookies s))
         = st_pages_failed (stats s)
      /\ scraped_data (count_fetched cfg p content cookies s) = scraped_data s)
  /\ (exists g,
        store_fetched cfg url depth p content content_type s
        = step_bind (rewritten s) g
        /\ own_steps same_pages s (rewritten s)
        /\ forall content' s2,
             exists k,
               g content' s2
               = WriteFile (page_filepath cfg url content_type) content' s2 k
               /\ forall r s3,
                    exists s4,
                      k r s3 = Done (Ret tt) s4
                      /\ scraped_data s4
                         = <[url := mkPage url content_type
                                      (match r with
                                       | Ret _ =>
                                           Some (page_filepath cfg url content_type)
                                       | Raise _ => None
                                       end)
                                      depth (String.length content') (netloc p)]>
                             (scraped_data s3)
                      /\ pages_scraped_count s4 = pages_scraped_count s3
                      /\ stats s4 = stats s3)
  /\ (admitted ->
      run env (fetch_page cfg url marked) w
      = (Ret (Some (content, content_type, cookies)), s1, w1) ->
      let counted := count_fetched cfg p content cookies s1 in
      fst (fst (run env (rewritten counted) w1)) = Ret rewritten_content ->
      env_write env (disk (snd (run env (rewritten counted) w1)))
        (page_filepath cfg url content_type) rewritten_content = Raise e ->
      let out := run env (process_url cfg url depth s) w in
      fst (fst out) = Ret tt
      /\ scraped_data (snd (fst out)) !! url
         = Some (mkPage url content_type None depth
                   (String.length rewritten_content) (netloc p))
      /\ pages_scraped_count (snd (fst out)) = (pages_scraped_count s1 + 1)%Z
      /\ st_pages_scraped (stats (snd (fst out)))
         = (st_pages_scraped (stats s1) + 1)%Z
      /\ st_pages_failed (stats (snd (fst out))) = st_pages_failed (stats s1)
      /\ disk (snd out) = disk (snd (run env (rewritten counted) w1))).
Proof.
  intros rewritten admitted marked.
  split.
  { intros Hr.
    apply (reachable_invariant cfg paths_exist); [| | | exact Hr].
    - intros u rec q Hu. cbn in Hu. rewrite lookup_empty in Hu. discriminate.
    - intros s0 w0 q Hi. exact Hi.
    - apply keeps_process_url. }
  split; [apply save_page_content_outcomes |].
  split.
  { intros (Hstop & Hvis & Hdepth & Hcap & Hdom & Hp).
    apply process_url_fetched; assumption. }
  split; [apply count_fetched_counts |].
  split; [apply store_fetched_outcomes |].
  intros (Hstop & Hvis & Hdepth & Hcap & Hdom & Hp) Hfetch counted Hmid Hwrite out.
  destruct (process_url_fetched url depth p s Hstop Hvis Hdepth Hcap Hdom Hp)
    as (f & Hf & _ & Hsome).
  pose proof (store_fetched_outcomes url depth p content content_type counted)
    as Hst.
  cbv zeta in Hst. fold rewritten in Hst.
  destruct Hst as (g & Hg & Hown & Hk).
  pose proof (own_steps_run same_pages env (rewritten counted) counted w1
                same_pages_trans Hown) as (E1 & E2 & E3).
  destruct (count_fetched_counts p content cookies s1) as (C1 & C2 & C3 & C4).
  fold counted in C1, C2, C3, C4.
  destruct (Hk rewritten_content (snd (fst (run env (rewritten counted) w1))))
    as (k & Hk1 & Hk2).
  destruct (Hk2 (Raise e) (snd (fst (run env (rewritten counted) w1))))
    as (s4 & Hs4 & F1 & F2 & F3).
  assert (Hout : out = (Ret tt, s4, snd (run env (rewritten counted) w1))).
  { unfold out. rewrite Hf, run_bind. fold marked. rewrite Hfetch.
    cbn [fst snd]. rewrite Hsome. fold counted. rewrite Hg, run_bind, Hmid.
    rewrite Hk1. cbn [run]. rewrite Hwrite. cbn [record_write].
    rewrite Hs4. reflexivity. }
  rewrite Hout. cbn [fst snd]. split; [reflexivity |].
  split; [rewrite F1; apply lookup_insert_eq |].
  split; [rewrite F2, E1; exact C1 |].
  split; [rewrite F3, E2; exact C2 |].
  split; [rewrite F3, E2; exact C3 | reflexivity].
Qed.

End Unwritten2.

(** The seed page is stored and recorded, and its file is there.  A page
    of HTML that is fetched and rewritten, its image stored, but whose
    own file cannot be written, is recorded without a path, counted as
    scraped and not as failed. *)
Lemma stored_paths_exist_witness :
  (exists sys : Sys,
      @perform_all UrlLib.lib MiniRobots.lib MiniSoup.lib Site.cfg_two
        (init_sys Site.cfg_two) Site.schedule_seed = Some sys
      /\ @paths_exist MiniRobots.lib (shared sys) (world sys))
  /\ let out :=
       @run MiniRobots.lib _ Site.env_html_unwritten
         (@process_url UrlLib.lib MiniRobots.lib MiniSoup.lib Site.cfg_two
            "http://h/a" 0%Z init_scraper) Site.no_world in
     fst (fst out) = Ret tt
     /\ scraped_data (snd (fst out)) !! "http://h/a"
        = Some (mkPage "http://h/a" "text/html" None 0 64 "h")
     /\ pages_scraped_count (snd (fst out)) = 1%Z
     /\ st_pages_scraped (stats (snd (fst out))) = 1%Z
     /\ st_pages_failed (stats (snd (fst out))) = 0%Z
     /\ disk (snd out) !! "out/html/2ce7276502725c281e6d5ae4e55aed55.html" = None
     /\ disk (snd out) !! "out/images/77892f63d34c051137f1fd14a0fc706c.png"
        = Some "bytes".
Proof.
  assert (Hc :
    match @perform_all UrlLib.lib MiniRobots.lib MiniSoup.lib Site.cfg_two
            (init_sys Site.cfg_two) Site.schedule_seed with
    | Some sys => size (scraped_data (shared sys)) = 1%nat
    | None => False
    end) by (vm_compute; reflexivity).
  destruct (@perform_all UrlLib.lib MiniRobots.lib MiniSoup.lib Site.cfg_two
              (init_sys Site.cfg_two) Site.schedule_seed) as [sys |] eqn:E;
    [| contradiction].
  pose (fetched :=
    @run MiniRobots.lib _ Site.env_html_unwritten
      (@fetch_page UrlLib.lib MiniRobots.lib Site.cfg_two "http://h/a"
         (set_visited_urls
            ({["http://h/a"]} ∪ visited_urls (@init_scraper MiniRobots.lib))
            init_scraper)) Site.no_world).
  pose proof (@stored_paths_exist UrlLib.lib MiniRobots.lib MiniSoup.lib
                Site.cfg_two sys init_scraper "http://h/a" 0%Z
                (mkParse "http" "h" "/a" "" "" "") Site.logo_html "text/html" []
                Site.env_html_unwritten Site.no_world (snd fetched)
                (snd (fst fetched))
                "<img src='../images/77892f63d34c051137f1fd14a0fc706c.png'></img>"
                OSError) as Ht.
  cbv zeta in Ht. destruct Ht as (Hpaths & _ & _ & _ & _ & Hrun).
  split.
  - exists sys. split; [reflexivity |]. apply Hpaths.
    eapply perform_all_reachable; [apply reach_init | exact E].
  - assert (Hadm : should_stop (@init_scraper MiniRobots.lib) = false
              /\ ("http://h/a" ∉ visited_urls (@init_scraper MiniRobots.lib))
              /\ (0 <= max_depth Site.cfg_two)%Z
              /\ (pages_scraped_count (@init_scraper MiniRobots.lib)
                  < max_pages Site.cfg_two)%Z
              /\ (default 0
                    (domain_counts (@init_scraper MiniRobots.lib)
                       !! netloc (mkParse "http" "h" "/a" "" "" ""))
                  < pages_per_domain Site.cfg_two)%Z
              /\ @urlparse UrlLib.lib "http://h/a"
                 = Ret (mkParse "http" "h" "/a" "" "" "")).
    { split; [reflexivity |]. split; [apply not_elem_of_empty |].
      split; [vm_compute; discriminate |]. split; [reflexivity |].
      split; reflexivity. }
    specialize (Hrun Hadm).
    assert (Hf : fetched
                 = (Ret (Some (Site.logo_html, "text/html", [])),
                    snd (fst fetched), snd fetched))
      by (vm_compute; reflexivity).
    specialize (Hrun Hf).
    assert (Hs1 : pages_scraped_count (snd (fst fetched)) = 0%Z
                  /\ st_pages_scraped (stats (snd (fst fetched))) = 0%Z
                  /\ st_pages_failed (stats (snd (fst fetched))) = 0%Z)
      by (vm_compute; repeat split; reflexivity).
    destruct Hs1 as (Z1 & Z2 & Z3).
    destruct Hrun as (R1 & R2 & R3 & R4 & R5 & R6).
    + vm_compute. reflexivity.
    + vm_compute. reflexivity.
    + intros out. fold out in R1, R2, R3, R4, R5, R6.
      rewrite Z1 in R3. rewrite Z2 in R4. rewrite Z3 in R5.
      split; [exact R1 |]. split; [exact R2 |]. split; [exact R3 |].
      split; [exact R4 |]. split; [exact R5 |].
      rewrite R6. split; vm_compute; reflexivity.
Defined.
